(** * The UiPath Orchestrator client (src/uipath-client.ts), embedded in Rocq

    The client is a TypeScript class whose methods are sequences of awaited
    network calls around one piece of mutable state, the cached bearer token.
    The embedding is shallow: every method becomes a computation in a small
    reader/state/exception monad [M]; the remote servers are oracles of the
    environment, and every [fetch] is recorded in a log so that statements
    about "which requests are issued" are statements about that log.

    Conventions.
    - JavaScript numbers that hold counts, identifiers and millisecond
      timestamps are integers [Z]; a success rate, the one genuinely
      fractional quantity, is an exact rational [Q].
    - [T | null] and optional fields are [option T]; a TypeScript union of
      string literals is an inductive type.
    - A JavaScript string is the [string] of its UTF-8 bytes.
    - Every value thrown by the client or its runtime is an [Error]; it is
      represented by its message.
    - A request is logged with its endpoint and its parameter object, not
      with the serialized URL. The API root [this.baseUrl] is the value the
      constructor stored; the identity URL is derived at every exchange
      from [this.config.baseUrl], as in the source, and [new URL] belongs
      to the runtime.

    Contents: JavaScript primitives; wire types; the network and the
    monad; the client's operations, in the order of the source; a concrete
    runtime with a few servers; the notions the properties are stated
    with; the properties. *)

From Stdlib Require Import ZArith String Ascii List Bool Lia QArith Qround DecimalString.
Import ListNotations.
Local Open Scope Z_scope.
Local Open Scope string_scope.

(** ** JavaScript primitives used by the client *)

Module JS.

(** [String(n)] for an integral number. *)
Definition String_of_number (n : Z) : string :=
  NilZero.string_of_int (Z.to_int n).

(** [x || d] on an optional number: [undefined] and [0] are falsy. *)
Definition num_or (x : option Z) (d : Z) : Z :=
  match x with
  | Some n => if (n =? 0)%Z then d else n
  | None => d
  end.

(** Truthiness of a string: only the empty string is falsy. *)
Definition truthy (s : string) : bool :=
  match s with
  | EmptyString => false
  | String _ _ => true
  end.

(** [x || d] on an optional string. *)
Definition str_or (x : option string) (d : string) : string :=
  match x with
  | Some s => if truthy s then s else d
  | None => d
  end.

(** [if (x)] on an optional string. *)
Definition given (x : option string) : option string :=
  match x with
  | Some s => if truthy s then Some s else None
  | None => None
  end.

(** [s.includes(needle)]. *)
Fixpoint includes (s needle : string) : bool :=
  if String.prefix needle s then true
  else match s with
       | EmptyString => false
       | String _ rest => includes rest needle
       end.

(** [parts.join(sep)]. *)
Fixpoint join (sep : string) (parts : list string) : string :=
  match parts with
  | [] => ""
  | [p] => p
  | p :: rest => p ++ sep ++ join sep rest
  end.

(** [s.replace(/'/g, "''")]. *)
Fixpoint replace_quotes (s : string) : string :=
  match s with
  | EmptyString => EmptyString
  | String c rest =>
      if Ascii.eqb c "'"%char
      then String "'"%char (String "'"%char (replace_quotes rest))
      else String c (replace_quotes rest)
  end.

Definition hex_digit (n : N) : ascii :=
  if (n <? 10)%N then ascii_of_N (48 + n) else ascii_of_N (55 + n).

(** The characters [encodeURIComponent] leaves alone:
    [A-Z a-z 0-9 - _ . ! ~ * ' ( )]. *)
Definition uri_unreserved (c : ascii) : bool :=
  let n := N_of_ascii c in
  ((65 <=? n) && (n <=? 90) || (97 <=? n) && (n <=? 122) ||
   (48 <=? n) && (n <=? 57))%N ||
  existsb (Ascii.eqb c)
    ["-"; "_"; "."; "!"; "~"; "*"; "'"; "("; ")"]%char.

(** [encodeURIComponent(s)]: every other byte of the UTF-8 form becomes
    [%XX] with upper-case hexadecimal digits. *)
Fixpoint encodeURIComponent (s : string) : string :=
  match s with
  | EmptyString => EmptyString
  | String c rest =>
      if uri_unreserved c then String c (encodeURIComponent rest)
      else
        let n := N_of_ascii c in
        String "%"%char
          (String (hex_digit (n / 16)) (String (hex_digit (n mod 16))
             (encodeURIComponent rest)))
  end.

(** [Math.round(q)]: the nearest integer, halves towards plus infinity. *)
Definition Math_round (q : Q) : Z := Qfloor (q + (1 # 2)).

(** How often [c] occurs in [s]. *)
Fixpoint occurrences (c : ascii) (s : string) : nat :=
  match s with
  | EmptyString => 0%nat
  | String d rest =>
      ((if Ascii.eqb d c then 1 else 0) + occurrences c rest)%nat
  end.

End JS.

(** ** Wire types (src/types.ts), restricted to the fields the client reads *)

Record TokenResponse := {
  access_token : string;
  expires_in : Z
}.

Record ODataResponse (T : Type) := {
  odata_count : option Z;   (* "@odata.count"?: number *)
  value : list T
}.
Arguments odata_count {T} _.
Arguments value {T} _.

Module QueueItemStatus.
Inductive t :=
| New | InProgress | Successful | Failed | Abandoned | Retried | Deleted.

(** The string the union member stands for. *)
Definition text (s : t) : string :=
  match s with
  | New => "New" | InProgress => "InProgress" | Successful => "Successful"
  | Failed => "Failed" | Abandoned => "Abandoned" | Retried => "Retried"
  | Deleted => "Deleted"
  end.
End QueueItemStatus.

Module JobState.
Inductive t :=
| Pending | Running | Successful | Faulted | Stopping | Terminated
| Stopped | Suspended | Resumed.

Definition text (s : t) : string :=
  match s with
  | Pending => "Pending" | Running => "Running"
  | Successful => "Successful" | Faulted => "Faulted"
  | Stopping => "Stopping" | Terminated => "Terminated"
  | Stopped => "Stopped" | Suspended => "Suspended"
  | Resumed => "Resumed"
  end.

Definition eqb (a b : t) : bool :=
  match a, b with
  | Pending, Pending | Running, Running | Successful, Successful
  | Faulted, Faulted | Stopping, Stopping | Terminated, Terminated
  | Stopped, Stopped | Suspended, Suspended | Resumed, Resumed => true
  | _, _ => false
  end.
End JobState.

Module QueueDefinition.
Record t := { Id : Z; Name : string }.
End QueueDefinition.

Module QueueItem.
Record t := {
  Id : Z;
  QueueDefinitionId : Z;
  Status : QueueItemStatus.t
}.
End QueueItem.

Module Job.
Record t := {
  Id : Z;
  Key : string;
  State : JobState.t;
  Info : option string;
  JobError : option string;
  CreationTime : string;
  StartTime : option string;
  EndTime : option string;
  ReleaseName : string;
  HostMachineName : option string
}.
End Job.

Module Release.
Record t := {
  Id : Z;
  Key : string;
  ProcessKey : string;
  Name : string
}.
End Release.

Module Robot.
Record t := { Id : Z; Name : string }.
End Robot.

Module RobotLog.
Record t := {
  Id : Z;
  Level : string;
  Message : string;
  JobKey : option string
}.
End RobotLog.

Module AuditLog.
Record t := {
  Id : Z;
  Action : string;
  UserName : string;
  Component : string
}.
End AuditLog.

(** ** The network and the runtime, as seen by the client *)

(** [Record<string, string>], in insertion order. *)
Definition Params := list (string * string).

Fixpoint param (k : string) (ps : Params) : option string :=
  match ps with
  | [] => None
  | (k', v) :: rest => if String.eqb k k' then Some v else param k rest
  end.

Inductive Body :=
| FormBody (fields : Params)     (* URLSearchParams(...).toString() *)
| JsonBody (json : string).      (* JSON.stringify(body) *)

(** The arguments of one [fetch]. The URL is kept in its three parts:
    [f_base ++ f_endpoint], followed by the query string built from
    [f_query] when there is one. *)
Record Fetch := {
  f_method : string;
  f_base : string;
  f_endpoint : string;
  f_query : option Params;
  f_headers : Params;
  f_body : option Body
}.

(** What a [fetch] comes back with. *)
Inductive Reply (T : Type) :=
| Json (data : T)                          (* response.ok, body parsed *)
| HttpError (status : Z) (text : string)   (* !response.ok *)
| Rejected (message : string).             (* fetch() or .json() rejects *)
Arguments Json {T} _.
Arguments HttpError {T} _ _.
Arguments Rejected {T} _.

(** The log distinguishes the two places that call [fetch]. *)
Inductive NetCall :=
| TokenExchange (f : Fetch)    (* ensureToken *)
| ApiCall (f : Fetch).         (* request *)

(** The requests sent to the Orchestrator API, without the token
    exchanges. *)
Fixpoint apiCalls (l : list NetCall) : list Fetch :=
  match l with
  | [] => []
  | ApiCall f :: rest => f :: apiCalls rest
  | TokenExchange _ :: rest => apiCalls rest
  end.

Definition Channel (T : Type) := list NetCall -> Fetch -> Reply T.

(** The remote side. A reply may depend on everything the client has sent
    so far. [request<T>] is typed by what the caller expects back; the
    embedding has one channel per expected shape. *)
Record Server := {
  identity : Channel TokenResponse;
  queueDefinitions : Channel (ODataResponse QueueDefinition.t);
  queueItems : Channel (ODataResponse QueueItem.t);
  jobs : Channel (ODataResponse Job.t);
  releases : Channel (ODataResponse Release.t);
  robots : Channel (ODataResponse Robot.t);
  robotLogs : Channel (ODataResponse RobotLog.t);
  auditLogs : Channel (ODataResponse AuditLog.t)
}.

(** What a call comes back with: a value, or the message of the error
    thrown. *)
Inductive Outcome (A : Type) :=
| Returns (a : A)
| Throws (message : string).
Arguments Returns {A} _.
Arguments Throws {A} _.

(** The parts of [new URL(baseUrl)] that [getIdentityUrl] reads. *)
Module URL.
Record t := { protocol : string; host : string; pathname : string }.
End URL.

(** Everything that does not change during a call: the configuration and
    the API root the constructor stored, the servers, and the runtime's
    clock, date parser and URL parser. [clock n] is the reading of the
    clock the [n]-th time it is looked at; [Date_parse s] is
    [new Date(s).getTime()], with [None] for [NaN]; [new_URL s] is
    [new URL(s)], which throws a [TypeError] when [s] is not an absolute
    URL. *)
Record Env := {
  clientId : string;            (* this.config.clientId *)
  clientSecret : string;        (* this.config.clientSecret *)
  config_baseUrl : string;      (* this.config.baseUrl *)
  baseUrl : string;             (* this.baseUrl *)
  defaultFolderId : option Z;
  server : Server;
  clock : nat -> Z;
  Date_parse : string -> option Z;
  new_URL : string -> Outcome URL.t
}.

(** What changes: the cached credential, the clock readings taken, and
    the log of network calls (oldest first). *)
Record World := {
  accessToken : option string;
  tokenExpiresAt : option Z;
  ticks : nat;
  log : list NetCall
}.

Definition M (A : Type) := Env -> World -> Outcome A * World.

Definition ret {A} (a : A) : M A := fun _ w => (Returns a, w).

Definition bind {A B} (m : M A) (k : A -> M B) : M B :=
  fun env w =>
    match m env w with
    | (Returns a, w') => k a env w'
    | (Throws e, w') => (Throws e, w')
    end.

Definition throw {A} (message : string) : M A :=
  fun _ w => (Throws message, w).

(** [try { m } catch (error) { handler(error.message) }]. *)
Definition tryCatch {A} (m : M A) (handler : string -> M A) : M A :=
  fun env w =>
    match m env w with
    | (Returns a, w') => (Returns a, w')
    | (Throws e, w') => handler e env w'
    end.

Definition asks {A} (f : Env -> A) : M A := fun env w => (Returns (f env), w).

Definition gets {A} (f : World -> A) : M A := fun _ w => (Returns (f w), w).

Declare Scope client_scope.
Delimit Scope client_scope with client.
Notation "x <- m ;; k" := (bind m (fun x => k))
  (at level 61, m at next level, right associativity) : client_scope.
Notation "m ;;; k" := (bind m (fun _ => k))
  (at level 61, right associativity) : client_scope.
Local Open Scope client_scope.

(** [Date.now()] and [new Date().getTime()]. *)
Definition Date_now : M Z :=
  fun env w =>
    (Returns (clock env (ticks w)),
     {| accessToken := accessToken w; tokenExpiresAt := tokenExpiresAt w;
        ticks := S (ticks w); log := log w |}).

Definition setToken (token : string) (expiresAt : Z) : M unit :=
  fun _ w =>
    (Returns tt,
     {| accessToken := Some token; tokenExpiresAt := Some expiresAt;
        ticks := ticks w; log := log w |}).

Definition record (c : NetCall) (w : World) : World :=
  {| accessToken := accessToken w; tokenExpiresAt := tokenExpiresAt w;
     ticks := ticks w; log := log w ++ [c] |}.

(** [await fetch(identityUrl, ...)]. *)
Definition fetchToken (f : Fetch) : M (Reply TokenResponse) :=
  fun env w =>
    (Returns (identity (server env) (log w) f), record (TokenExchange f) w).

(** [await fetch(url, options)] inside [request<T>]. *)
Definition fetchApi {T} (chan : Server -> Channel T) (f : Fetch) : M (Reply T) :=
  fun env w =>
    (Returns (chan (server env) (log w) f), record (ApiCall f) w).

(** ** The client *)

Definition scope : string :=
  "OR.Execution OR.Queues OR.Folders OR.Jobs OR.Assets OR.Robots OR.Machines OR.Monitoring OR.Settings OR.Audit OR.License".

(** [5 * 60 * 1000], the refresh buffer in milliseconds. *)
Definition buffer : Z := 5 * 60 * 1000.

(** [folderId ?? this.defaultFolderId]. *)
Definition effectiveFolder (env : Env) (folderId : option Z) : option Z :=
  match folderId with
  | Some id => Some id
  | None => defaultFolderId env
  end.

Definition getFolderId (folderId : option Z) : M (option Z) :=
  asks (fun env => effectiveFolder env folderId).

Definition escapeODataString (v : string) : string := JS.replace_quotes v.

(** *** The two URLs *)

Module More.

(** [s.endsWith(suffix)]. *)
Fixpoint endsWith (s suffix : string) : bool :=
  if String.eqb s suffix then true
  else match s with
       | EmptyString => false
       | String _ rest => endsWith rest suffix
       end.

(** [s.replace(/\/$/, "")]: one slash at the very end is removed. *)
Fixpoint stripTrailingSlash (s : string) : string :=
  match s with
  | EmptyString => EmptyString
  | String c rest =>
      match rest with
      | EmptyString => if Ascii.eqb c "/" then EmptyString else s
      | String _ _ => String c (stripTrailingSlash rest)
      end
  end.

(** [s.split("/")]. *)
Fixpoint split (s : string) : list string :=
  match s with
  | EmptyString => [EmptyString]
  | String c rest =>
      if Ascii.eqb c "/" then EmptyString :: split rest
      else match split rest with
           | first :: others => String c first :: others
           | [] => [String c EmptyString]
           end
  end.

End More.

(** [buildOrchestratorUrl] as a function of the two configuration values
    it reads; [toLowerCase] is the runtime's [String.prototype.toLowerCase]. *)
Definition buildOrchestratorUrl (toLowerCase : string -> string)
    (baseUrl tenantName : string) : string :=
  let base := baseUrl in
  let tenant := tenantName in
  if negb (JS.includes base "orchestrator_") then
    let base := More.stripTrailingSlash base in
    if More.endsWith (toLowerCase base) ("/" ++ toLowerCase tenant)
    then base ++ "/orchestrator_"
    else base ++ "/" ++ tenant ++ "/orchestrator_"
  else base.

(** [getIdentityUrl], lines 83-86, from the parsed base URL. *)
Definition getIdentityUrl (url : URL.t) : string :=
  let pathParts := filter JS.truthy (More.split (URL.pathname url)) in
  let orgPath :=
    match pathParts with
    | first :: _ => "/" ++ first
    | [] => ""
    end in
  URL.protocol url ++ "//" ++ URL.host url ++ orgPath
  ++ "/identity_/connect/token".

(** *** The token *)

(** [this.accessToken && this.tokenExpiresAt]: the token is a non-empty
    string and an expiry date is stored. *)
Definition cachedToken (w : World) : option (string * Z) :=
  match accessToken w, tokenExpiresAt w with
  | Some token, Some expiresAt =>
      if JS.truthy token then Some (token, expiresAt) else None
  | _, _ => None
  end.

(** The arguments of [fetch(identityUrl, ...)], lines 99-118. *)
Definition tokenRequest (env : Env) (identityUrl : string) : Fetch :=
  {| f_method := "POST";
     f_base := identityUrl;
     f_endpoint := "";
     f_query := None;
     f_headers := [("Content-Type", "application/x-www-form-urlencoded")];
     f_body := Some (FormBody
       [("grant_type", "client_credentials");
        ("client_id", clientId env);
        ("client_secret", clientSecret env);
        ("scope", scope)]) |}.

(** [new URL(this.config.baseUrl)], line 82; nothing has been sent when it
    throws. *)
Definition parseBaseUrl : M URL.t :=
  fun env w => (new_URL env (config_baseUrl env), w).

(** Lines 98-134 of [ensureToken]: the client-credentials exchange. The
    identity URL is computed first, by [this.getIdentityUrl()]. *)
Definition exchangeToken : M string :=
  url <- parseBaseUrl ;;
  let identityUrl := getIdentityUrl url in
  f <- asks (fun env => tokenRequest env identityUrl) ;;
  response <- fetchToken f ;;
  match response with
  | HttpError _ error => throw ("Failed to obtain access token: " ++ error)
  | Rejected message => throw message
  | Json data =>
      now <- Date_now ;;
      setToken (access_token data) (now + expires_in data * 1000) ;;;
      ret (access_token data)
  end.

Definition ensureToken : M string :=
  cached <- gets cachedToken ;;
  match cached with
  | Some (token, expiresAt) =>
      now <- Date_now ;;
      if (now <? expiresAt - buffer)%Z then ret token else exchangeToken
  | None => exchangeToken
  end.

Definition getHeaders (token : string) (folderId : option Z) : Params :=
  ([("Authorization", ("Bearer " ++ token)%string);
    ("Content-Type", "application/json")]
   ++ match folderId with
      | Some id => [("X-UIPATH-OrganizationUnitId", JS.String_of_number id)]
      | None => []
      end)%list.

Definition request {T} (chan : Server -> Channel T)
    (method endpoint : string) (params : option Params)
    (body : option string) (folderId : option Z) : M T :=
  token <- ensureToken ;;
  let headers := getHeaders token folderId in
  base <- asks baseUrl ;;
  response <- fetchApi chan
    {| f_method := method; f_base := base; f_endpoint := endpoint;
       f_query := params; f_headers := headers;
       f_body := option_map JsonBody body |} ;;
  match response with
  | HttpError status error =>
      throw ("API request failed (" ++ JS.String_of_number status ++ "): "
             ++ error)
  | Rejected message => throw message
  | Json data => ret data
  end.

(** The result of a listing operation: [{ items | jobs | robots | logs,
    count }]. *)
Record Paged (T : Type) := {
  items : list T;
  count : option Z
}.
Arguments items {T} _.
Arguments count {T} _.

(** *** Queue operations *)

Definition getQueueDefinitions (folderId : option Z)
  : M (list QueueDefinition.t) :=
  effectiveFolderId <- getFolderId folderId ;;
  data <- request queueDefinitions "GET" "/odata/QueueDefinitions"
            None None effectiveFolderId ;;
  ret (value data).

Definition getQueueDefinitionByName (name : string) (folderId : option Z)
  : M (option QueueDefinition.t) :=
  effectiveFolderId <- getFolderId folderId ;;
  data <- request queueDefinitions "GET" "/odata/QueueDefinitions"
            (Some [("$filter",
                    "Name eq '" ++ JS.encodeURIComponent name ++ "'")])
            None effectiveFolderId ;;
  ret (hd_error (value data)).

Module QueueItemsOptions.
Record t := {
  queueId : option Z;
  status : option QueueItemStatus.t;
  folderId : option Z;
  top : option Z;
  skip : option Z;
  orderBy : option string
}.
End QueueItemsOptions.

(** The [$filter] entry of a parameter object: absent when no predicate
    was pushed, the predicates joined by [" and "] otherwise. *)
Definition filterParam (filters : list string) : Params :=
  match filters with
  | [] => []
  | _ => [("$filter", JS.join " and " filters)]
  end.

(** The closure [buildParams] of [getQueueItems]. *)
Definition getQueueItems_buildParams (options : QueueItemsOptions.t)
    (includeCount : bool) (orderBy : option string) : Params :=
  ([("$top", JS.String_of_number
               (JS.num_or (QueueItemsOptions.top options) 100));
    ("$skip", JS.String_of_number
                (JS.num_or (QueueItemsOptions.skip options) 0))]
   ++ match JS.given orderBy with
      | Some o => [("$orderby", o)]
      | None => []
      end
   ++ (if includeCount then [("$count", "true")] else [])
   ++ filterParam
        (match QueueItemsOptions.queueId options with
         | Some q => ["QueueDefinitionId eq " ++ JS.String_of_number q]%string
         | None => []
         end
         ++ match QueueItemsOptions.status options with
            | Some s => ["Status eq '" ++ QueueItemStatus.text s ++ "'"]%string
            | None => []
            end))%list.

Definition getQueueItems (options : QueueItemsOptions.t)
  : M (Paged QueueItem.t) :=
  effectiveFolderId <- getFolderId (QueueItemsOptions.folderId options) ;;
  let buildParams := getQueueItems_buildParams options in
  data <- tryCatch
    (request queueItems "GET" "/odata/QueueItems"
       (Some (buildParams true
          (Some (JS.str_or (QueueItemsOptions.orderBy options)
                   "CreationTime desc"))))
       None effectiveFolderId)
    (fun message =>
       if JS.includes message "Invalid OData query options"
       then request queueItems "GET" "/odata/QueueItems"
              (Some (buildParams false None)) None effectiveFolderId
       else throw message) ;;
  ret {| items := value data; count := odata_count data |}.

Module QueueStats.
Record t := {
  queueId : Z;
  queueName : string;
  totalItems : Z;
  newItems : Z;
  inProgressItems : Z;
  successfulItems : Z;
  failedItems : Z;
  abandonedItems : Z;
  successRate : option Q
}.

(** Assignments to one field of the [stats] object. *)
Definition set_totalItems (v : Z) (s : t) : t :=
  {| queueId := queueId s; queueName := queueName s; totalItems := v;
     newItems := newItems s; inProgressItems := inProgressItems s;
     successfulItems := successfulItems s; failedItems := failedItems s;
     abandonedItems := abandonedItems s; successRate := successRate s |}.
Definition set_newItems (v : Z) (s : t) : t :=
  {| queueId := queueId s; queueName := queueName s;
     totalItems := totalItems s;
     newItems := v; inProgressItems := inProgressItems s;
     successfulItems := successfulItems s; failedItems := failedItems s;
     abandonedItems := abandonedItems s; successRate := successRate s |}.
Definition set_inProgressItems (v : Z) (s : t) : t :=
  {| queueId := queueId s; queueName := queueName s;
     totalItems := totalItems s;
     newItems := newItems s; inProgressItems := v;
     successfulItems := successfulItems s; failedItems := failedItems s;
     abandonedItems := abandonedItems s; successRate := successRate s |}.
Definition set_successfulItems (v : Z) (s : t) : t :=
  {| queueId := queueId s; queueName := queueName s;
     totalItems := totalItems s;
     newItems := newItems s; inProgressItems := inProgressItems s;
     successfulItems := v; failedItems := failedItems s;
     abandonedItems := abandonedItems s; successRate := successRate s |}.
Definition set_failedItems (v : Z) (s : t) : t :=
  {| queueId := queueId s; queueName := queueName s;
     totalItems := totalItems s;
     newItems := newItems s; inProgressItems := inProgressItems s;
     successfulItems := successfulItems s; failedItems := v;
     abandonedItems := abandonedItems s; successRate := successRate s |}.
Definition set_abandonedItems (v : Z) (s : t) : t :=
  {| queueId := queueId s; queueName := queueName s;
     totalItems := totalItems s;
     newItems := newItems s; inProgressItems := inProgressItems s;
     successfulItems := successfulItems s; failedItems := failedItems s;
     abandonedItems := v; successRate := successRate s |}.
Definition set_successRate (v : option Q) (s : t) : t :=
  {| queueId := queueId s; queueName := queueName s;
     totalItems := totalItems s;
     newItems := newItems s; inProgressItems := inProgressItems s;
     successfulItems := successfulItems s; failedItems := failedItems s;
     abandonedItems := abandonedItems s; successRate := v |}.
End QueueStats.

(** [(successful / completed) * 100]. *)
Definition percentage (successful completed : Z) : Q :=
  (inject_Z successful / inject_Z completed * 100)%Q.

(** The body of the loop of [getQueueStats] after the awaited query:
    [stats.totalItems += itemCount] and the [switch] on the status. *)
Definition getQueueStats_tally (status : QueueItemStatus.t) (itemCount : Z)
    (stats : QueueStats.t) : QueueStats.t :=
  let stats :=
    QueueStats.set_totalItems (QueueStats.totalItems stats + itemCount)
      stats in
  match status with
  | QueueItemStatus.New => QueueStats.set_newItems itemCount stats
  | QueueItemStatus.InProgress =>
      QueueStats.set_inProgressItems itemCount stats
  | QueueItemStatus.Successful =>
      QueueStats.set_successfulItems itemCount stats
  | QueueItemStatus.Failed => QueueStats.set_failedItems itemCount stats
  | QueueItemStatus.Abandoned =>
      QueueStats.set_abandonedItems itemCount stats
  | _ => stats
  end.

(** The options of the count query for one status. *)
Definition getQueueStats_query (queueId : Z) (effectiveFolderId : option Z)
    (status : QueueItemStatus.t) : QueueItemsOptions.t :=
  {| QueueItemsOptions.queueId := Some queueId;
     QueueItemsOptions.status := Some status;
     QueueItemsOptions.folderId := effectiveFolderId;
     QueueItemsOptions.top := Some 1;
     QueueItemsOptions.skip := None;
     QueueItemsOptions.orderBy := None |}.

(** [for (const status of statuses) { ... }] *)
Fixpoint getQueueStats_loop (queueId : Z) (effectiveFolderId : option Z)
    (statuses : list QueueItemStatus.t) (stats : QueueStats.t)
  : M QueueStats.t :=
  match statuses with
  | [] => ret stats
  | status :: rest =>
      page <- getQueueItems
                (getQueueStats_query queueId effectiveFolderId status) ;;
      let itemCount := JS.num_or (count page) 0 in
      getQueueStats_loop queueId effectiveFolderId rest
        (getQueueStats_tally status itemCount stats)
  end.

Definition getQueueStats_statuses : list QueueItemStatus.t :=
  [QueueItemStatus.New; QueueItemStatus.InProgress;
   QueueItemStatus.Successful; QueueItemStatus.Failed;
   QueueItemStatus.Abandoned].

(** Lines 396-399: the success rate is set only for a positive
    denominator. *)
Definition getQueueStats_rate (stats : QueueStats.t) : QueueStats.t :=
  let completed :=
    QueueStats.successfulItems stats + QueueStats.failedItems stats in
  if (completed >? 0)%Z
  then QueueStats.set_successRate
         (Some (percentage (QueueStats.successfulItems stats) completed))
         stats
  else stats.

Definition getQueueStats (queueId : Z) (queueName : string)
    (folderId : option Z) : M QueueStats.t :=
  effectiveFolderId <- getFolderId folderId ;;
  let stats :=
    {| QueueStats.queueId := queueId;
       QueueStats.queueName := queueName;
       QueueStats.totalItems := 0;
       QueueStats.newItems := 0;
       QueueStats.inProgressItems := 0;
       QueueStats.successfulItems := 0;
       QueueStats.failedItems := 0;
       QueueStats.abandonedItems := 0;
       QueueStats.successRate := None |} in
  stats <- getQueueStats_loop queueId effectiveFolderId
             getQueueStats_statuses stats ;;
  ret (getQueueStats_rate stats).

(** *** Robots, robot logs, audit logs *)

Module RobotsOptions.
Record t := {
  folderId : option Z;
  top : option Z;
  skip : option Z;
  orderBy : option string
}.
End RobotsOptions.

Definition getRobots (options : RobotsOptions.t) : M (Paged Robot.t) :=
  effectiveFolderId <- getFolderId (RobotsOptions.folderId options) ;;
  let params :=
    [("$top", JS.String_of_number (JS.num_or (RobotsOptions.top options) 100));
     ("$skip", JS.String_of_number (JS.num_or (RobotsOptions.skip options) 0));
     ("$orderby", JS.str_or (RobotsOptions.orderBy options) "Name asc");
     ("$count", "true")] in
  (* [effectiveFolderId ? ... : ...]: [undefined] and [0] are falsy *)
  let endpoint :=
    match effectiveFolderId with
    | Some id =>
        if (id =? 0)%Z then "/odata/Robots"
        else "/odata/Robots/UiPath.Server.Configuration.OData.GetRobotsFromFolder(folderId="
             ++ JS.String_of_number id ++ ")"
    | None => "/odata/Robots"
    end in
  data <- request robots "GET" endpoint (Some params) None None ;;
  ret {| items := value data; count := odata_count data |}.

Module RobotLogsOptions.
Record t := {
  folderId : option Z;
  jobKey : option string;
  startTime : option string;
  endTime : option string;
  level : option string;
  top : option Z;
  skip : option Z;
  orderBy : option string
}.
End RobotLogsOptions.

(** [if (x) filters.push(f(x))] for an optional string [x]. *)
Definition pushIf (x : option string) (f : string -> string) : list string :=
  match JS.given x with
  | Some s => [f s]
  | None => []
  end.

Definition getRobotLogs (options : RobotLogsOptions.t)
  : M (Paged RobotLog.t) :=
  effectiveFolderId <- getFolderId (RobotLogsOptions.folderId options) ;;
  let filters :=
    (pushIf (RobotLogsOptions.jobKey options)
       (fun v => "JobKey eq '" ++ JS.encodeURIComponent v ++ "'")%string
     ++ pushIf (RobotLogsOptions.level options)
          (fun v => "Level eq '" ++ JS.encodeURIComponent v ++ "'")%string
     ++ pushIf (RobotLogsOptions.startTime options)
          (fun v => "TimeStamp ge " ++ v)%string
     ++ pushIf (RobotLogsOptions.endTime options)
          (fun v => "TimeStamp le " ++ v)%string)%list in
  let params :=
    ([("$top", JS.String_of_number
                 (JS.num_or (RobotLogsOptions.top options) 100));
      ("$skip", JS.String_of_number
                  (JS.num_or (RobotLogsOptions.skip options) 0));
      ("$orderby", JS.str_or (RobotLogsOptions.orderBy options)
                     "TimeStamp desc");
      ("$count", "true")]
     ++ filterParam filters)%list in
  data <- request robotLogs "GET" "/odata/RobotLogs" (Some params) None
            effectiveFolderId ;;
  ret {| items := value data; count := odata_count data |}.

Module AuditLogsOptions.
Record t := {
  action : option string;
  userName : option string;
  component : option string;
  startTime : option string;
  endTime : option string;
  top : option Z;
  skip : option Z
}.
End AuditLogsOptions.

(** [delete params[k]]. *)
Fixpoint delete (k : string) (ps : Params) : Params :=
  match ps with
  | [] => []
  | (k', v) :: rest =>
      if String.eqb k k' then delete k rest else (k', v) :: delete k rest
  end.

Definition getAuditLogs (options : AuditLogsOptions.t)
  : M (Paged AuditLog.t) :=
  let filters :=
    (pushIf (AuditLogsOptions.action options)
       (fun v => "Action eq '" ++ escapeODataString v ++ "'")%string
     ++ pushIf (AuditLogsOptions.userName options)
          (fun v => "UserName eq '" ++ escapeODataString v ++ "'")%string
     ++ pushIf (AuditLogsOptions.component options)
          (fun v => "Component eq '" ++ escapeODataString v ++ "'")%string
     ++ pushIf (AuditLogsOptions.startTime options)
          (fun v => "ExecutionTime ge " ++ v)%string
     ++ pushIf (AuditLogsOptions.endTime options)
          (fun v => "ExecutionTime le " ++ v)%string)%list in
  let params :=
    ([("$top", JS.String_of_number
                 (JS.num_or (AuditLogsOptions.top options) 100));
      ("$skip", JS.String_of_number
                  (JS.num_or (AuditLogsOptions.skip options) 0));
      ("$orderby", "ExecutionTime desc")]
     ++ filterParam filters)%list in
  (* [params.$count = "true"] is the first statement of the [try] block *)
  let params := (params ++ [("$count", "true")])%list in
  tryCatch
    (data <- request auditLogs "GET" "/odata/AuditLogs" (Some params)
               None None ;;
     ret {| items := value data; count := odata_count data |})
    (fun message =>
       if JS.includes message "Invalid OData"
       then
         let params := delete "$orderby" (delete "$count" params) in
         data <- request auditLogs "GET" "/odata/AuditLogs" (Some params)
                   None None ;;
         ret {| items := value data;
                count := Some (Z.of_nat (length (value data))) |}
       else throw message).

(** *** Job operations *)

Module JobsOptions.
Record t := {
  state : option JobState.t;
  releaseName : option string;
  folderId : option Z;
  top : option Z;
  skip : option Z;
  orderBy : option string
}.
End JobsOptions.

(** The closure [buildParams] of [getJobs]. *)
Definition getJobs_buildParams (options : JobsOptions.t)
    (includeCount : bool) (orderBy : option string) : Params :=
  ([("$top", JS.String_of_number (JS.num_or (JobsOptions.top options) 100));
    ("$skip", JS.String_of_number (JS.num_or (JobsOptions.skip options) 0))]
   ++ match JS.given orderBy with
      | Some o => [("$orderby", o)]
      | None => []
      end
   ++ (if includeCount then [("$count", "true")] else [])
   ++ filterParam
        (match JobsOptions.state options with
         | Some s => ["State eq '" ++ JobState.text s ++ "'"]%string
         | None => []
         end
         ++ pushIf (JobsOptions.releaseName options)
              (fun v => "ReleaseName eq '" ++ JS.encodeURIComponent v ++ "'")%string))%list.

Definition getJobs (options : JobsOptions.t) : M (Paged Job.t) :=
  effectiveFolderId <- getFolderId (JobsOptions.folderId options) ;;
  let buildParams := getJobs_buildParams options in
  data <- tryCatch
    (request jobs "GET" "/odata/Jobs"
       (Some (buildParams true
          (Some (JS.str_or (JobsOptions.orderBy options)
                   "CreationTime desc"))))
       None effectiveFolderId)
    (fun message =>
       if JS.includes message "Invalid OData query options"
       then request jobs "GET" "/odata/Jobs"
              (Some (buildParams false None)) None effectiveFolderId
       else throw message) ;;
  ret {| items := value data; count := odata_count data |}.

Module JobStats.
Record t := {
  totalJobs : Z;
  pendingJobs : Z;
  runningJobs : Z;
  successfulJobs : Z;
  faultedJobs : Z;
  stoppedJobs : Z;
  successRate : option Q
}.

(** Assignments to one field of the [stats] object. *)
Definition set_totalJobs (v : Z) (s : t) : t :=
  {| totalJobs := v; pendingJobs := pendingJobs s;
     runningJobs := runningJobs s; successfulJobs := successfulJobs s;
     faultedJobs := faultedJobs s; stoppedJobs := stoppedJobs s;
     successRate := successRate s |}.
Definition set_pendingJobs (v : Z) (s : t) : t :=
  {| totalJobs := totalJobs s; pendingJobs := v;
     runningJobs := runningJobs s; successfulJobs := successfulJobs s;
     faultedJobs := faultedJobs s; stoppedJobs := stoppedJobs s;
     successRate := successRate s |}.
Definition set_runningJobs (v : Z) (s : t) : t :=
  {| totalJobs := totalJobs s; pendingJobs := pendingJobs s;
     runningJobs := v; successfulJobs := successfulJobs s;
     faultedJobs := faultedJobs s; stoppedJobs := stoppedJobs s;
     successRate := successRate s |}.
Definition set_successfulJobs (v : Z) (s : t) : t :=
  {| totalJobs := totalJobs s; pendingJobs := pendingJobs s;
     runningJobs := runningJobs s; successfulJobs := v;
     faultedJobs := faultedJobs s; stoppedJobs := stoppedJobs s;
     successRate := successRate s |}.
Definition set_faultedJobs (v : Z) (s : t) : t :=
  {| totalJobs := totalJobs s; pendingJobs := pendingJobs s;
     runningJobs := runningJobs s; successfulJobs := successfulJobs s;
     faultedJobs := v; stoppedJobs := stoppedJobs s;
     successRate := successRate s |}.
Definition set_stoppedJobs (v : Z) (s : t) : t :=
  {| totalJobs := totalJobs s; pendingJobs := pendingJobs s;
     runningJobs := runningJobs s; successfulJobs := successfulJobs s;
     faultedJobs := faultedJobs s; stoppedJobs := v;
     successRate := successRate s |}.
Definition set_successRate (v : option Q) (s : t) : t :=
  {| totalJobs := totalJobs s; pendingJobs := pendingJobs s;
     runningJobs := runningJobs s; successfulJobs := successfulJobs s;
     faultedJobs := faultedJobs s; stoppedJobs := stoppedJobs s;
     successRate := v |}.
End JobStats.

(** Lines 980-999: [stats.totalJobs += count] and the [switch] of the
    per-state loop. *)
Definition getJobStats_add (state : JobState.t) (count : Z)
    (stats : JobStats.t) : JobStats.t :=
  let stats :=
    JobStats.set_totalJobs (JobStats.totalJobs stats + count) stats in
  match state with
  | JobState.Pending => JobStats.set_pendingJobs count stats
  | JobState.Running => JobStats.set_runningJobs count stats
  | JobState.Successful => JobStats.set_successfulJobs count stats
  | JobState.Faulted => JobStats.set_faultedJobs count stats
  | JobState.Stopped | JobState.Terminated =>
      JobStats.set_stoppedJobs (JobStats.stoppedJobs stats + count) stats
  | _ => stats
  end.

Definition getJobStats_query (effectiveFolderId : option Z)
    (state : JobState.t) : JobsOptions.t :=
  {| JobsOptions.state := Some state;
     JobsOptions.releaseName := None;
     JobsOptions.folderId := effectiveFolderId;
     JobsOptions.top := Some 1;
     JobsOptions.skip := None;
     JobsOptions.orderBy := None |}.

(** Lines 972-1003, the [try] block with its loop. The result is the
    [stats] object as the block leaves it, and [useFallback]. Inside the
    block only the awaited [getJobs] can throw; when it does the [catch]
    sets [useFallback], and [stats] keeps what the earlier rounds wrote. *)
Fixpoint getJobStats_loop (effectiveFolderId : option Z)
    (states : list JobState.t) (stats : JobStats.t)
  : M (JobStats.t * bool) :=
  match states with
  | [] => ret (stats, false)
  | state :: rest =>
      page <- tryCatch
                (page <- getJobs
                           (getJobStats_query effectiveFolderId state) ;;
                 ret (Some page))
                (fun _ => ret None) ;;
      match page with
      | None => ret (stats, true)                   (* catch *)
      | Some page =>
          match count page with
          | None => ret (stats, true)               (* break *)
          | Some count =>
              getJobStats_loop effectiveFolderId rest
                (getJobStats_add state count stats)
          end
      end
  end.

Definition getJobStats_states : list JobState.t :=
  [JobState.Pending; JobState.Running; JobState.Successful;
   JobState.Faulted; JobState.Stopped; JobState.Terminated].

(** Lines 1018-1035: the [switch] of the fallback's loop over the fetched
    job records. *)
Definition getJobStats_count (stats : JobStats.t) (job : Job.t)
  : JobStats.t :=
  match Job.State job with
  | JobState.Pending =>
      JobStats.set_pendingJobs (JobStats.pendingJobs stats + 1) stats
  | JobState.Running =>
      JobStats.set_runningJobs (JobStats.runningJobs stats + 1) stats
  | JobState.Successful =>
      JobStats.set_successfulJobs (JobStats.successfulJobs stats + 1) stats
  | JobState.Faulted =>
      JobStats.set_faultedJobs (JobStats.faultedJobs stats + 1) stats
  | JobState.Stopped | JobState.Terminated =>
      JobStats.set_stoppedJobs (JobStats.stoppedJobs stats + 1) stats
  | _ => stats
  end.

(** The options of the fallback's single listing call. *)
Definition getJobStats_rawQuery (effectiveFolderId : option Z)
  : JobsOptions.t :=
  {| JobsOptions.state := None;
     JobsOptions.releaseName := None;
     JobsOptions.folderId := effectiveFolderId;
     JobsOptions.top := Some 1000;
     JobsOptions.skip := None;
     JobsOptions.orderBy := None |}.

(** Lines 1005-1037. *)
Definition getJobStats_fallback (effectiveFolderId : option Z)
    (stats : JobStats.t) : M JobStats.t :=
  let stats := JobStats.set_totalJobs 0 stats in
  let stats := JobStats.set_pendingJobs 0 stats in
  let stats := JobStats.set_runningJobs 0 stats in
  let stats := JobStats.set_successfulJobs 0 stats in
  let stats := JobStats.set_faultedJobs 0 stats in
  let stats := JobStats.set_stoppedJobs 0 stats in
  page <- getJobs (getJobStats_rawQuery effectiveFolderId) ;;
  let jobs := items page in
  let stats := JobStats.set_totalJobs (Z.of_nat (length jobs)) stats in
  ret (fold_left getJobStats_count jobs stats).

(** Lines 1039-1042. *)
Definition getJobStats_rate (stats : JobStats.t) : JobStats.t :=
  let completed :=
    JobStats.successfulJobs stats + JobStats.faultedJobs stats in
  if (completed >? 0)%Z
  then JobStats.set_successRate
         (Some (percentage (JobStats.successfulJobs stats) completed)) stats
  else stats.

Definition getJobStats (folderId : option Z) : M JobStats.t :=
  effectiveFolderId <- getFolderId folderId ;;
  let stats :=
    {| JobStats.totalJobs := 0; JobStats.pendingJobs := 0;
       JobStats.runningJobs := 0; JobStats.successfulJobs := 0;
       JobStats.faultedJobs := 0; JobStats.stoppedJobs := 0;
       JobStats.successRate := None |} in
  r <- getJobStats_loop effectiveFolderId getJobStats_states stats ;;
  let '(stats, useFallback) := r in
  stats <- (if useFallback : bool
            then getJobStats_fallback effectiveFolderId stats
            else ret stats) ;;
  ret (getJobStats_rate stats).

(** *** Release operations *)

Definition getReleases (processKey : option string) (folderId : option Z)
  : M (list Release.t) :=
  effectiveFolderId <- getFolderId folderId ;;
  let params :=
    match JS.given processKey with
    | Some k =>
        [("$filter", "ProcessKey eq '" ++ JS.encodeURIComponent k ++ "'")]
    | None => []
    end in
  data <- request releases "GET" "/odata/Releases" (Some params) None
            effectiveFolderId ;;
  ret (value data).

Definition findReleaseByNameOrKey (nameOrKey : string)
    (folderId : option Z) : M (option Release.t) :=
  effectiveFolderId <- getFolderId folderId ;;
  releasesByKey <- getReleases (Some nameOrKey) effectiveFolderId ;;
  match releasesByKey with
  | first :: _ => ret (Some first)
  | [] =>
      let params :=
        [("$filter", "Name eq '" ++ escapeODataString nameOrKey ++ "'")] in
      data <- request releases "GET" "/odata/Releases" (Some params) None
                effectiveFolderId ;;
      ret (hd_error (value data))
  end.

(** *** Durations *)

(** [computeDuration], with the runtime's date parser passed in. *)
Definition computeDuration (parse : string -> option Z)
    (startTime endTime : option string) : option Z :=
  match JS.given startTime, JS.given endTime with
  | Some startTime, Some endTime =>
      match parse startTime, parse endTime with
      | Some start, Some end_ =>
          Some (JS.Math_round (inject_Z (end_ - start) / 1000)%Q)
      | _, _ => None
      end
  | _, _ => None
  end.

(** *** Dashboard *)

Module QueueItemsByStatus.
(** The object [{ New, InProgress, Successful, Failed }]. *)
Record t := { New : Z; InProgress : Z; Successful : Z; Failed : Z }.
End QueueItemsByStatus.

Module JobsByState.
Record t := {
  Pending : Z; Running : Z; Successful : Z; Faulted : Z; Stopped : Z
}.
End JobsByState.

Module DashboardSummary.
Record t := {
  totalQueues : Z;
  totalQueueItems : Z;
  queueItemsByStatus : QueueItemsByStatus.t;
  totalJobs : Z;
  jobsByState : JobsByState.t;
  activeJobs : Z;
  successRateJobs : option Q;
  successRateQueues : option Q
}.
End DashboardSummary.

(** Lines 1131-1135: one queue's statistics added to the running totals. *)
Definition getDashboardSummary_add (stats : QueueStats.t)
    (acc : Z * QueueItemsByStatus.t) : Z * QueueItemsByStatus.t :=
  let '(totalQueueItems, queueItemsByStatus) := acc in
  (totalQueueItems + QueueStats.totalItems stats,
   {| QueueItemsByStatus.New :=
        QueueItemsByStatus.New queueItemsByStatus + QueueStats.newItems stats;
      QueueItemsByStatus.InProgress :=
        QueueItemsByStatus.InProgress queueItemsByStatus
        + QueueStats.inProgressItems stats;
      QueueItemsByStatus.Successful :=
        QueueItemsByStatus.Successful queueItemsByStatus
        + QueueStats.successfulItems stats;
      QueueItemsByStatus.Failed :=
        QueueItemsByStatus.Failed queueItemsByStatus
        + QueueStats.failedItems stats |}).

(** [for (const queue of ...) { ... }], lines 1129-1136. *)
Fixpoint getDashboardSummary_loop (effectiveFolderId : option Z)
    (queues : list QueueDefinition.t) (acc : Z * QueueItemsByStatus.t)
  : M (Z * QueueItemsByStatus.t) :=
  match queues with
  | [] => ret acc
  | queue :: rest =>
      stats <- getQueueStats (QueueDefinition.Id queue)
                 (QueueDefinition.Name queue) effectiveFolderId ;;
      getDashboardSummary_loop effectiveFolderId rest
        (getDashboardSummary_add stats acc)
  end.

Definition getDashboardSummary (folderId : option Z)
  : M DashboardSummary.t :=
  effectiveFolderId <- getFolderId folderId ;;
  queues <- getQueueDefinitions effectiveFolderId ;;
  jobStats <- getJobStats effectiveFolderId ;;
  let totalQueueItems := 0 in
  let queueItemsByStatus :=
    {| QueueItemsByStatus.New := 0; QueueItemsByStatus.InProgress := 0;
       QueueItemsByStatus.Successful := 0;
       QueueItemsByStatus.Failed := 0 |} in
  (* queues.slice(0, 5) *)
  r <- getDashboardSummary_loop effectiveFolderId (firstn 5 queues)
         (totalQueueItems, queueItemsByStatus) ;;
  let '(totalQueueItems, queueItemsByStatus) := r in
  let completedItems :=
    QueueItemsByStatus.Successful queueItemsByStatus
    + QueueItemsByStatus.Failed queueItemsByStatus in
  let successRateQueues :=
    if (completedItems >? 0)%Z
    then Some (percentage (QueueItemsByStatus.Successful queueItemsByStatus)
                 completedItems)
    else None in
  ret {| DashboardSummary.totalQueues := Z.of_nat (length queues);
         DashboardSummary.totalQueueItems := totalQueueItems;
         DashboardSummary.queueItemsByStatus := queueItemsByStatus;
         DashboardSummary.totalJobs := JobStats.totalJobs jobStats;
         DashboardSummary.jobsByState :=
           {| JobsByState.Pending := JobStats.pendingJobs jobStats;
              JobsByState.Running := JobStats.runningJobs jobStats;
              JobsByState.Successful := JobStats.successfulJobs jobStats;
              JobsByState.Faulted := JobStats.faultedJobs jobStats;
              JobsByState.Stopped := JobStats.stoppedJobs jobStats |};
         DashboardSummary.activeJobs :=
           JobStats.pendingJobs jobStats + JobStats.runningJobs jobStats;
         DashboardSummary.successRateJobs := JobStats.successRate jobStats;
         DashboardSummary.successRateQueues := successRateQueues |}.

(** *** Composite analytics *)

Module FaultedJobsOptions.
Record t := {
  folderId : option Z;
  top : option Z;
  releaseName : option string;
  startTime : option string;
  endTime : option string
}.
End FaultedJobsOptions.

Module FaultedJobSummary.
Record t := {
  Id : Z;
  Key : string;
  ReleaseName : string;
  State : JobState.t;
  Info : option string;
  JobError : option string;
  CreationTime : string;
  StartTime : option string;
  EndTime : option string;
  HostMachineName : option string;
  durationSeconds : option Z
}.
End FaultedJobSummary.

Definition getFaultedJobs (options : FaultedJobsOptions.t)
  : M (list FaultedJobSummary.t) :=
  effectiveFolderId <- getFolderId (FaultedJobsOptions.folderId options) ;;
  let filters :=
    (["State eq 'Faulted'"]
     ++ pushIf (FaultedJobsOptions.releaseName options)
          (fun v => "ReleaseName eq '" ++ escapeODataString v ++ "'")%string
     ++ pushIf (FaultedJobsOptions.startTime options)
          (fun v => "CreationTime ge " ++ v)%string
     ++ pushIf (FaultedJobsOptions.endTime options)
          (fun v => "CreationTime le " ++ v)%string)%list in
  let params :=
    [("$top", JS.String_of_number
                (JS.num_or (FaultedJobsOptions.top options) 50));
     ("$orderby", "CreationTime desc");
     ("$filter", JS.join " and " filters)] in
  jobs <- tryCatch
    (data <- request jobs "GET" "/odata/Jobs" (Some params) None
               effectiveFolderId ;;
     ret (value data))
    (fun message =>
       if JS.includes message "Invalid OData"
       then
         data <- request jobs "GET" "/odata/Jobs"
                   (Some (delete "$orderby" params)) None
                   effectiveFolderId ;;
         ret (value data)
       else throw message) ;;
  parse <- asks Date_parse ;;
  ret (map (fun job =>
         {| FaultedJobSummary.Id := Job.Id job;
            FaultedJobSummary.Key := Job.Key job;
            FaultedJobSummary.ReleaseName := Job.ReleaseName job;
            FaultedJobSummary.State := Job.State job;
            FaultedJobSummary.Info := Job.Info job;
            FaultedJobSummary.JobError := Job.JobError job;
            FaultedJobSummary.CreationTime := Job.CreationTime job;
            FaultedJobSummary.StartTime := Job.StartTime job;
            FaultedJobSummary.EndTime := Job.EndTime job;
            FaultedJobSummary.HostMachineName := Job.HostMachineName job;
            FaultedJobSummary.durationSeconds :=
              computeDuration parse (Job.StartTime job) (Job.EndTime job) |})
         jobs).

Module ProcessPerformance.
Record t := {
  processName : string;
  totalExecutions : Z;
  successful : Z;
  faulted : Z;
  stopped : Z;
  running : Z;
  pending : Z;
  successRate : option Q;
  avgDurationSeconds : option Z;
  minDurationSeconds : option Z;
  maxDurationSeconds : option Z;
  recentJobs : list Job.t
}.
End ProcessPerformance.

Module ProcessPerformanceOptions.
Record t := { folderId : option Z; top : option Z }.
End ProcessPerformanceOptions.

(** [jobs.filter(j => j.State === state)]. *)
Definition inState (state : JobState.t) (jobs : list Job.t) : list Job.t :=
  filter (fun j => JobState.eqb (Job.State j) state) jobs.

(** [.filter((d): d is number => d !== null)]. *)
Fixpoint nonNull (ds : list (option Z)) : list Z :=
  match ds with
  | [] => []
  | Some d :: rest => d :: nonNull rest
  | None :: rest => nonNull rest
  end.

Definition lengthOf {A} (l : list A) : Z := Z.of_nat (length l).

Definition getProcessPerformance (processName : string)
    (options : ProcessPerformanceOptions.t) : M ProcessPerformance.t :=
  effectiveFolderId <-
    getFolderId (ProcessPerformanceOptions.folderId options) ;;
  page <- getJobs
    {| JobsOptions.state := None;
       JobsOptions.releaseName := Some processName;
       JobsOptions.folderId := effectiveFolderId;
       JobsOptions.top :=
         Some (JS.num_or (ProcessPerformanceOptions.top options) 100);
       JobsOptions.skip := None;
       JobsOptions.orderBy := None |} ;;
  let jobs := items page in
  let successful := inState JobState.Successful jobs in
  let faulted := inState JobState.Faulted jobs in
  let stopped :=
    filter (fun j => JobState.eqb (Job.State j) JobState.Stopped
                  || JobState.eqb (Job.State j) JobState.Terminated) jobs in
  let running := inState JobState.Running jobs in
  let pending := inState JobState.Pending jobs in
  parse <- asks Date_parse ;;
  let durations :=
    nonNull (map (fun j => computeDuration parse (Job.StartTime j)
                             (Job.EndTime j)) successful) in
  let completed := lengthOf successful + lengthOf faulted in
  let successRate :=
    if (completed >? 0)%Z
    then Some (percentage (lengthOf successful) completed)
    else None in
  ret {| ProcessPerformance.processName := processName;
         ProcessPerformance.totalExecutions := lengthOf jobs;
         ProcessPerformance.successful := lengthOf successful;
         ProcessPerformance.faulted := lengthOf faulted;
         ProcessPerformance.stopped := lengthOf stopped;
         ProcessPerformance.running := lengthOf running;
         ProcessPerformance.pending := lengthOf pending;
         ProcessPerformance.successRate := successRate;
         ProcessPerformance.avgDurationSeconds :=
           match durations with
           | [] => None
           | _ => Some (JS.Math_round
                          (inject_Z (fold_left Z.add durations 0%Z)
                           / inject_Z (lengthOf durations))%Q)
           end;
         ProcessPerformance.minDurationSeconds :=
           match durations with
           | [] => None
           | d :: ds => Some (fold_left Z.min ds d)
           end;
         ProcessPerformance.maxDurationSeconds :=
           match durations with
           | [] => None
           | d :: ds => Some (fold_left Z.max ds d)
           end;
         ProcessPerformance.recentJobs := firstn 10 jobs |}.

(** ** A concrete runtime and concrete servers

    Used to run the client on examples. *)

Module Demo.

Definition digit (c : ascii) : option Z :=
  let n := Z.of_N (N_of_ascii c) in
  if ((48 <=? n) && (n <=? 57))%Z then Some (n - 48) else None.

(** The decimal value of a string of digits. *)
Fixpoint number (acc : Z) (s : string) : option Z :=
  match s with
  | EmptyString => Some acc
  | String c rest =>
      match digit c with
      | Some d => number (10 * acc + d) rest
      | None => None
      end
  end.

(** Days from 1970-01-01 to the given civil date. *)
Definition daysFromCivil (y m d : Z) : Z :=
  let y := if (m <=? 2)%Z then y - 1 else y in
  let era := y / 400 in
  let yoe := y - era * 400 in
  let mp := (m + 9) mod 12 in
  let doy := (153 * mp + 2) / 5 + d - 1 in
  let doe := yoe * 365 + yoe / 4 - yoe / 100 + doy in
  era * 146097 + doe - 719468.

(** [Date.parse] on timestamps of the exact form [YYYY-MM-DDTHH:MM:SSZ];
    everything else is an invalid date. *)
Definition isoUtc (s : string) : option Z :=
  if negb (Nat.eqb (String.length s) 20) then None
  else if negb (String.eqb (substring 4 1 s) "-"
                && String.eqb (substring 7 1 s) "-"
                && String.eqb (substring 10 1 s) "T"
                && String.eqb (substring 13 1 s) ":"
                && String.eqb (substring 16 1 s) ":"
                && String.eqb (substring 19 1 s) "Z") then None
  else
    match number 0 (substring 0 4 s), number 0 (substring 5 2 s),
          number 0 (substring 8 2 s), number 0 (substring 11 2 s),
          number 0 (substring 14 2 s), number 0 (substring 17 2 s) with
    | Some y, Some mo, Some d, Some h, Some mi, Some sec =>
        if ((1 <=? mo) && (mo <=? 12) && (1 <=? d) && (d <=? 31)
            && (h <=? 23) && (mi <=? 59) && (sec <=? 59))%Z
        then Some ((((daysFromCivil y mo d * 24 + h) * 60 + mi) * 60 + sec)
                   * 1000)
        else None
    | _, _, _, _, _, _ => None
    end.

Definition emptyPage {T} : ODataResponse T :=
  {| odata_count := None; value := [] |}.

(** A channel that always answers with an empty page. *)
Definition quiet {T} : Channel (ODataResponse T) :=
  fun _ _ => Json emptyPage.

Definition issuer : Channel TokenResponse :=
  fun _ _ => Json {| access_token := "token-1"; expires_in := 3600 |}.

Definition quietServer : Server :=
  {| identity := issuer;
     queueDefinitions := quiet; queueItems := quiet; jobs := quiet;
     releases := quiet; robots := quiet; robotLogs := quiet;
     auditLogs := quiet |}.

(** The text up to the first slash, and the rest from that slash on. *)
Fixpoint untilSlash (s : string) : string * string :=
  match s with
  | EmptyString => (EmptyString, EmptyString)
  | String c rest =>
      if Ascii.eqb c "/" then (EmptyString, s)
      else let '(before, after) := untilSlash rest in (String c before, after)
  end.

(** [new URL] on URLs of the form [https://host] or [https://host/path];
    everything else is rejected as a URL that is not absolute. *)
Definition newUrl (s : string) : Outcome URL.t :=
  if String.prefix "https://" s then
    let '(host, path) := untilSlash (substring 8 (String.length s - 8) s) in
    match host with
    | EmptyString => Throws "Invalid URL"
    | String _ _ =>
        Returns {| URL.protocol := "https:"; URL.host := host;
                   URL.pathname :=
                     match path with
                     | EmptyString => "/"
                     | String _ _ => path
                     end |}
    end
  else Throws "Invalid URL".

(** A client configured with the base URL
    [https://cloud.uipath.com/org/tenant] and the tenant name [tenant]. *)
Definition envOf (srv : Server) (folder : option Z) : Env :=
  {| clientId := "client";
     clientSecret := "secret";
     config_baseUrl := "https://cloud.uipath.com/org/tenant";
     baseUrl := "https://cloud.uipath.com/org/tenant/orchestrator_";
     defaultFolderId := folder;
     server := srv;
     clock := fun n => 1700000000000 + 1000 * Z.of_nat n;
     Date_parse := isoUtc;
     new_URL := newUrl |}.

(** A client that has not talked to anyone yet. *)
Definition fresh : World :=
  {| accessToken := None; tokenExpiresAt := None; ticks := 0; log := [] |}.

(** A client holding a token that expires at the given time. *)
Definition holding (token : string) (expiresAt : Z) : World :=
  {| accessToken := Some token; tokenExpiresAt := Some expiresAt;
     ticks := 0; log := [] |}.

(** A channel that refuses every query carrying [$count] with status 400
    and the given text, and answers the others with one page holding
    [records] and no count. *)
Definition refusingCount {T} (text : string) (records : list T)
  : Channel (ODataResponse T) :=
  fun _ f =>
    match f_query f with
    | Some ps =>
        match param "$count" ps with
        | Some _ => HttpError 400 text
        | None => Json {| odata_count := None; value := records |}
        end
    | None => Json {| odata_count := None; value := records |}
    end.

Definition aJob (id : Z) (state : JobState.t) : Job.t :=
  {| Job.Id := id; Job.Key := "key"; Job.State := state;
     Job.Info := None; Job.JobError := None;
     Job.CreationTime := "2024-01-01T09:59:00Z";
     Job.StartTime := Some "2024-01-01T10:00:00Z";
     Job.EndTime := Some "2024-01-01T10:02:00Z";
     Job.ReleaseName := "Invoices"; Job.HostMachineName := None |}.

Definition threeJobs : list Job.t :=
  [aJob 1 JobState.Successful; aJob 2 JobState.Faulted;
   aJob 3 JobState.Terminated].

(** A server whose job listing refuses [$count] with the given text. *)
Definition jobsRefusing (text : string) : Server :=
  {| identity := issuer;
     queueDefinitions := quiet; queueItems := quiet;
     jobs := refusingCount text threeJobs;
     releases := quiet; robots := quiet; robotLogs := quiet;
     auditLogs := quiet |}.

Definition anyJobs : JobsOptions.t :=
  {| JobsOptions.state := None; JobsOptions.releaseName := None;
     JobsOptions.folderId := None; JobsOptions.top := None;
     JobsOptions.skip := None; JobsOptions.orderBy := None |}.

Definition aRelease (id : Z) (key name : string) : Release.t :=
  {| Release.Id := id; Release.Key := key; Release.ProcessKey := key;
     Release.Name := name |}.

Definition twoReleases : list Release.t :=
  [aRelease 1 "Payroll" "Payroll_Prod"; aRelease 2 "Invoices" "Invoices_Prod"].

(** A release listing that honours no filter but the absence of one:
    the whole catalogue for an unfiltered query, nothing for a filtered
    one (no release has the key or name asked for). *)
Definition catalogue : Channel (ODataResponse Release.t) :=
  fun _ f =>
    match f_query f with
    | Some ps =>
        match param "$filter" ps with
        | Some _ => Json emptyPage
        | None => Json {| odata_count := None; value := twoReleases |}
        end
    | None => Json {| odata_count := None; value := twoReleases |}
    end.

Definition releaseServer : Server :=
  {| identity := issuer;
     queueDefinitions := quiet; queueItems := quiet; jobs := quiet;
     releases := catalogue; robots := quiet; robotLogs := quiet;
     auditLogs := quiet |}.

Definition jobsOf (releaseName : string) : JobsOptions.t :=
  {| JobsOptions.state := None; JobsOptions.releaseName := Some releaseName;
     JobsOptions.folderId := None; JobsOptions.top := None;
     JobsOptions.skip := None; JobsOptions.orderBy := None |}.

Definition faultedJobsOf (releaseName : string) : FaultedJobsOptions.t :=
  {| FaultedJobsOptions.folderId := None; FaultedJobsOptions.top := None;
     FaultedJobsOptions.releaseName := Some releaseName;
     FaultedJobsOptions.startTime := None;
     FaultedJobsOptions.endTime := None |}.

Definition logsOf (jobKey level : string) : RobotLogsOptions.t :=
  {| RobotLogsOptions.folderId := None;
     RobotLogsOptions.jobKey := Some jobKey;
     RobotLogsOptions.startTime := None; RobotLogsOptions.endTime := None;
     RobotLogsOptions.level := Some level;
     RobotLogsOptions.top := None; RobotLogsOptions.skip := None;
     RobotLogsOptions.orderBy := None |}.

Definition auditOf (userName : string) : AuditLogsOptions.t :=
  {| AuditLogsOptions.action := None;
     AuditLogsOptions.userName := Some userName;
     AuditLogsOptions.component := None;
     AuditLogsOptions.startTime := None; AuditLogsOptions.endTime := None;
     AuditLogsOptions.top := None; AuditLogsOptions.skip := None |}.

(** The [$filter] expressions of the API requests a computation sends
    from a fresh client talking to the quiet server. *)
Definition filtersSent {A} (m : M A) : list (option string) :=
  map (fun f => match f_query f with
                | Some ps => param "$filter" ps
                | None => None
                end)
    (apiCalls (log (snd (m (envOf quietServer None) fresh)))).

Definition robotsIn (folder : option Z) : RobotsOptions.t :=
  {| RobotsOptions.folderId := folder; RobotsOptions.top := None;
     RobotsOptions.skip := None; RobotsOptions.orderBy := None |}.

Fixpoint countFor (expr : string) (table : list (string * Z))
  : option Z :=
  match table with
  | [] => None
  | (e, n) :: rest => if String.eqb expr e then Some n else countFor expr rest
  end.

(** A count per filter expression; queries with another filter, or with
    no [$count], get no count. *)
Definition countsBy (table : list (string * Z))
  : Channel (ODataResponse QueueItem.t) :=
  fun _ f =>
    match f_query f with
    | Some ps =>
        match param "$count" ps, param "$filter" ps with
        | Some _, Some expr =>
            Json {| odata_count := countFor expr table; value := [] |}
        | _, _ => Json emptyPage
        end
    | None => Json emptyPage
    end.

(** The queue "Orders" of the specification's scenario: 10 new, 5
    successful and 5 failed items; the counts of the two other statuses
    are not available. *)
Definition ordersServer : Server :=
  {| identity := issuer;
     queueDefinitions := quiet;
     queueItems :=
       countsBy [("QueueDefinitionId eq 7 and Status eq 'New'", 10);
                 ("QueueDefinitionId eq 7 and Status eq 'Successful'", 5);
                 ("QueueDefinitionId eq 7 and Status eq 'Failed'", 5)];
     jobs := quiet; releases := quiet; robots := quiet;
     robotLogs := quiet; auditLogs := quiet |}.

(** Counts for the pending jobs only; every other job query comes back
    without a count, and with three job records. *)
Definition pendingOnly : Channel (ODataResponse Job.t) :=
  fun _ f =>
    match f_query f with
    | Some ps =>
        match param "$filter" ps with
        | Some "State eq 'Pending'" =>
            Json {| odata_count := Some 7; value := [] |}
        | _ => Json {| odata_count := None; value := threeJobs |}
        end
    | None => Json {| odata_count := None; value := threeJobs |}
    end.

Definition twelveQueues : list QueueDefinition.t :=
  map (fun id => {| QueueDefinition.Id := id;
                    QueueDefinition.Name := "queue" |})
    [1; 2; 3; 4; 5; 6; 7; 8; 9; 10; 11; 12].

(** Twelve queues, two items in every status of every queue, and the job
    listing of [pendingOnly]. *)
Definition busyServer : Server :=
  {| identity := issuer;
     queueDefinitions :=
       fun _ _ => Json {| odata_count := None; value := twelveQueues |};
     queueItems :=
       fun _ _ => Json {| odata_count := Some 2; value := [] |};
     jobs := pendingOnly;
     releases := quiet; robots := quiet; robotLogs := quiet;
     auditLogs := quiet |}.

End Demo.

(** ** Notions used to state the properties *)

(** The cache can serve the next call: a non-empty token and an expiry
    are stored (the test [this.accessToken && this.tokenExpiresAt]) and
    the clock, read now, is strictly more than five minutes before the
    expiry. *)
Definition tokenUsable (env : Env) (w : World) : Prop :=
  exists token expiresAt,
    accessToken w = Some token /\ token <> "" /\
    tokenExpiresAt w = Some expiresAt /\
    clock env (ticks w) < expiresAt - 5 * 60 * 1000.

(** The latest reading of the clock that has been taken. *)
Definition lastReading (env : Env) (w : World) : Z :=
  clock env (pred (ticks w)).

(** Running [f] on the elements of a list one after the other, in list
    order, and collecting what each run returns; the first exception ends
    the run. *)
Fixpoint forEach {A B} (f : A -> M B) (l : list A) : M (list B) :=
  match l with
  | [] => ret []
  | a :: rest =>
      b <- f a ;;
      bs <- forEach f rest ;;
      ret (b :: bs)
  end.

(** A count as the statistics use it: an unknown count counts as zero. *)
Definition known (c : option Z) : Z :=
  match c with
  | Some n => n
  | None => 0
  end.

(** The rate reported for [successful] successes among
    [successful + other] completed outcomes: none when nothing completed,
    the percentage of successes when something did. *)
Definition rateAgrees (successful other : Z) (rate : option Q) : Prop :=
  (successful + other = 0 -> rate = None) /\
  (0 < successful + other ->
   rate = Some (inject_Z successful / inject_Z (successful + other) * 100)%Q).

(** How many of [jobs] are in [state]. *)
Definition countState (state : JobState.t) (jobs : list Job.t) : Z :=
  Z.of_nat (length (filter (fun j => JobState.eqb (Job.State j) state) jobs)).

(** The statistics of a list of job records, counted record by record:
    [Stopped] and [Terminated] share one counter, and the rate is taken
    over successful and faulted jobs. *)
Definition rawTally (jobs : list Job.t) : JobStats.t :=
  let successful := countState JobState.Successful jobs in
  let faulted := countState JobState.Faulted jobs in
  {| JobStats.totalJobs := Z.of_nat (length jobs);
     JobStats.pendingJobs := countState JobState.Pending jobs;
     JobStats.runningJobs := countState JobState.Running jobs;
     JobStats.successfulJobs := successful;
     JobStats.faultedJobs := faulted;
     JobStats.stoppedJobs :=
       countState JobState.Stopped jobs + countState JobState.Terminated jobs;
     JobStats.successRate :=
       if (successful + faulted >? 0)%Z
       then Some (percentage successful (successful + faulted))
       else None |}.

(** The per-state counting of [getJobStats] gives up: going through the
    states in order from world [w], some count query comes back with an
    unknown count or throws, all queries before it having returned a
    known count; [w'] is the world right after that query. *)
Inductive FallsBack (env : Env) (folder : option Z)
  : list JobState.t -> World -> World -> Prop :=
| FallsBack_unknown state rest w page w' :
    getJobs (getJobStats_query folder state) env w = (Returns page, w') ->
    count page = None ->
    FallsBack env folder (state :: rest) w w'
| FallsBack_exception state rest w message w' :
    getJobs (getJobStats_query folder state) env w = (Throws message, w') ->
    FallsBack env folder (state :: rest) w w'
| FallsBack_later state rest w page n w' w'' :
    getJobs (getJobStats_query folder state) env w = (Returns page, w') ->
    count page = Some n ->
    FallsBack env folder rest w' w'' ->
    FallsBack env folder (state :: rest) w w''.

(** The sum of one field over a list of queue statistics. *)
Definition sumOf (field : QueueStats.t -> Z) (l : list QueueStats.t) : Z :=
  fold_right (fun s acc => field s + acc) 0 l.

(** Every API request that the computation [m] adds to the log, from
    whatever world it starts and however it ends, satisfies [P]. *)
Definition sends {A} (m : M A) (env : Env) (P : Fetch -> Prop) : Prop :=
  forall w, exists new,
    apiCalls (log (snd (m env w))) = (apiCalls (log w) ++ new)%list /\
    Forall P new.

(** A count query of [getQueueStats] for the queue [queueId]: a request
    to the queue-item listing for a single record, filtered by that queue
    and by one status. *)
Definition countQueryOf (queueId : Z) (f : Fetch) : Prop :=
  f_endpoint f = "/odata/QueueItems" /\
  exists status ps,
    f_query f = Some ps /\
    param "$top" ps = Some "1" /\
    param "$filter" ps
    = Some ("QueueDefinitionId eq " ++ JS.String_of_number queueId
            ++ " and Status eq '" ++ QueueItemStatus.text status ++ "'").

(** ** Further parts of the source

    The listings with a local count, [startJob], the part of
    [getFolderOverview] that follows its fetches, and, of src/index.ts,
    three tool handlers and [loadConfig]. *)

(** *** Listings that count locally after a refusal *)

Module Session.
Record t := { Id : Z; State : string }.
End Session.

Module Asset.
Record t := { Id : Z; Name : string }.
End Asset.

Module ProcessSchedule.
Record t := { Id : Z; Name : string; Enabled : bool }.
End ProcessSchedule.

Module SessionsOptions.
Record t := {
  folderId : option Z;
  state : option string;
  top : option Z;
  skip : option Z
}.
End SessionsOptions.

Module AssetsOptions.
Record t := { folderId : option Z; top : option Z; skip : option Z }.
End AssetsOptions.

Module ProcessSchedulesOptions.
Record t := {
  folderId : option Z;
  enabled : option bool;
  top : option Z;
  skip : option Z
}.
End ProcessSchedulesOptions.

(** [String(b)] for a boolean. *)
Definition String_of_boolean (b : bool) : string :=
  if b then "true" else "false".

Section Listings.

(** The replies to the three listings; as for [Server], one channel per
    expected shape. *)
Variable sessions : Channel (ODataResponse Session.t).
Variable assets : Channel (ODataResponse Asset.t).
Variable schedules : Channel (ODataResponse ProcessSchedule.t).

Definition getSessions (options : SessionsOptions.t)
  : M (Paged Session.t) :=
  effectiveFolderId <- getFolderId (SessionsOptions.folderId options) ;;
  let filters :=
    pushIf (SessionsOptions.state options)
      (fun v => "State eq '" ++ v ++ "'") in
  let params :=
    ([("$top", JS.String_of_number
                 (JS.num_or (SessionsOptions.top options) 100));
      ("$skip", JS.String_of_number
                  (JS.num_or (SessionsOptions.skip options) 0))]
     ++ filterParam filters)%list in
  (* [params.$count = "true"] is the first statement of the [try] block *)
  let params := (params ++ [("$count", "true")])%list in
  tryCatch
    (data <- request (fun _ => sessions) "GET" "/odata/Sessions"
               (Some params) None effectiveFolderId ;;
     ret {| items := value data; count := odata_count data |})
    (fun message =>
       if JS.includes message "Invalid OData"
       then
         let params := delete "$count" params in
         data <- request (fun _ => sessions) "GET" "/odata/Sessions"
                   (Some params) None effectiveFolderId ;;
         ret {| items := value data;
                count := Some (Z.of_nat (length (value data))) |}
       else throw message).

Definition getAssets (options : AssetsOptions.t) : M (Paged Asset.t) :=
  effectiveFolderId <- getFolderId (AssetsOptions.folderId options) ;;
  let params :=
    [("$top", JS.String_of_number
                (JS.num_or (AssetsOptions.top options) 100));
     ("$skip", JS.String_of_number
                 (JS.num_or (AssetsOptions.skip options) 0));
     ("$orderby", "Name asc")] in
  let params := (params ++ [("$count", "true")])%list in
  tryCatch
    (data <- request (fun _ => assets) "GET" "/odata/Assets"
               (Some params) None effectiveFolderId ;;
     ret {| items := value data; count := odata_count data |})
    (fun message =>
       if JS.includes message "Invalid OData"
       then
         let params := delete "$count" params in
         data <- request (fun _ => assets) "GET" "/odata/Assets"
                   (Some params) None effectiveFolderId ;;
         ret {| items := value data;
                count := Some (Z.of_nat (length (value data))) |}
       else throw message).

Definition getProcessSchedules (options : ProcessSchedulesOptions.t)
  : M (Paged ProcessSchedule.t) :=
  effectiveFolderId <-
    getFolderId (ProcessSchedulesOptions.folderId options) ;;
  let filters :=
    match ProcessSchedulesOptions.enabled options with
    | Some b => ["Enabled eq " ++ String_of_boolean b]
    | None => []
    end in
  let params :=
    ([("$top", JS.String_of_number
                 (JS.num_or (ProcessSchedulesOptions.top options) 100));
      ("$skip", JS.String_of_number
                  (JS.num_or (ProcessSchedulesOptions.skip options) 0))]
     ++ filterParam filters)%list in
  let params := (params ++ [("$count", "true")])%list in
  tryCatch
    (data <- request (fun _ => schedules) "GET" "/odata/ProcessSchedules"
               (Some params) None effectiveFolderId ;;
     ret {| items := value data; count := odata_count data |})
    (fun message =>
       if JS.includes message "Invalid OData"
       then
         let params := delete "$count" params in
         data <- request (fun _ => schedules) "GET"
                   "/odata/ProcessSchedules" (Some params) None
                   effectiveFolderId ;;
         ret {| items := value data;
                count := Some (Z.of_nat (length (value data))) |}
       else throw message).

End Listings.

(** *** Starting jobs *)

Module Strategy.
Inductive t := ModernJobsCount | Specific | JobsCount.
End Strategy.

(** The [startInfo] object of a [StartJobRequest]. *)
Module StartInfo.
Record t := {
  ReleaseKey : string;
  Strategy : Strategy.t;
  JobsCount : Z;
  InputArguments : option string
}.
End StartInfo.

Module StartJobOptions.
Record t (Arguments_ : Type) := {
  inputArguments : option Arguments_;
  jobsCount : option Z;
  strategy : option Strategy.t;
  folderId : option Z
}.
Arguments inputArguments {Arguments_} _.
Arguments jobsCount {Arguments_} _.
Arguments strategy {Arguments_} _.
Arguments folderId {Arguments_} _.
End StartJobOptions.

Section StartingJobs.

(** Input arguments are an object of the caller's; [JSON.stringify] on it
    and on the request envelope belong to the runtime. *)
Variable Arguments_ : Type.
Variable stringifyArguments : Arguments_ -> string.
Variable stringifyRequest : StartInfo.t -> string.

Definition startJob (releaseKey : string)
    (options : StartJobOptions.t Arguments_) : M (list Job.t) :=
  effectiveFolderId <- getFolderId (StartJobOptions.folderId options) ;;
  let startInfo :=
    {| StartInfo.ReleaseKey := releaseKey;
       StartInfo.Strategy :=
         match StartJobOptions.strategy options with
         | Some s => s
         | None => Strategy.ModernJobsCount
         end;
       StartInfo.JobsCount :=
         JS.num_or (StartJobOptions.jobsCount options) 1;
       StartInfo.InputArguments :=
         option_map stringifyArguments
           (StartJobOptions.inputArguments options) |} in
  data <- request jobs "POST"
            "/odata/Jobs/UiPath.Server.Configuration.OData.StartJobs"
            None (Some (stringifyRequest startInfo)) effectiveFolderId ;;
  ret (value data).

(** The handler of the tool [uipath_start_job] in [executeTool], after
    the arguments have been validated. *)
Definition executeTool_start_job (processName : string)
    (folderId : option Z) (inputArguments : option Arguments_)
    (jobsCount : Z) : M (list Job.t) :=
  release <- findReleaseByNameOrKey processName folderId ;;
  match release with
  | None => throw ("No release found for process: " ++ processName)
  | Some release =>
      startJob (Release.Key release)
        {| StartJobOptions.inputArguments := inputArguments;
           StartJobOptions.jobsCount := Some jobsCount;
           StartJobOptions.strategy := None;
           StartJobOptions.folderId := folderId |}
  end.

End StartingJobs.

(** *** Queue tools of src/index.ts *)

(** The handler of [uipath_get_queue_stats]. *)
Definition executeTool_get_queue_stats (queueName : string)
    (folderId : option Z) : M QueueStats.t :=
  queue <- getQueueDefinitionByName queueName folderId ;;
  match queue with
  | None => throw ("Queue not found: " ++ queueName)
  | Some queue =>
      getQueueStats (QueueDefinition.Id queue) (QueueDefinition.Name queue)
        folderId
  end.

(** The validated arguments of [uipath_get_queue_items]; [limit] has its
    default by then. *)
Module QueueItemsArgs.
Record t := {
  folderId : option Z;
  queueName : option string;
  queueId : option Z;
  status : option QueueItemStatus.t;
  limit : Z
}.
End QueueItemsArgs.

(** The handler of [uipath_get_queue_items]. *)
Definition executeTool_get_queue_items (parsed : QueueItemsArgs.t)
  : M (Paged QueueItem.t) :=
  let queueId := QueueItemsArgs.queueId parsed in
  (* [parsed.queueName && !queueId] *)
  let lookup :=
    match JS.given (QueueItemsArgs.queueName parsed), queueId with
    | Some name, None => Some name
    | Some name, Some id => if (id =? 0)%Z then Some name else None
    | None, _ => None
    end in
  queueId <-
    match lookup with
    | Some name =>
        queue <- getQueueDefinitionByName name
                   (QueueItemsArgs.folderId parsed) ;;
        match queue with
        | None => throw ("Queue not found: " ++ name)
        | Some queue => ret (Some (QueueDefinition.Id queue))
        end
    | None => ret queueId
    end ;;
  page <- getQueueItems
    {| QueueItemsOptions.queueId := queueId;
       QueueItemsOptions.status := QueueItemsArgs.status parsed;
       QueueItemsOptions.folderId := QueueItemsArgs.folderId parsed;
       QueueItemsOptions.top := Some (QueueItemsArgs.limit parsed);
       QueueItemsOptions.skip := None;
       QueueItemsOptions.orderBy := None |} ;;
  ret {| items := items page; count := count page |}.

(** *** The folder overview, after its fetches *)

Module Folder.
Record t := { Id : Z; DisplayName : string }.
End Folder.

Module FolderOverview.
Record t := {
  folderId : Z;
  folderName : string;
  jobCounts : JobsByState.t;
  totalJobs : Z;
  queueCount : Z;
  releaseCount : Z;
  robotCount : Z
}.
End FolderOverview.

(** Lines 1317-1324 of [getFolderOverview]: one job added to the object
    [{ Pending, Running, Successful, Faulted, Stopped }]. *)
Definition getFolderOverview_count (jobCounts : JobsByState.t) (job : Job.t)
  : JobsByState.t :=
  let pending := JobsByState.Pending jobCounts in
  let running := JobsByState.Running jobCounts in
  let successful := JobsByState.Successful jobCounts in
  let faulted := JobsByState.Faulted jobCounts in
  let stopped := JobsByState.Stopped jobCounts in
  let counts (p r s f t : Z) :=
    {| JobsByState.Pending := p; JobsByState.Running := r;
       JobsByState.Successful := s; JobsByState.Faulted := f;
       JobsByState.Stopped := t |} in
  match Job.State job with
  (* [state in jobCounts]: [jobCounts[state] += 1] *)
  | JobState.Pending => counts (pending + 1) running successful faulted stopped
  | JobState.Running => counts pending (running + 1) successful faulted stopped
  | JobState.Successful =>
      counts pending running (successful + 1) faulted stopped
  | JobState.Faulted => counts pending running successful (faulted + 1) stopped
  | JobState.Stopped => counts pending running successful faulted (stopped + 1)
  (* [state === "Terminated"]: [jobCounts.Stopped += 1] *)
  | JobState.Terminated =>
      counts pending running successful faulted (stopped + 1)
  | _ => jobCounts
  end.

(** Lines 1300-1301 and 1310-1334 of [getFolderOverview]: the overview
    as a function of the folder listing and of what the four parallel
    fetches brought back. *)
Definition getFolderOverview_assemble (folderId : Z)
    (folders : list Folder.t) (jobs : list Job.t)
    (queues : list QueueDefinition.t) (releases : list Release.t)
    (robots : list Robot.t) : FolderOverview.t :=
  let folder := find (fun f => (Folder.Id f =? folderId)%Z) folders in
  let folderName :=
    JS.str_or (option_map Folder.DisplayName folder)
      ("Folder " ++ JS.String_of_number folderId) in
  let jobCounts :=
    fold_left getFolderOverview_count jobs
      {| JobsByState.Pending := 0; JobsByState.Running := 0;
         JobsByState.Successful := 0; JobsByState.Faulted := 0;
         JobsByState.Stopped := 0 |} in
  {| FolderOverview.folderId := folderId;
     FolderOverview.folderName := folderName;
     FolderOverview.jobCounts := jobCounts;
     FolderOverview.totalJobs := Z.of_nat (length jobs);
     FolderOverview.queueCount := Z.of_nat (length queues);
     FolderOverview.releaseCount := Z.of_nat (length releases);
     FolderOverview.robotCount := Z.of_nat (length robots) |}.

(** *** Configuration, src/index.ts *)

Module Config.
(** [UiPathConfig]. The three required values are kept as [process.env]
    gives them. *)
Record t (Num : Type) := {
  baseUrl : option string;
  tenantName : string;
  clientId : option string;
  clientSecret : option string;
  defaultFolderId : option Num;
  disableSslVerify : bool
}.
Arguments baseUrl {Num} _.
Arguments tenantName {Num} _.
Arguments clientId {Num} _.
Arguments clientSecret {Num} _.
Arguments defaultFolderId {Num} _.
Arguments disableSslVerify {Num} _.
End Config.

Definition requiredEnvVars : list string :=
  ["UIPATH_URL"; "UIPATH_CLIENT_ID"; "UIPATH_CLIENT_SECRET"].

(** The [for] loop of [loadConfig]: the first required variable that is
    unset or empty. *)
Fixpoint loadConfig_missing (env : string -> option string)
    (vars : list string) : option string :=
  match vars with
  | [] => None
  | envVar :: rest =>
      match JS.given (env envVar) with
      | None => Some envVar
      | Some _ => loadConfig_missing env rest
      end
  end.

Section Configuration.

(** JavaScript numbers, [Number(string)] and [Number.isFinite] belong to
    the runtime. *)
Variable Num : Type.
Variable Number : string -> Num.
Variable Number_isFinite : Num -> bool.

(** [loadConfig], as a function of [process.env]; the result is the
    configuration or the message of the error thrown. *)
Definition loadConfig (env : string -> option string)
  : string + Config.t Num :=
  match loadConfig_missing env requiredEnvVars with
  | Some envVar =>
      inl ("Missing required environment variable: " ++ envVar)%string
  | None =>
      let folderId :=
        option_map Number (JS.given (env "UIPATH_FOLDER_ID")) in
      inr {| Config.baseUrl := env "UIPATH_URL";
             Config.tenantName :=
               JS.str_or (env "UIPATH_TENANT_NAME") "Default";
             Config.clientId := env "UIPATH_CLIENT_ID";
             Config.clientSecret := env "UIPATH_CLIENT_SECRET";
             Config.defaultFolderId :=
               match folderId with
               | Some n => if Number_isFinite n then Some n else None
               | None => None
               end;
             Config.disableSslVerify :=
               match env "UIPATH_DISABLE_SSL_VERIFY" with
               | Some v => String.eqb v "1"
               | None => false
               end |}
  end.

End Configuration.

(** *** Further notions *)

(** Reading an OData string literal: [readLiteralBody s] reads the rest of
    a literal whose opening quote has been consumed, and gives the value
    and what follows the closing quote; inside, a doubled quote stands for
    one quote. *)
Fixpoint readLiteralBody (s : string) : option (string * string) :=
  match s with
  | EmptyString => None
  | String c rest =>
      if Ascii.eqb c "'" then
        match rest with
        | String d rest' =>
            if Ascii.eqb d "'" then
              match readLiteralBody rest' with
              | Some (v, after) => Some (String "'" v, after)
              | None => None
              end
            else Some (EmptyString, rest)
        | EmptyString => Some (EmptyString, EmptyString)
        end
      else
        match readLiteralBody rest with
        | Some (v, after) => Some (String c v, after)
        | None => None
        end
  end.

Definition readLiteral (s : string) : option (string * string) :=
  match s with
  | String c rest => if Ascii.eqb c "'" then readLiteralBody rest else None
  | EmptyString => None
  end.

(** The jobs of a list that are in none of the six counted states. *)
Definition uncounted (jobs : list Job.t) : Z :=
  countState JobState.Stopping jobs + countState JobState.Suspended jobs
  + countState JobState.Resumed jobs.

(** The rate lies between 0 and 100. *)
Definition percent (rate : option Q) : Prop :=
  match rate with
  | Some r => (0 <= r /\ r <= 100)%Q
  | None => True
  end.

(** A request that carries [$filter] with [State eq 'Faulted'] as its
    first predicate. *)
Definition faultedOnly (f : Fetch) : Prop :=
  f_endpoint f = "/odata/Jobs" /\
  exists ps expr,
    f_query f = Some ps /\ param "$filter" ps = Some expr /\
    String.prefix "State eq 'Faulted'" expr = true.

(** A counted listing that counts locally after a refusal. [op] first
    sends the query [counted]; if that request returns, its records and
    its count are the result; if it throws with a message containing
    "Invalid OData", the query [retry] is sent and the number of records it
    brings back is reported as the count; any other failure propagates. *)
Definition CountsLocally {T} (op : M (Paged T))
    (chan : Server -> Channel (ODataResponse T)) (endpoint : string)
    (folder : option Z) (counted retry : Params) (env : Env) (w : World)
  : Prop :=
  let send params :=
    request chan "GET" endpoint (Some params) None folder env in
  (forall data w1,
     send counted w = (Returns data, w1) ->
     op env w
     = (Returns {| items := value data; count := odata_count data |}, w1))
  /\
  (forall message w1,
     send counted w = (Throws message, w1) ->
     JS.includes message "Invalid OData" = true ->
     op env w
     = match send retry w1 with
       | (Returns data, w2) =>
           (Returns {| items := value data;
                       count := Some (Z.of_nat (length (value data))) |},
            w2)
       | (Throws e, w2) => (Throws e, w2)
       end)
  /\
  (forall message w1,
     send counted w = (Throws message, w1) ->
     JS.includes message "Invalid OData" = false ->
     op env w = (Throws message, w1)).

(** A session listing that refuses [$count]. *)
Definition touchySessions : Channel (ODataResponse Session.t) :=
  fun _ f =>
    match f_query f with
    | Some ps =>
        match param "$count" ps with
        | Some _ => HttpError 400 "Invalid OData query"
        | None =>
            Json {| odata_count := None;
                    value := [{| Session.Id := 1; Session.State := "Busy" |};
                              {| Session.Id := 2; Session.State := "Busy" |}] |}
        end
    | None => Json {| odata_count := None; value := [] |}
    end.

(** *** More concrete servers *)

Module Scenario.

(** An identity server that refuses the client. *)
Definition lockedOut : Server :=
  {| identity := fun _ _ => HttpError 401 "invalid_client";
     queueDefinitions := Demo.quiet; queueItems := Demo.quiet;
     jobs := Demo.quiet; releases := Demo.quiet; robots := Demo.quiet;
     robotLogs := Demo.quiet; auditLogs := Demo.quiet |}.

(** An identity server whose tokens live for five minutes. *)
Definition shortLived : Server :=
  {| identity :=
       fun _ _ => Json {| access_token := "brief"; expires_in := 300 |};
     queueDefinitions := Demo.quiet; queueItems := Demo.quiet;
     jobs := Demo.quiet; releases := Demo.quiet; robots := Demo.quiet;
     robotLogs := Demo.quiet; auditLogs := Demo.quiet |}.

Definition orders : QueueDefinition.t :=
  {| QueueDefinition.Id := 7; QueueDefinition.Name := "Orders" |}.

(** The server of the queue "Orders", which also knows the queue by
    name. *)
Definition ordersByName : Server :=
  {| identity := Demo.issuer;
     queueDefinitions :=
       fun _ f =>
         match f_query f with
         | Some [("$filter", "Name eq 'Orders'")] =>
             Json {| odata_count := None; value := [orders] |}
         | _ => Json Demo.emptyPage
         end;
     queueItems := queueItems Demo.ordersServer;
     jobs := Demo.quiet; releases := Demo.quiet; robots := Demo.quiet;
     robotLogs := Demo.quiet; auditLogs := Demo.quiet |}.

(** A release listing that finds "Invoices" by key, and a job listing
    that answers every request with one pending job. *)
Definition invoicing : Server :=
  {| identity := Demo.issuer;
     queueDefinitions := Demo.quiet; queueItems := Demo.quiet;
     jobs :=
       fun _ _ =>
         Json {| odata_count := None;
                 value := [Demo.aJob 99 JobState.Pending] |};
     releases :=
       fun _ f =>
         match f_query f with
         | Some [("$filter", "ProcessKey eq 'Invoices'")] =>
             Json {| odata_count := None;
                     value := [Demo.aRelease 2 "Invoices" "Invoices_Prod"] |}
         | _ => Json Demo.emptyPage
         end;
     robots := Demo.quiet; robotLogs := Demo.quiet;
     auditLogs := Demo.quiet |}.

Definition someSessions : list Session.t :=
  [{| Session.Id := 1; Session.State := "Busy" |};
   {| Session.Id := 2; Session.State := "Busy" |}].

Definition busySessions : SessionsOptions.t :=
  {| SessionsOptions.folderId := Some 3;
     SessionsOptions.state := Some "Busy";
     SessionsOptions.top := None; SessionsOptions.skip := None |}.

(** ASCII lower case. *)
Definition lowerAscii (c : ascii) : ascii :=
  let n := N_of_ascii c in
  if ((65 <=? n) && (n <=? 90))%N then ascii_of_N (n + 32) else c.

Fixpoint toLowerCase (s : string) : string :=
  match s with
  | EmptyString => EmptyString
  | String c rest => String (lowerAscii c) (toLowerCase rest)
  end.

Definition noArguments : string -> string := fun s => s.

(** A stand-in for [JSON.stringify] on the request envelope: the release
    key only. *)
Definition keyOnly (info : StartInfo.t) : string :=
  StartInfo.ReleaseKey info.

(** A job listing that reports two jobs for every query. *)
Definition twoOfEach : Server :=
  {| identity := Demo.issuer;
     queueDefinitions := Demo.quiet; queueItems := Demo.quiet;
     jobs := fun _ _ => Json {| odata_count := Some 2; value := [] |};
     releases := Demo.quiet; robots := Demo.quiet;
     robotLogs := Demo.quiet; auditLogs := Demo.quiet |}.

(** A successful job that ran from [startTime] to [endTime]. *)
Definition ranFrom (startTime endTime : string) : Job.t :=
  {| Job.Id := 1; Job.Key := "key"; Job.State := JobState.Successful;
     Job.Info := None; Job.JobError := None;
     Job.CreationTime := "2024-01-01T09:59:00Z";
     Job.StartTime := Some startTime; Job.EndTime := Some endTime;
     Job.ReleaseName := "Invoices"; Job.HostMachineName := None |}.

(** Runs of 60, 61 and 120 seconds, a faulted job and a running one. *)
Definition fiveRuns : list Job.t :=
  [ranFrom "2024-01-01T10:00:00Z" "2024-01-01T10:01:00Z";
   ranFrom "2024-01-01T11:00:00Z" "2024-01-01T11:01:01Z";
   ranFrom "2024-01-01T12:00:00Z" "2024-01-01T12:02:00Z";
   Demo.aJob 4 JobState.Faulted; Demo.aJob 5 JobState.Running].

Definition invoiceRuns : Server :=
  {| identity := Demo.issuer;
     queueDefinitions := Demo.quiet; queueItems := Demo.quiet;
     jobs := fun _ _ => Json {| odata_count := Some 5; value := fiveRuns |};
     releases := Demo.quiet; robots := Demo.quiet;
     robotLogs := Demo.quiet; auditLogs := Demo.quiet |}.

Definition allRuns : ProcessPerformanceOptions.t :=
  {| ProcessPerformanceOptions.folderId := None;
     ProcessPerformanceOptions.top := None |}.

(** Whole numbers in decimal notation, and nothing else, as finite
    numbers. *)
Definition wholeNumber (s : string) : option Z := Demo.number 0 s.

Definition isSome {A} (x : option A) : bool :=
  match x with
  | Some _ => true
  | None => false
  end.

(** An environment without the client secret. *)
Definition noSecret (name : string) : option string :=
  if String.eqb name "UIPATH_URL" then Some "https://cloud.uipath.com/acme"
  else if String.eqb name "UIPATH_CLIENT_ID" then Some "client"
  else if String.eqb name "UIPATH_CLIENT_SECRET" then Some ""
  else None.

(** A complete environment whose folder id is not a number. *)
Definition oddFolder (name : string) : option string :=
  if String.eqb name "UIPATH_URL" then Some "https://cloud.uipath.com/acme"
  else if String.eqb name "UIPATH_CLIENT_ID" then Some "client"
  else if String.eqb name "UIPATH_CLIENT_SECRET" then Some "secret"
  else if String.eqb name "UIPATH_FOLDER_ID" then Some "main"
  else None.

(** A client constructed with the base URL [""] and the tenant name
    ["Default"]: the constructor accepts it. *)
Definition emptyBase : Env :=
  {| clientId := "client";
     clientSecret := "secret";
     config_baseUrl := "";
     baseUrl := buildOrchestratorUrl toLowerCase "" "Default";
     defaultFolderId := None;
     server := Demo.quietServer;
     clock := fun n => 1700000000000 + 1000 * Z.of_nat n;
     Date_parse := Demo.isoUtc;
     new_URL := Demo.newUrl |}.

(** An identity server that answers with an empty token, valid for an
    hour. *)
Definition emptyToken : Server :=
  {| identity :=
       fun _ _ => Json {| access_token := ""; expires_in := 3600 |};
     queueDefinitions := Demo.quiet; queueItems := Demo.quiet;
     jobs := Demo.quiet; releases := Demo.quiet; robots := Demo.quiet;
     robotLogs := Demo.quiet; auditLogs := Demo.quiet |}.

(** A date parser that reads a timestamp given as a decimal number of
    milliseconds, and rejects the empty string. *)
Definition millis (s : string) : option Z :=
  match s with
  | EmptyString => None
  | String _ _ => Demo.number 0 s
  end.

(** A server whose queue-item listing refuses [$count] with the given
    text. *)
Definition itemsRefusing (text : string) : Server :=
  {| identity := Demo.issuer;
     queueDefinitions := Demo.quiet;
     queueItems := Demo.refusingCount text [];
     jobs := Demo.quiet;
     releases := Demo.quiet; robots := Demo.quiet; robotLogs := Demo.quiet;
     auditLogs := Demo.quiet |}.

Definition anyItems : QueueItemsOptions.t :=
  {| QueueItemsOptions.queueId := None; QueueItemsOptions.status := None;
     QueueItemsOptions.folderId := None; QueueItemsOptions.top := None;
     QueueItemsOptions.skip := None; QueueItemsOptions.orderBy := None |}.

Definition anySessions : SessionsOptions.t :=
  {| SessionsOptions.folderId := None; SessionsOptions.state := None;
     SessionsOptions.top := None; SessionsOptions.skip := None |}.

End Scenario.

(** * Properties *)

(** ** The monad *)

Lemma bind_returns {A B} (m : M A) (k : A -> M B) env w a w' :
  m env w = (Returns a, w') -> bind m k env w = k a env w'.
Proof. intros H. unfold bind. now rewrite H. Qed.

Lemma bind_throws {A B} (m : M A) (k : A -> M B) env w e w' :
  m env w = (Throws e, w') -> bind m k env w = (Throws e, w').
Proof. intros H. unfold bind. now rewrite H. Qed.

Lemma tryCatch_returns {A} (m : M A) h env w a w' :
  m env w = (Returns a, w') -> tryCatch m h env w = (Returns a, w').
Proof. intros H. unfold tryCatch. now rewrite H. Qed.

Lemma tryCatch_throws {A} (m : M A) h env w e w' :
  m env w = (Throws e, w') -> tryCatch m h env w = h e env w'.
Proof. intros H. unfold tryCatch. now rewrite H. Qed.

(** ** The token manager *)

Lemma truthy_nonempty (s : string) : JS.truthy s = true <-> s <> "".
Proof. destruct s; simpl; split; intros; congruence. Qed.

Lemma cachedToken_some w token expiresAt :
  cachedToken w = Some (token, expiresAt) <->
  accessToken w = Some token /\ token <> "" /\
  tokenExpiresAt w = Some expiresAt.
Proof.
  unfold cachedToken.
  destruct (accessToken w) as [t|]; destruct (tokenExpiresAt w) as [e|];
    try (split; [discriminate | intros (H & _ & H'); discriminate]).
  destruct (JS.truthy t) eqn:T.
  - apply truthy_nonempty in T. split.
    + intros H. inversion H; subst. auto.
    + intros (H1 & _ & H2). congruence.
  - split; [discriminate|]. intros (H1 & H2 & _). inversion H1; subst.
    apply truthy_nonempty in H2. congruence.
Qed.

(** The exchange of a client whose base URL is absolute sends exactly one
    request, the client-credentials one. *)
Lemma exchangeToken_log env w url :
  new_URL env (config_baseUrl env) = Returns url ->
  log (snd (exchangeToken env w))
  = (log w ++ [TokenExchange (tokenRequest env (getIdentityUrl url))])%list.
Proof.
  intros Hurl. unfold exchangeToken, bind, parseBaseUrl, asks, fetchToken.
  rewrite Hurl. simpl.
  destruct (identity (server env) (log w) _); reflexivity.
Qed.

(** Without an absolute base URL the exchange ends where it starts. *)
Lemma exchangeToken_invalid env w message :
  new_URL env (config_baseUrl env) = Throws message ->
  exchangeToken env w = (Throws message, w).
Proof.
  intros Hurl. unfold exchangeToken, bind, parseBaseUrl.
  now rewrite Hurl.
Qed.

(** No exchange adds to the requests sent to the API. *)
Lemma exchangeToken_apiCalls env w :
  apiCalls (log (snd (exchangeToken env w))) = apiCalls (log w).
Proof.
  destruct (new_URL env (config_baseUrl env)) as [url|message] eqn:Hurl.
  - rewrite (exchangeToken_log _ _ _ Hurl).
    induction (log w) as [|[f|f] l IH]; simpl; congruence.
  - now rewrite (exchangeToken_invalid _ _ _ Hurl).
Qed.

Lemma exchangeToken_success env w url data :
  new_URL env (config_baseUrl env) = Returns url ->
  identity (server env) (log w) (tokenRequest env (getIdentityUrl url))
  = Json data ->
  let w' := snd (exchangeToken env w) in
  fst (exchangeToken env w) = Returns (access_token data) /\
  accessToken w' = Some (access_token data) /\
  tokenExpiresAt w' = Some (lastReading env w' + expires_in data * 1000).
Proof.
  intros Hurl H. unfold exchangeToken, bind, parseBaseUrl, asks, fetchToken.
  rewrite Hurl. simpl. rewrite H. simpl. auto.
Qed.

Lemma ensureToken_usable env w :
  tokenUsable env w ->
  exists token, accessToken w = Some token /\
    fst (ensureToken env w) = Returns token /\
    log (snd (ensureToken env w)) = log w.
Proof.
  intros (token & expiresAt & Ht & Hne & He & Hlt).
  exists token. split; [assumption|].
  assert (Hc : cachedToken w = Some (token, expiresAt))
    by (apply cachedToken_some; auto).
  unfold ensureToken, bind, gets. rewrite Hc. unfold Date_now, buffer.
  replace (clock env (ticks w) <? expiresAt - 5 * 60 * 1000)%Z with true
    by (symmetry; apply Z.ltb_lt; assumption).
  simpl. auto.
Qed.

(** When the cache cannot serve, [ensureToken] is the exchange, started
    with the cache and the log as they are. *)
Lemma ensureToken_unusable_world env w :
  ~ tokenUsable env w ->
  exists w0,
    log w0 = log w /\ accessToken w0 = accessToken w /\
    tokenExpiresAt w0 = tokenExpiresAt w /\
    ensureToken env w = exchangeToken env w0.
Proof.
  intros Hn. unfold ensureToken, bind, gets.
  destruct (cachedToken w) as [[token expiresAt]|] eqn:Hc.
  - unfold Date_now, buffer.
    destruct (clock env (ticks w) <? expiresAt - 5 * 60 * 1000)%Z eqn:Hlt.
    + exfalso. apply Hn. apply cachedToken_some in Hc.
      destruct Hc as (H1 & H2 & H3). exists token, expiresAt.
      apply Z.ltb_lt in Hlt. auto.
    + exists {| accessToken := accessToken w;
                tokenExpiresAt := tokenExpiresAt w;
                ticks := S (ticks w); log := log w |}.
      repeat split.
  - exists w. auto.
Qed.

Lemma ensureToken_unusable env w :
  ~ tokenUsable env w ->
  exists w0, log w0 = log w /\ ensureToken env w = exchangeToken env w0.
Proof.
  intros Hn.
  destruct (ensureToken_unusable_world env w Hn) as (w0 & Hl & _ & _ & He).
  exists w0. auto.
Qed.

(** The cache test, decided. *)
Lemma tokenUsable_dec env w : tokenUsable env w \/ ~ tokenUsable env w.
Proof.
  destruct (cachedToken w) as [[token expiresAt]|] eqn:Hc.
  - apply cachedToken_some in Hc. destruct Hc as (H1 & H2 & H3).
    destruct (Z.lt_ge_cases (clock env (ticks w))
                (expiresAt - 5 * 60 * 1000)) as [Hlt|Hge].
    + left. exists token, expiresAt. auto.
    + right. intros (t & e & _ & _ & K3 & K4).
      rewrite H3 in K3. inversion K3; subst. lia.
  - right. intros (t & e & H1 & H2 & H3 & _).
    assert (K : cachedToken w = Some (t, e))
      by (apply cachedToken_some; auto).
    congruence.
Qed.

(** C1, as amended. [ensureToken] returns the cached token without touching
    the network exactly when a non-empty cached token exists (with a stored
    expiry: the client's own test) and the current time is strictly before
    [expiresAt] minus five minutes. In every other case it derives the
    identity URL from the configured base URL. When that base URL is an
    absolute URL it sends exactly one token-exchange request, to the
    identity URL; when that exchange succeeds the returned token is cached
    with [expiresAt] equal to the time read when the reply arrived plus
    [expires_in] seconds, and it is the value returned. When the base URL
    is not an absolute URL, [ensureToken] throws the error of [new URL],
    sends nothing and leaves the cache as it was. *)
Theorem ensureToken_cache_policy (env : Env) (w : World) :
  let r := fst (ensureToken env w) in
  let w' := snd (ensureToken env w) in
  (tokenUsable env w <->
   log w' = log w /\
   exists token, accessToken w = Some token /\ r = Returns token)
  /\
  (~ tokenUsable env w ->
   (forall url,
      new_URL env (config_baseUrl env) = Returns url ->
      log w'
      = (log w ++ [TokenExchange (tokenRequest env (getIdentityUrl url))])%list
      /\
      forall data,
        identity (server env) (log w)
          (tokenRequest env (getIdentityUrl url)) = Json data ->
        r = Returns (access_token data) /\
        accessToken w' = Some (access_token data) /\
        tokenExpiresAt w' =
          Some (lastReading env w' + expires_in data * 1000))
   /\
   (forall message,
      new_URL env (config_baseUrl env) = Throws message ->
      r = Throws message /\ log w' = log w /\
      accessToken w' = accessToken w /\
      tokenExpiresAt w' = tokenExpiresAt w)).
Proof.
  intros r w'. subst r w'.
  assert (Hun : ~ tokenUsable env w ->
            (forall url,
               new_URL env (config_baseUrl env) = Returns url ->
               log (snd (ensureToken env w))
               = (log w
                  ++ [TokenExchange
                        (tokenRequest env (getIdentityUrl url))])%list /\
               forall data,
                 identity (server env) (log w)
                   (tokenRequest env (getIdentityUrl url)) = Json data ->
                 fst (ensureToken env w) = Returns (access_token data) /\
                 accessToken (snd (ensureToken env w)) =
                   Some (access_token data) /\
                 tokenExpiresAt (snd (ensureToken env w)) =
                   Some (lastReading env (snd (ensureToken env w))
                         + expires_in data * 1000)) /\
            (forall message,
               new_URL env (config_baseUrl env) = Throws message ->
               fst (ensureToken env w) = Throws message /\
               log (snd (ensureToken env w)) = log w /\
               accessToken (snd (ensureToken env w)) = accessToken w /\
               tokenExpiresAt (snd (ensureToken env w))
               = tokenExpiresAt w)).
  { intros Hn.
    destruct (ensureToken_unusable_world env w Hn)
      as (w0 & Hl & Ha & Hx & He).
    rewrite He. split.
    - intros url Hurl. split.
      + rewrite (exchangeToken_log _ _ _ Hurl). now rewrite Hl.
      + intros data Hd. apply (exchangeToken_success _ _ _ _ Hurl).
        now rewrite Hl.
    - intros message Hurl. rewrite (exchangeToken_invalid _ _ _ Hurl).
      simpl. auto. }
  split; [|exact Hun]. split.
  - intros Hu. destruct (ensureToken_usable env w Hu) as (t & H1 & H2 & H3).
    split; [assumption|]. exists t. auto.
  - intros (Hlog & token & _ & Hr).
    destruct (tokenUsable_dec env w) as [Hu|Hn]; [exact Hu|]. exfalso.
    destruct (Hun Hn) as (Hsent & Hnone).
    destruct (new_URL env (config_baseUrl env)) as [url|message] eqn:Hurl.
    + destruct (Hsent url eq_refl) as (Hl & _). rewrite Hl in Hlog.
      apply (f_equal (@length _)) in Hlog.
      rewrite length_app in Hlog. simpl in Hlog. lia.
    + destruct (Hnone message eq_refl) as (Ht & _). congruence.
Qed.

(** The claim as it stands fails in two places. A client constructed
    with the base URL [""] holds no token, and [ensureToken] sends no
    request at all: it throws. A client that cached the empty token an
    hour before its expiry exchanges again on the next call. *)
Lemma ensureToken_exchange_needs_absolute_url :
  (~ tokenUsable Scenario.emptyBase Demo.fresh /\
   ensureToken Scenario.emptyBase Demo.fresh
   = (Throws "Invalid URL", Demo.fresh) /\
   log Demo.fresh = []) /\
  (let env := Demo.envOf Scenario.emptyToken None in
   let w := snd (ensureToken env Demo.fresh) in
   accessToken w = Some "" /\
   tokenExpiresAt w = Some (1700000000000 + 3600 * 1000) /\
   clock env (ticks w) < 1700000000000 + 3600 * 1000 - 5 * 60 * 1000 /\
   length (log w) = 1%nat /\
   length (log (snd (ensureToken env w))) = 2%nat).
Proof.
  split.
  - split; [|split; reflexivity].
    intros (t & e & Ht & _). discriminate.
  - cbv zeta. repeat split; vm_compute; reflexivity.
Qed.

(** ** Durations *)

(** [Math.round] of a whole number of milliseconds taken as seconds, in
    integer arithmetic. *)
Lemma Math_round_millis (d : Z) :
  JS.Math_round (inject_Z d / 1000)%Q = (d + 500) / 1000.
Proof.
  unfold JS.Math_round.
  rewrite (Qfloor_comp _ ((d + 500) # 1000)).
  - reflexivity.
  - unfold Qeq, Qdiv, Qmult, Qplus, Qinv, inject_Z. simpl. lia.
Qed.

Lemma given_some (x : option string) (s : string) :
  JS.given x = Some s <-> x = Some s /\ s <> "".
Proof.
  unfold JS.given. destruct x as [t|].
  - destruct (JS.truthy t) eqn:T.
    + apply truthy_nonempty in T. split.
      * intros H. inversion H; subst. auto.
      * intros [H _]. assumption.
    + split; [discriminate|]. intros [H1 H2]. inversion H1; subst.
      apply truthy_nonempty in H2. congruence.
  - split; [discriminate|]. intros [H _]. discriminate.
Qed.

(** C5. For every pair of timestamps that are present and parse,
    [computeDuration] returns [round((end - start) / 1000)]: the integer
    [(end - start + 500) div 1000], which lies within half a second of
    the difference, a difference halfway between two integers going to
    the greater. It is non-negative when the end is not before the start.
    [computeDuration] returns [null] if either timestamp is absent or does
    not parse. The empty string is an invalid date for the runtime's
    parser. *)
Theorem computeDuration_spec (parse : string -> option Z)
    (startTime endTime : option string) :
  parse "" = None ->
  (forall s e start end_,
     startTime = Some s -> endTime = Some e ->
     parse s = Some start -> parse e = Some end_ ->
     let seconds := (end_ - start + 500) / 1000 in
     computeDuration parse startTime endTime = Some seconds /\
     (end_ - start - 500 < 1000 * seconds /\
      1000 * seconds <= end_ - start + 500) /\
     (start <= end_ -> 0 <= seconds))
  /\
  (startTime = None \/ endTime = None \/
   (exists s, startTime = Some s /\ parse s = None) \/
   (exists e, endTime = Some e /\ parse e = None) ->
   computeDuration parse startTime endTime = None).
Proof.
  intros Hempty. split.
  - intros s e start end_ Hs He Ps Pe seconds. subst seconds. subst.
    assert (Ns : s <> "") by (intros ->; congruence).
    assert (Ne : e <> "") by (intros ->; congruence).
    split; [|split].
    + unfold computeDuration.
      rewrite (proj2 (given_some (Some s) s) (conj eq_refl Ns)).
      rewrite (proj2 (given_some (Some e) e) (conj eq_refl Ne)).
      rewrite Ps, Pe. now rewrite Math_round_millis.
    + pose proof (Z.div_mod (end_ - start + 500) 1000) as Hdiv.
      pose proof (Z.mod_pos_bound (end_ - start + 500) 1000) as Hmod.
      lia.
    + intros Hle. apply Z.div_pos; lia.
  - unfold computeDuration.
    intros [-> | [-> | [(s & -> & Ps) | (e & -> & Pe)]]].
    + reflexivity.
    + destruct (JS.given startTime); reflexivity.
    + destruct (JS.given (Some s)) as [s'|] eqn:G; [|reflexivity].
      apply given_some in G. destruct G as [G _]. inversion G; subst.
      destruct (JS.given endTime); [|reflexivity]. now rewrite Ps.
    + destruct (JS.given startTime) as [s|]; [|reflexivity].
      destruct (JS.given (Some e)) as [e'|] eqn:G; [|reflexivity].
      apply given_some in G. destruct G as [G _]. inversion G; subst.
      rewrite Pe. destruct (parse s); reflexivity.
Qed.

(** The scenario of the specification, two minutes apart; and, with
    timestamps given in milliseconds, 1499 ms is one second and 1500 ms
    is two. *)
Lemma computeDuration_spec_witness :
  Demo.isoUtc "" = None /\
  computeDuration Demo.isoUtc (Some "2024-01-01T10:00:00Z")
    (Some "2024-01-01T10:02:00Z") = Some 120 /\
  computeDuration Scenario.millis (Some "0") (Some "1499") = Some 1 /\
  computeDuration Scenario.millis (Some "0") (Some "1500") = Some 2.
Proof.
  split; [reflexivity|]. split; [|split].
  - destruct (computeDuration_spec Demo.isoUtc (Some "2024-01-01T10:00:00Z")
                (Some "2024-01-01T10:02:00Z") eq_refl) as [H _].
    destruct (H "2024-01-01T10:00:00Z" "2024-01-01T10:02:00Z"
                1704103200000 1704103320000 eq_refl eq_refl eq_refl eq_refl)
      as [E _].
    rewrite E. reflexivity.
  - destruct (computeDuration_spec Scenario.millis (Some "0") (Some "1499")
                eq_refl) as [H _].
    destruct (H "0" "1499" 0 1499 eq_refl eq_refl eq_refl eq_refl)
      as [E _].
    rewrite E. reflexivity.
  - destruct (computeDuration_spec Scenario.millis (Some "0") (Some "1500")
                eq_refl) as [H _].
    destruct (H "0" "1500" 0 1500 eq_refl eq_refl eq_refl eq_refl)
      as [E _].
    rewrite E. reflexivity.
Defined.

(** ** The query fallback of [getQueueItems] and [getJobs] *)

Lemma given_default (x : option string) (d : string) :
  d <> "" -> JS.given (Some (JS.str_or x d)) = Some (JS.str_or x d).
Proof.
  intros Hd. apply given_some. split; [reflexivity|].
  unfold JS.str_or. destruct x as [s|]; [|assumption].
  destruct (JS.truthy s) eqn:T; [|assumption].
  now apply truthy_nonempty.
Qed.

Lemma param_filterParam_other (k : string) (filters : list string) :
  k <> "$filter" -> param k (filterParam filters) = None.
Proof.
  intros Hk. destruct filters; simpl; [reflexivity|].
  destruct (String.eqb_spec k "$filter"); [contradiction|reflexivity].
Qed.

(** C4. The listings are refused, status 400, with a text that contains
    "Invalid OData" but not "Invalid OData query options". [getJobs] and
    [getQueueItems] throw after their single request, without the retry;
    [getSessions], refused in the same way, retries without [$count] and
    returns the records. *)
Theorem fallback_not_taken_on_invalid_odata :
  let text := "Invalid OData $count usage" in
  let message := "API request failed (400): Invalid OData $count usage" in
  let jobsRun :=
    getJobs Demo.anyJobs (Demo.envOf (Demo.jobsRefusing text) None)
      Demo.fresh in
  let itemsRun :=
    getQueueItems Scenario.anyItems
      (Demo.envOf (Scenario.itemsRefusing text) None) Demo.fresh in
  let sessionsRun :=
    getSessions (Demo.refusingCount text Scenario.someSessions)
      Scenario.anySessions (Demo.envOf Demo.quietServer None) Demo.fresh in
  JS.includes message "Invalid OData" = true /\
  (fst jobsRun = Throws message /\
   length (apiCalls (log (snd jobsRun))) = 1%nat) /\
  (fst itemsRun = Throws message /\
   length (apiCalls (log (snd itemsRun))) = 1%nat) /\
  (fst sessionsRun
   = Returns {| items := Scenario.someSessions; count := Some 2 |} /\
   length (apiCalls (log (snd sessionsRun))) = 2%nat).
Proof. vm_compute. repeat split; reflexivity. Qed.

(** What [getQueueItems] and [getJobs] do. They first send the full query:
    [$top], [$skip], [$orderby] (by default creation time descending) and
    [$count=true]. If that request returns, its records and its count are
    the result. If it throws with a message containing "Invalid OData query
    options", the request is sent once more with [$count] and [$orderby]
    dropped and everything else unchanged; the result carries the records
    and the count of that second reply, and a failure of the second
    request propagates. If it throws with a message that does not contain
    "Invalid OData query options", that error propagates and nothing more
    is sent. *)
Theorem query_fallback_policy (env : Env) (w : World) :
  (forall options : QueueItemsOptions.t,
     let folder := effectiveFolder env (QueueItemsOptions.folderId options) in
     let full :=
       getQueueItems_buildParams options true
         (Some (JS.str_or (QueueItemsOptions.orderBy options)
                  "CreationTime desc")) in
     let reduced := getQueueItems_buildParams options false None in
     let send params :=
       request queueItems "GET" "/odata/QueueItems" (Some params) None
         folder env in
     (param "$top" full
        = Some (JS.String_of_number
                  (JS.num_or (QueueItemsOptions.top options) 100)) /\
      param "$skip" full
        = Some (JS.String_of_number
                  (JS.num_or (QueueItemsOptions.skip options) 0)) /\
      param "$orderby" full
        = Some (JS.str_or (QueueItemsOptions.orderBy options)
                  "CreationTime desc") /\
      param "$count" full = Some "true") /\
     (param "$count" reduced = None /\ param "$orderby" reduced = None /\
      param "$top" reduced = param "$top" full /\
      param "$skip" reduced = param "$skip" full /\
      param "$filter" reduced = param "$filter" full) /\
     (forall data w1,
        send full w = (Returns data, w1) ->
        getQueueItems options env w
          = (Returns {| items := value data; count := odata_count data |},
             w1)) /\
     (forall message w1,
        send full w = (Throws message, w1) ->
        JS.includes message "Invalid OData query options" = true ->
        getQueueItems options env w
          = match send reduced w1 with
            | (Returns data, w2) =>
                (Returns {| items := value data;
                            count := odata_count data |}, w2)
            | (Throws e, w2) => (Throws e, w2)
            end) /\
     (forall message w1,
        send full w = (Throws message, w1) ->
        JS.includes message "Invalid OData query options" = false ->
        getQueueItems options env w = (Throws message, w1)))
  /\
  (forall options : JobsOptions.t,
     let folder := effectiveFolder env (JobsOptions.folderId options) in
     let full :=
       getJobs_buildParams options true
         (Some (JS.str_or (JobsOptions.orderBy options)
                  "CreationTime desc")) in
     let reduced := getJobs_buildParams options false None in
     let send params :=
       request jobs "GET" "/odata/Jobs" (Some params) None folder env in
     (param "$top" full
        = Some (JS.String_of_number
                  (JS.num_or (JobsOptions.top options) 100)) /\
      param "$skip" full
        = Some (JS.String_of_number
                  (JS.num_or (JobsOptions.skip options) 0)) /\
      param "$orderby" full
        = Some (JS.str_or (JobsOptions.orderBy options)
                  "CreationTime desc") /\
      param "$count" full = Some "true") /\
     (param "$count" reduced = None /\ param "$orderby" reduced = None /\
      param "$top" reduced = param "$top" full /\
      param "$skip" reduced = param "$skip" full /\
      param "$filter" reduced = param "$filter" full) /\
     (forall data w1,
        send full w = (Returns data, w1) ->
        getJobs options env w
          = (Returns {| items := value data; count := odata_count data |},
             w1)) /\
     (forall message w1,
        send full w = (Throws message, w1) ->
        JS.includes message "Invalid OData query options" = true ->
        getJobs options env w
          = match send reduced w1 with
            | (Returns data, w2) =>
                (Returns {| items := value data;
                            count := odata_count data |}, w2)
            | (Throws e, w2) => (Throws e, w2)
            end) /\
     (forall message w1,
        send full w = (Throws message, w1) ->
        JS.includes message "Invalid OData query options" = false ->
        getJobs options env w = (Throws message, w1))).
Proof.
  assert (Hd : "CreationTime desc" <> "") by discriminate.
  split; intros options folder full reduced send; subst full reduced send;
    (split; [|split; [|split; [|split]]]).
  - unfold getQueueItems_buildParams. rewrite (given_default _ _ Hd).
    simpl. auto.
  - unfold getQueueItems_buildParams. rewrite (given_default _ _ Hd).
    simpl. rewrite !param_filterParam_other by discriminate.
    repeat split.
  - intros data w1 H. unfold getQueueItems, bind, getFolderId, asks.
    fold folder. rewrite (tryCatch_returns _ _ _ _ _ _ H). reflexivity.
  - intros message w1 H Hi. unfold getQueueItems, bind, getFolderId, asks.
    fold folder. rewrite (tryCatch_throws _ _ _ _ _ _ H). rewrite Hi.
    destruct (request queueItems "GET" "/odata/QueueItems" _ None folder
                env w1) as [[data|e] w2]; reflexivity.
  - intros message w1 H Hi. unfold getQueueItems, bind, getFolderId, asks.
    fold folder. rewrite (tryCatch_throws _ _ _ _ _ _ H). rewrite Hi.
    reflexivity.
  - unfold getJobs_buildParams. rewrite (given_default _ _ Hd).
    simpl. auto.
  - unfold getJobs_buildParams. rewrite (given_default _ _ Hd).
    simpl. rewrite !param_filterParam_other by discriminate.
    repeat split.
  - intros data w1 H. unfold getJobs, bind, getFolderId, asks.
    fold folder. rewrite (tryCatch_returns _ _ _ _ _ _ H). reflexivity.
  - intros message w1 H Hi. unfold getJobs, bind, getFolderId, asks.
    fold folder. rewrite (tryCatch_throws _ _ _ _ _ _ H). rewrite Hi.
    destruct (request jobs "GET" "/odata/Jobs" _ None folder env w1)
      as [[data|e] w2]; reflexivity.
  - intros message w1 H Hi. unfold getJobs, bind, getFolderId, asks.
    fold folder. rewrite (tryCatch_throws _ _ _ _ _ _ H). rewrite Hi.
    reflexivity.
Qed.

(** The retry, run: the job listing is refused with the text the client
    looks for, and the second request brings the records without a count. *)
Lemma query_fallback_policy_witness :
  fst (getJobs Demo.anyJobs
         (Demo.envOf (Demo.jobsRefusing "Invalid OData query options.") None)
         Demo.fresh)
  = Returns {| items := Demo.threeJobs; count := None |}.
Proof.
  pose (env := Demo.envOf (Demo.jobsRefusing "Invalid OData query options.")
                 None).
  destruct (query_fallback_policy env Demo.fresh) as [_ HJ].
  destruct (HJ Demo.anyJobs) as (_ & _ & _ & Hretry & _).
  fold env.
  rewrite (Hretry "API request failed (400): Invalid OData query options."
             (snd (request jobs "GET" "/odata/Jobs"
                     (Some (getJobs_buildParams Demo.anyJobs true
                              (Some "CreationTime desc")))
                     None None env Demo.fresh))).
  - vm_compute. reflexivity.
  - vm_compute. reflexivity.
  - vm_compute. reflexivity.
Defined.

(** ** Inversion of computations *)

Lemma bind_inv {A B} (m : M A) (k : A -> M B) env w b w' :
  bind m k env w = (Returns b, w') ->
  exists a w1, m env w = (Returns a, w1) /\ k a env w1 = (Returns b, w').
Proof.
  unfold bind. destruct (m env w) as [[a|e] w1]; intros H.
  - exists a, w1. auto.
  - discriminate.
Qed.

Lemma ret_inv {A} (a b : A) env w w' :
  ret a env w = (Returns b, w') -> a = b /\ w = w'.
Proof. unfold ret. intros H. inversion H. auto. Qed.

(** [unbind H as a w Ha]: from [H], which says that a sequence returns,
    the value [a] and the world [w] its first step returns ([Ha]); [H]
    becomes the statement about the rest. *)
Tactic Notation "unbind" hyp(H) "as" simple_intropattern(a)
    simple_intropattern(w) simple_intropattern(Ha) :=
  apply bind_inv in H; destruct H as (a & w & Ha & H).

(** [unret H as E]: from [H], which says that [ret a] returns [b], the
    equation [E : a = b]. *)
Tactic Notation "unret" hyp(H) "as" simple_intropattern(E) :=
  apply ret_inv in H; destruct H as [E _].

Lemma forEach_length {A B} (f : A -> M B) (l : list A) env :
  forall w bs w',
    forEach f l env w = (Returns bs, w') -> length bs = length l.
Proof.
  induction l as [|a rest IH]; intros w bs w' H; simpl in H.
  - unret H as <-. reflexivity.
  - unbind H as b w1 _.
    unbind H as bs' w2 Hrest.
    unret H as <-. simpl.
    f_equal. eapply IH. eassumption.
Qed.

(** ** Success rates *)

Lemma getQueueStats_tally_frame status n stats :
  QueueStats.successRate (getQueueStats_tally status n stats)
    = QueueStats.successRate stats /\
  QueueStats.queueId (getQueueStats_tally status n stats)
    = QueueStats.queueId stats.
Proof. destruct status; split; reflexivity. Qed.

Lemma getQueueStats_loop_frame queueId folder env statuses :
  forall stats w s w',
    getQueueStats_loop queueId folder statuses stats env w = (Returns s, w') ->
    QueueStats.successRate s = QueueStats.successRate stats /\
    QueueStats.queueId s = QueueStats.queueId stats.
Proof.
  induction statuses as [|status rest IH]; intros stats w s w' H; simpl in H.
  - unret H as <-. auto.
  - unbind H as page w1 _.
    apply IH in H. destruct H as [H1 H2].
    destruct (getQueueStats_tally_frame status (JS.num_or (count page) 0) stats)
      as [T1 T2].
    split; congruence.
Qed.

Lemma getQueueStats_rate_agrees stats :
  QueueStats.successRate stats = None ->
  rateAgrees (QueueStats.successfulItems (getQueueStats_rate stats))
    (QueueStats.failedItems (getQueueStats_rate stats))
    (QueueStats.successRate (getQueueStats_rate stats)).
Proof.
  intros Hnone. unfold getQueueStats_rate, rateAgrees.
  destruct (QueueStats.successfulItems stats + QueueStats.failedItems stats >? 0)%Z
    eqn:Hc; simpl.
  - split; intros H; [apply Z.gtb_lt in Hc; lia | reflexivity].
  - rewrite Z.gtb_ltb in Hc. apply Z.ltb_ge in Hc.
    split; intros H; [assumption | lia].
Qed.

Lemma getQueueStats_inv queueId queueName folderId env w stats w' :
  getQueueStats queueId queueName folderId env w = (Returns stats, w') ->
  exists s,
    stats = getQueueStats_rate s /\ QueueStats.successRate s = None /\
    QueueStats.queueId s = queueId.
Proof.
  intros H. unfold getQueueStats in H.
  unbind H as folder w1 _.
  unbind H as s w2 Hloop.
  unret H as <-.
  apply getQueueStats_loop_frame in Hloop. destruct Hloop as [H1 H2].
  exists s. auto.
Qed.

Lemma getJobStats_add_frame state n stats :
  JobStats.successRate (getJobStats_add state n stats)
    = JobStats.successRate stats.
Proof. destruct state; reflexivity. Qed.

Lemma getJobStats_loop_frame folder env states :
  forall stats w s b w',
    getJobStats_loop folder states stats env w = (Returns (s, b), w') ->
    JobStats.successRate s = JobStats.successRate stats.
Proof.
  induction states as [|state rest IH]; intros stats w s b w' H; simpl in H.
  - unret H as H. now inversion H.
  - unbind H as [page|] w1 _.
    + destruct (count page) as [n|].
      * apply IH in H. now rewrite getJobStats_add_frame in H.
      * unret H as H. now inversion H.
    + unret H as H. now inversion H.
Qed.

Lemma getJobStats_count_frame jobs :
  forall stats,
    JobStats.successRate (fold_left getJobStats_count jobs stats)
      = JobStats.successRate stats.
Proof.
  induction jobs as [|job rest IH]; intros stats; simpl; [reflexivity|].
  rewrite IH. unfold getJobStats_count. destruct (Job.State job); reflexivity.
Qed.

Lemma getJobStats_fallback_frame folder env stats w s w' :
  getJobStats_fallback folder stats env w = (Returns s, w') ->
  JobStats.successRate s = JobStats.successRate stats.
Proof.
  intros H. unfold getJobStats_fallback in H.
  unbind H as page w1 _.
  unret H as <-.
  now rewrite getJobStats_count_frame.
Qed.

Lemma getJobStats_rate_agrees stats :
  JobStats.successRate stats = None ->
  rateAgrees (JobStats.successfulJobs (getJobStats_rate stats))
    (JobStats.faultedJobs (getJobStats_rate stats))
    (JobStats.successRate (getJobStats_rate stats)).
Proof.
  intros Hnone. unfold getJobStats_rate, rateAgrees.
  destruct (JobStats.successfulJobs stats + JobStats.faultedJobs stats >? 0)%Z
    eqn:Hc; simpl.
  - split; intros H; [apply Z.gtb_lt in Hc; lia | reflexivity].
  - rewrite Z.gtb_ltb in Hc. apply Z.ltb_ge in Hc.
    split; intros H; [assumption | lia].
Qed.

Lemma getJobStats_inv folderId env w stats w' :
  getJobStats folderId env w = (Returns stats, w') ->
  exists s, stats = getJobStats_rate s /\ JobStats.successRate s = None.
Proof.
  intros H. unfold getJobStats in H.
  unbind H as folder w1 _.
  unbind H as [s1 useFallback] w2 Hloop.
  apply getJobStats_loop_frame in Hloop. simpl in Hloop.
  unbind H as s w3 Hs.
  unret H as <-.
  exists s. split; [reflexivity|].
  destruct useFallback.
  - apply getJobStats_fallback_frame in Hs. congruence.
  - unret Hs as <-. assumption.
Qed.

Lemma rate_cases (successful other : Z) :
  rateAgrees successful other
    (if (successful + other >? 0)%Z
     then Some (percentage successful (successful + other))
     else None).
Proof.
  unfold rateAgrees. destruct (successful + other >? 0)%Z eqn:Hc.
  - split; intros H; [apply Z.gtb_lt in Hc; lia | reflexivity].
  - rewrite Z.gtb_ltb in Hc. apply Z.ltb_ge in Hc.
    split; intros H; [reflexivity | lia].
Qed.

(** C2. Every statistics computation (queue statistics, job statistics,
    process performance, the dashboard's queue rate) reports no success
    rate when the successful and failed (or faulted) outcomes add up to
    zero, and reports successful divided by that sum, times 100, when the
    sum is positive. *)
Theorem success_rate_null_on_no_data (env : Env) (w : World) :
  (forall queueId queueName folderId stats w',
     getQueueStats queueId queueName folderId env w = (Returns stats, w') ->
     rateAgrees (QueueStats.successfulItems stats)
       (QueueStats.failedItems stats) (QueueStats.successRate stats))
  /\
  (forall folderId stats w',
     getJobStats folderId env w = (Returns stats, w') ->
     rateAgrees (JobStats.successfulJobs stats) (JobStats.faultedJobs stats)
       (JobStats.successRate stats))
  /\
  (forall processName options perf w',
     getProcessPerformance processName options env w = (Returns perf, w') ->
     rateAgrees (ProcessPerformance.successful perf)
       (ProcessPerformance.faulted perf)
       (ProcessPerformance.successRate perf))
  /\
  (forall folderId summary w',
     getDashboardSummary folderId env w = (Returns summary, w') ->
     rateAgrees
       (QueueItemsByStatus.Successful
          (DashboardSummary.queueItemsByStatus summary))
       (QueueItemsByStatus.Failed
          (DashboardSummary.queueItemsByStatus summary))
       (DashboardSummary.successRateQueues summary)).
Proof.
  split; [|split; [|split]].
  - intros queueId queueName folderId stats w' H.
    apply getQueueStats_inv in H. destruct H as (s & -> & Hn & _).
    now apply getQueueStats_rate_agrees.
  - intros folderId stats w' H.
    apply getJobStats_inv in H. destruct H as (s & -> & Hn).
    now apply getJobStats_rate_agrees.
  - intros processName options perf w' H. unfold getProcessPerformance in H.
    unbind H as folder w1 _.
    unbind H as page w2 _.
    unbind H as parse w3 _.
    unret H as <-. simpl.
    apply rate_cases.
  - intros folderId summary w' H. unfold getDashboardSummary in H.
    unbind H as folder w1 _.
    unbind H as queues w2 _.
    unbind H as jobStats w3 _.
    unbind H as [total byStatus] w4 _.
    unret H as <-. simpl.
    apply rate_cases.
Qed.

(** ** Queue statistics with unknown counts *)

Lemma num_or_zero (c : option Z) : JS.num_or c 0 = known c.
Proof.
  destruct c as [n|]; simpl; [|reflexivity].
  destruct (n =? 0)%Z eqn:E; [|reflexivity].
  apply Z.eqb_eq in E. auto.
Qed.

Lemma getQueueStats_loop_run queueId folder env statuses :
  forall stats w pages w',
    forEach (fun status =>
               getQueueItems (getQueueStats_query queueId folder status))
      statuses env w = (Returns pages, w') ->
    getQueueStats_loop queueId folder statuses stats env w
    = (Returns
         (fold_left
            (fun st sp =>
               getQueueStats_tally (fst sp) (known (count (snd sp))) st)
            (combine statuses pages) stats), w').
Proof.
  induction statuses as [|status rest IH]; intros stats w pages w' H;
    simpl in H.
  - apply ret_inv in H. destruct H as [<- <-]. reflexivity.
  - unbind H as page w1 Hpage.
    unbind H as pages' w2 Hrest.
    apply ret_inv in H. destruct H as [<- <-].
    simpl. rewrite (bind_returns _ _ _ _ _ _ Hpage).
    rewrite num_or_zero. now apply IH.
Qed.

(** C10. In [getQueueStats] a count query that comes back with an unknown
    count is recorded as 0 for its status and adds 0 to [totalItems].
    Whatever the five count queries return, known counts or not, the
    operation returns, sends nothing beyond those five queries, and
    computes the totals and the success rate from the counts as recorded. *)
Theorem getQueueStats_unknown_count_is_zero (env : Env) (w : World)
    (queueId : Z) (queueName : string) (folderId : option Z)
    (pNew pInProgress pSuccessful pFailed pAbandoned : Paged QueueItem.t)
    (w' : World) :
  forEach
    (fun status =>
       getQueueItems
         {| QueueItemsOptions.queueId := Some queueId;
            QueueItemsOptions.status := Some status;
            QueueItemsOptions.folderId := effectiveFolder env folderId;
            QueueItemsOptions.top := Some 1;
            QueueItemsOptions.skip := None;
            QueueItemsOptions.orderBy := None |})
    [QueueItemStatus.New; QueueItemStatus.InProgress;
     QueueItemStatus.Successful; QueueItemStatus.Failed;
     QueueItemStatus.Abandoned] env w
  = (Returns [pNew; pInProgress; pSuccessful; pFailed; pAbandoned], w') ->
  known None = 0 /\
  getQueueStats queueId queueName folderId env w
  = (Returns
       {| QueueStats.queueId := queueId;
          QueueStats.queueName := queueName;
          QueueStats.totalItems :=
            known (count pNew) + known (count pInProgress)
            + known (count pSuccessful) + known (count pFailed)
            + known (count pAbandoned);
          QueueStats.newItems := known (count pNew);
          QueueStats.inProgressItems := known (count pInProgress);
          QueueStats.successfulItems := known (count pSuccessful);
          QueueStats.failedItems := known (count pFailed);
          QueueStats.abandonedItems := known (count pAbandoned);
          QueueStats.successRate :=
            if (known (count pSuccessful) + known (count pFailed) >? 0)%Z
            then Some (percentage (known (count pSuccessful))
                         (known (count pSuccessful) + known (count pFailed)))
            else None |}, w').
Proof.
  intros H. split; [reflexivity|].
  unfold getQueueStats, bind at 1, getFolderId, asks.
  unfold bind at 1.
  rewrite (getQueueStats_loop_run queueId (effectiveFolder env folderId) env
             getQueueStats_statuses _ w _ w' H).
  unfold ret, getQueueStats_rate. simpl.
  destruct (known (count pSuccessful) + known (count pFailed) >? 0)%Z;
    reflexivity.
Qed.

(** ** Job statistics: the fallback *)

Lemma attempt_returns {A} (m : M A) env w a w' :
  m env w = (Returns a, w') ->
  tryCatch (bind m (fun x => ret (Some x))) (fun _ => ret None) env w
  = (Returns (Some a), w').
Proof.
  intros H. apply tryCatch_returns. now rewrite (bind_returns _ _ _ _ _ _ H).
Qed.

Lemma attempt_throws {A} (m : M A) env w e w' :
  m env w = (Throws e, w') ->
  tryCatch (bind m (fun x => ret (Some x))) (fun _ => ret None) env w
  = (Returns None, w').
Proof.
  intros H.
  rewrite (tryCatch_throws _ _ _ _ e w'); [reflexivity|].
  now apply bind_throws.
Qed.

Lemma FallsBack_loop env folder states w w1 :
  FallsBack env folder states w w1 ->
  forall stats, exists s,
    getJobStats_loop folder states stats env w = (Returns (s, true), w1) /\
    JobStats.successRate s = JobStats.successRate stats.
Proof.
  induction 1 as [state rest w page w' Hq Hc
                 | state rest w message w' Hq
                 | state rest w page n w' w'' Hq Hc Hrest IH];
    intros stats; simpl.
  - exists stats. split; [|reflexivity].
    rewrite (bind_returns _ _ _ _ _ _ (attempt_returns _ _ _ _ _ Hq)).
    now rewrite Hc.
  - exists stats. split; [|reflexivity].
    now rewrite (bind_returns _ _ _ _ _ _ (attempt_throws _ _ _ _ _ Hq)).
  - destruct (IH (getJobStats_add state n stats)) as (s & Hs & Hr).
    exists s. split.
    + rewrite (bind_returns _ _ _ _ _ _ (attempt_returns _ _ _ _ _ Hq)).
      now rewrite Hc.
    + now rewrite Hr, getJobStats_add_frame.
Qed.

Lemma countState_cons state job jobs :
  countState state (job :: jobs)
  = (if JobState.eqb (Job.State job) state then 1 else 0)
    + countState state jobs.
Proof.
  unfold countState. simpl.
  destruct (JobState.eqb (Job.State job) state); simpl length; lia.
Qed.

(** The loop of the fallback adds, to each counter, the number of fetched
    records in the matching state. *)
Lemma getJobStats_count_fold jobs :
  forall stats,
    fold_left getJobStats_count jobs stats
    = {| JobStats.totalJobs := JobStats.totalJobs stats;
         JobStats.pendingJobs :=
           JobStats.pendingJobs stats + countState JobState.Pending jobs;
         JobStats.runningJobs :=
           JobStats.runningJobs stats + countState JobState.Running jobs;
         JobStats.successfulJobs :=
           JobStats.successfulJobs stats
           + countState JobState.Successful jobs;
         JobStats.faultedJobs :=
           JobStats.faultedJobs stats + countState JobState.Faulted jobs;
         JobStats.stoppedJobs :=
           JobStats.stoppedJobs stats
           + (countState JobState.Stopped jobs
              + countState JobState.Terminated jobs);
         JobStats.successRate := JobStats.successRate stats |}.
Proof.
  induction jobs as [|job rest IH]; intros stats.
  - destruct stats. unfold countState. simpl. f_equal; lia.
  - simpl fold_left. rewrite IH. rewrite !countState_cons.
    unfold getJobStats_count.
    destruct (Job.State job); cbn -[Z.add]; f_equal; lia.
Qed.

(** C3. When the per-state counting of [getJobStats] gives up, because a
    count query returned an unknown count or threw, the operation makes one
    listing call for up to 1000 job records without a state filter, and what
    it returns is exactly the tally of the records that call brought back
    ([Stopped] and [Terminated] together in [stoppedJobs]); nothing of the
    counts obtained before the fallback remains. A failure of the listing
    call is the failure of the operation. *)
Theorem getJobStats_fallback_is_raw_tally (env : Env) (w w1 : World)
    (folderId : option Z) :
  FallsBack env (effectiveFolder env folderId)
    [JobState.Pending; JobState.Running; JobState.Successful;
     JobState.Faulted; JobState.Stopped; JobState.Terminated] w w1 ->
  getJobStats folderId env w
  = match getJobs
            {| JobsOptions.state := None;
               JobsOptions.releaseName := None;
               JobsOptions.folderId := effectiveFolder env folderId;
               JobsOptions.top := Some 1000;
               JobsOptions.skip := None;
               JobsOptions.orderBy := None |} env w1 with
    | (Returns page, w2) => (Returns (rawTally (items page)), w2)
    | (Throws message, w2) => (Throws message, w2)
    end.
Proof.
  intros H.
  destruct (FallsBack_loop _ _ _ _ _ H
              {| JobStats.totalJobs := 0; JobStats.pendingJobs := 0;
                 JobStats.runningJobs := 0; JobStats.successfulJobs := 0;
                 JobStats.faultedJobs := 0; JobStats.stoppedJobs := 0;
                 JobStats.successRate := None |}) as (s & Hloop & Hrate).
  simpl in Hrate.
  unfold getJobStats, bind at 1, getFolderId, asks.
  rewrite (bind_returns _ _ _ _ _ _ Hloop).
  unfold getJobStats_fallback, bind, getJobStats_rawQuery.
  destruct (getJobs _ env w1) as [[page|message] w2]; [|reflexivity].
  unfold ret. f_equal. f_equal.
  rewrite getJobStats_count_fold. simpl.
  unfold getJobStats_rate, rawTally. simpl. rewrite Hrate.
  destruct (countState JobState.Successful (items page)
            + countState JobState.Faulted (items page) >? 0)%Z;
    reflexivity.
Qed.

(** ** The dashboard's sample of queues *)

Lemma getDashboardSummary_loop_run folder env queues :
  forall acc w sampled w',
    forEach (fun queue =>
               getQueueStats (QueueDefinition.Id queue)
                 (QueueDefinition.Name queue) folder)
      queues env w = (Returns sampled, w') ->
    getDashboardSummary_loop folder queues acc env w
    = (Returns (fold_left (fun a stats => getDashboardSummary_add stats a)
                  sampled acc), w').
Proof.
  induction queues as [|queue rest IH]; intros acc w sampled w' H;
    simpl in H.
  - apply ret_inv in H. destruct H as [<- <-]. reflexivity.
  - unbind H as stats w1 Hstats.
    unbind H as sampled' w2 Hrest.
    apply ret_inv in H. destruct H as [<- <-].
    simpl. rewrite (bind_returns _ _ _ _ _ _ Hstats). now apply IH.
Qed.

Lemma getDashboardSummary_add_fold sampled :
  forall total byStatus,
    fold_left (fun a stats => getDashboardSummary_add stats a) sampled
      (total, byStatus)
    = (total + sumOf QueueStats.totalItems sampled,
       {| QueueItemsByStatus.New :=
            QueueItemsByStatus.New byStatus
            + sumOf QueueStats.newItems sampled;
          QueueItemsByStatus.InProgress :=
            QueueItemsByStatus.InProgress byStatus
            + sumOf QueueStats.inProgressItems sampled;
          QueueItemsByStatus.Successful :=
            QueueItemsByStatus.Successful byStatus
            + sumOf QueueStats.successfulItems sampled;
          QueueItemsByStatus.Failed :=
            QueueItemsByStatus.Failed byStatus
            + sumOf QueueStats.failedItems sampled |}).
Proof.
  induction sampled as [|stats rest IH]; intros total byStatus.
  - destruct byStatus. unfold sumOf. cbn -[Z.add]. f_equal; [lia|].
    f_equal; lia.
  - cbn -[Z.add] in *. rewrite IH. cbn -[Z.add]. unfold sumOf.
    cbn -[Z.add]. f_equal; [lia|]. f_equal; lia.
Qed.

Lemma forEach_queueIds folder env queues :
  forall w sampled w',
    forEach (fun queue =>
               getQueueStats (QueueDefinition.Id queue)
                 (QueueDefinition.Name queue) folder)
      queues env w = (Returns sampled, w') ->
    map QueueStats.queueId sampled = map QueueDefinition.Id queues.
Proof.
  induction queues as [|queue rest IH]; intros w sampled w' H; simpl in H.
  - unret H as <-. reflexivity.
  - unbind H as stats w1 Hstats.
    unbind H as sampled' w2 Hrest.
    unret H as <-. simpl.
    apply getQueueStats_inv in Hstats. destruct Hstats as (s & -> & _ & Hid).
    f_equal.
    + rewrite <- Hid. unfold getQueueStats_rate.
      destruct (_ >? 0)%Z; reflexivity.
    + eapply IH. eassumption.
Qed.

(** C6. [getDashboardSummary] fetches per-queue statistics for the first
    five queue definitions only, in list order, however many definitions
    the listing returned: after the queue listing and the job statistics it
    runs [getQueueStats] on exactly those queues and on nothing else. The
    per-status counts and [totalQueueItems] are the sums over those
    queues; [totalQueues] is the length of the whole listing. *)
Theorem getDashboardSummary_samples_first_five (env : Env) (w : World)
    (folderId : option Z)
    (queues : list QueueDefinition.t) (w1 : World)
    (jobStats : JobStats.t) (w2 : World)
    (sampled : list QueueStats.t) (w3 : World) :
  getQueueDefinitions (effectiveFolder env folderId) env w
    = (Returns queues, w1) ->
  getJobStats (effectiveFolder env folderId) env w1
    = (Returns jobStats, w2) ->
  forEach (fun queue =>
             getQueueStats (QueueDefinition.Id queue)
               (QueueDefinition.Name queue) (effectiveFolder env folderId))
    (firstn 5 queues) env w2 = (Returns sampled, w3) ->
  exists summary,
    getDashboardSummary folderId env w = (Returns summary, w3) /\
    (length sampled <= 5)%nat /\
    length sampled = Nat.min 5 (length queues) /\
    map QueueStats.queueId sampled
      = map QueueDefinition.Id (firstn 5 queues) /\
    DashboardSummary.totalQueues summary = Z.of_nat (length queues) /\
    DashboardSummary.totalQueueItems summary
      = sumOf QueueStats.totalItems sampled /\
    QueueItemsByStatus.New (DashboardSummary.queueItemsByStatus summary)
      = sumOf QueueStats.newItems sampled /\
    QueueItemsByStatus.InProgress
      (DashboardSummary.queueItemsByStatus summary)
      = sumOf QueueStats.inProgressItems sampled /\
    QueueItemsByStatus.Successful
      (DashboardSummary.queueItemsByStatus summary)
      = sumOf QueueStats.successfulItems sampled /\
    QueueItemsByStatus.Failed (DashboardSummary.queueItemsByStatus summary)
      = sumOf QueueStats.failedItems sampled.
Proof.
  intros Hq Hj Hs.
  assert (Hlen : length sampled = Nat.min 5 (length queues)).
  { rewrite (forEach_length _ _ _ _ _ _ Hs). apply length_firstn. }
  eexists. split.
  - unfold getDashboardSummary, bind at 1, getFolderId, asks.
    rewrite (bind_returns _ _ _ _ _ _ Hq).
    rewrite (bind_returns _ _ _ _ _ _ Hj).
    rewrite (bind_returns _ _ _ _ _ _
               (getDashboardSummary_loop_run _ _ _ _ _ _ _ Hs)).
    rewrite getDashboardSummary_add_fold. reflexivity.
  - cbn -[Z.add sumOf Nat.min firstn].
    repeat split; try reflexivity.
    + rewrite Hlen. apply Nat.le_min_l.
    + exact Hlen.
    + exact (forEach_queueIds _ _ _ _ _ _ Hs).
Qed.

(** ** The properties, run on the concrete servers *)

(** A fresh client exchanges once and caches the token for an hour; a
    client whose token expires in exactly five minutes exchanges as well;
    one millisecond more of validity and the cached token is returned
    without any request. A client whose base URL is empty throws. *)
Lemma ensureToken_cache_policy_witness :
  (fst (ensureToken (Demo.envOf Demo.quietServer None) Demo.fresh)
     = Returns "token-1" /\
   tokenExpiresAt
     (snd (ensureToken (Demo.envOf Demo.quietServer None) Demo.fresh))
     = Some (1700000000000 + 3600 * 1000)) /\
  length (log (snd (ensureToken (Demo.envOf Demo.quietServer None)
                      (Demo.holding "cached" (1700000000000 + 300000)))))
    = 1%nat /\
  (log (snd (ensureToken (Demo.envOf Demo.quietServer None)
               (Demo.holding "cached" (1700000000000 + 300001)))) = [] /\
   fst (ensureToken (Demo.envOf Demo.quietServer None)
          (Demo.holding "cached" (1700000000000 + 300001)))
     = Returns "cached") /\
  fst (ensureToken Scenario.emptyBase Demo.fresh) = Throws "Invalid URL".
Proof.
  split; [|split; [|split]].
  - destruct (ensureToken_cache_policy (Demo.envOf Demo.quietServer None)
                Demo.fresh) as [_ H].
    destruct H as [H _].
    + intros (t & e & Ht & _). discriminate.
    + edestruct H as [_ Hdata]; [vm_compute; reflexivity|].
      destruct (Hdata {| access_token := "token-1"; expires_in := 3600 |}
                  eq_refl) as (H1 & _ & H3).
      split; [exact H1|]. rewrite H3. reflexivity.
  - destruct (ensureToken_cache_policy (Demo.envOf Demo.quietServer None)
                (Demo.holding "cached" (1700000000000 + 300000)))
      as [_ H].
    destruct H as [H _].
    + intros (t & e & _ & _ & He & Hlt). simpl in He, Hlt.
      inversion He; subst. lia.
    + edestruct H as [Hlog _]; [vm_compute; reflexivity|].
      rewrite Hlog. reflexivity.
  - destruct (ensureToken_cache_policy (Demo.envOf Demo.quietServer None)
                (Demo.holding "cached" (1700000000000 + 300001)))
      as [[H _] _].
    destruct H as (Hlog & t & Ht & Hr).
    + exists "cached", (1700000000000 + 300001). simpl.
      split; [reflexivity | split; [discriminate | split; [reflexivity | lia]]].
    + split; [exact Hlog|]. rewrite Hr. simpl in Ht. congruence.
  - destruct (ensureToken_cache_policy Scenario.emptyBase Demo.fresh)
      as [_ H].
    destruct H as [_ H].
    + intros (t & e & Ht & _). discriminate.
    + destruct (H "Invalid URL" eq_refl) as (Hr & _). exact Hr.
Defined.

(** The scenario of the specification (10 new, 5 successful, 5 failed:
    a rate of 50 over 10 completed items), and a queue without items. *)
Lemma success_rate_null_on_no_data_witness :
  rateAgrees 5 5 (Some (percentage 5 10)) /\ rateAgrees 0 0 None.
Proof.
  split.
  - destruct (success_rate_null_on_no_data
                (Demo.envOf Demo.ordersServer None) Demo.fresh) as (H & _).
    eapply (H 7 "Orders" None
              {| QueueStats.queueId := 7; QueueStats.queueName := "Orders";
                 QueueStats.totalItems := 20; QueueStats.newItems := 10;
                 QueueStats.inProgressItems := 0;
                 QueueStats.successfulItems := 5;
                 QueueStats.failedItems := 5;
                 QueueStats.abandonedItems := 0;
                 QueueStats.successRate := Some (percentage 5 10) |}).
    vm_compute. reflexivity.
  - destruct (success_rate_null_on_no_data
                (Demo.envOf Demo.quietServer None) Demo.fresh) as (H & _).
    eapply (H 7 "Orders" None
              {| QueueStats.queueId := 7; QueueStats.queueName := "Orders";
                 QueueStats.totalItems := 0; QueueStats.newItems := 0;
                 QueueStats.inProgressItems := 0;
                 QueueStats.successfulItems := 0;
                 QueueStats.failedItems := 0;
                 QueueStats.abandonedItems := 0;
                 QueueStats.successRate := None |}).
    vm_compute. reflexivity.
Defined.

(** Seven pending jobs are counted, then the count of the running jobs is
    unknown: the result is the tally of the three fetched records, and the
    seven are gone. *)
Lemma getJobStats_fallback_is_raw_tally_witness :
  fst (getJobStats None (Demo.envOf Demo.busyServer None) Demo.fresh)
  = Returns (rawTally Demo.threeJobs) /\
  JobStats.totalJobs (rawTally Demo.threeJobs) = 3 /\
  JobStats.pendingJobs (rawTally Demo.threeJobs) = 0 /\
  JobStats.stoppedJobs (rawTally Demo.threeJobs) = 1.
Proof.
  split; [|repeat split].
  erewrite getJobStats_fallback_is_raw_tally; cycle 1.
  - eapply FallsBack_later.
    + vm_compute. reflexivity.
    + reflexivity.
    + eapply FallsBack_unknown.
      * vm_compute. reflexivity.
      * reflexivity.
  - vm_compute. reflexivity.
Defined.

(** The queue "Orders": the counts of two statuses are unknown and are
    recorded as 0; 20 items in all, a rate of 50. *)
Lemma getQueueStats_unknown_count_is_zero_witness :
  fst (getQueueStats 7 "Orders" None (Demo.envOf Demo.ordersServer None)
         Demo.fresh)
  = Returns
      {| QueueStats.queueId := 7; QueueStats.queueName := "Orders";
         QueueStats.totalItems := 20; QueueStats.newItems := 10;
         QueueStats.inProgressItems := 0; QueueStats.successfulItems := 5;
         QueueStats.failedItems := 5; QueueStats.abandonedItems := 0;
         QueueStats.successRate := Some (percentage 5 10) |}.
Proof.
  edestruct (getQueueStats_unknown_count_is_zero
               (Demo.envOf Demo.ordersServer None) Demo.fresh 7 "Orders" None)
    as [_ H].
  - vm_compute. reflexivity.
  - rewrite H. reflexivity.
Defined.

(** Twelve queues are defined; five are sampled, in list order, and with
    two items per status each the dashboard shows 10 per status and 50 in
    all, next to a total of 12 queues. *)
Lemma getDashboardSummary_samples_first_five_witness :
  exists summary,
    fst (getDashboardSummary None (Demo.envOf Demo.busyServer None)
           Demo.fresh) = Returns summary /\
    DashboardSummary.totalQueues summary = 12 /\
    DashboardSummary.totalQueueItems summary = 50 /\
    QueueItemsByStatus.New (DashboardSummary.queueItemsByStatus summary)
      = 10.
Proof.
  edestruct (getDashboardSummary_samples_first_five
               (Demo.envOf Demo.busyServer None) Demo.fresh None)
    as (summary & Hrun & _ & _ & Hids & Htotal & Hitems & Hnew & _).
  - vm_compute. reflexivity.
  - vm_compute. reflexivity.
  - vm_compute. reflexivity.
  - exists summary. rewrite Hrun. split; [reflexivity|].
    rewrite Htotal, Hitems, Hnew. repeat split.
Defined.

(** ** Release lookup *)

Lemma effectiveFolder_idem env folderId :
  effectiveFolder env (effectiveFolder env folderId)
  = effectiveFolder env folderId.
Proof.
  unfold effectiveFolder. destruct folderId; [reflexivity|].
  destruct (defaultFolderId env); reflexivity.
Qed.

Lemma request_frame {T} (chan : Server -> Channel T) method endpoint params
    body folderId env w :
  exists new,
    apiCalls (log (snd (request chan method endpoint params body folderId
                          env w)))
      = (apiCalls (log w) ++ new)%list /\
    (length new <= 1)%nat /\
    Forall (fun f => f_endpoint f = endpoint /\ f_query f = params) new.
Proof.
  assert (Happ : forall l c, apiCalls (l ++ [c])
                  = (apiCalls l ++ apiCalls [c])%list).
  { induction l as [|[f|f] l IH]; intros c; simpl; [reflexivity| |];
      rewrite IH; reflexivity. }
  assert (Htok : forall w0,
            apiCalls (log (snd (exchangeToken env w0))) = apiCalls (log w0)).
  { intros w0. apply exchangeToken_apiCalls. }
  assert (Hens : apiCalls (log (snd (ensureToken env w))) = apiCalls (log w)).
  { unfold ensureToken, bind, gets.
    destruct (cachedToken w) as [[token expiresAt]|]; [|apply Htok].
    unfold Date_now.
    destruct (_ <? _)%Z; [reflexivity|]. now rewrite Htok. }
  unfold request, bind at 1.
  destruct (ensureToken env w) as [[token|e] w0].
  - simpl in Hens. unfold bind, asks, fetchApi. simpl.
    eexists. split.
    + match goal with
      | |- context [match ?r with Json _ => _ | _ => _ end] => destruct r
      end; simpl; rewrite Happ, Hens; reflexivity.
    + split; [simpl; lia|]. constructor; [|constructor]. simpl. auto.
  - exists []. simpl in *. rewrite app_nil_r. auto.
Qed.

(** C7, at the failing input. Looking up the empty string sends one
    request, without any filter, and returns the first release of the
    whole listing, although no release has the empty key or name. *)
Theorem findReleaseByNameOrKey_empty_lookup :
  fst (findReleaseByNameOrKey "" None (Demo.envOf Demo.releaseServer None)
         Demo.fresh)
  = Returns (Some (Demo.aRelease 1 "Payroll" "Payroll_Prod")) /\
  map f_query
    (apiCalls (log (snd (findReleaseByNameOrKey "" None
                           (Demo.envOf Demo.releaseServer None)
                           Demo.fresh))))
  = [Some []].
Proof. vm_compute. auto. Qed.

(** For a non-empty lookup string the key is tried first, with an
    exact-key filter; a non-empty answer decides, and only an empty one is
    followed by the exact-name query, whose first record, if any, is the
    result. *)
Lemma findReleaseByNameOrKey_key_then_name (env : Env) (w : World)
    (nameOrKey : string) (folderId : option Z) :
  nameOrKey <> "" ->
  let folder := effectiveFolder env folderId in
  let byKey :=
    request releases "GET" "/odata/Releases"
      (Some [("$filter",
              "ProcessKey eq '" ++ JS.encodeURIComponent nameOrKey ++ "'")])
      None folder env w in
  let byName w1 :=
    request releases "GET" "/odata/Releases"
      (Some [("$filter",
              "Name eq '" ++ escapeODataString nameOrKey ++ "'")])
      None folder env w1 in
  findReleaseByNameOrKey nameOrKey folderId env w
  = match byKey with
    | (Returns data, w1) =>
        match value data with
        | first :: _ => (Returns (Some first), w1)
        | [] =>
            match byName w1 with
            | (Returns data', w2) => (Returns (hd_error (value data')), w2)
            | (Throws message, w2) => (Throws message, w2)
            end
        end
    | (Throws message, w1) => (Throws message, w1)
    end.
Proof.
  intros Hne folder byKey byName. subst byKey byName.
  unfold findReleaseByNameOrKey, getReleases, getFolderId, asks, bind, ret.
  rewrite effectiveFolder_idem.
  rewrite (proj2 (given_some (Some nameOrKey) nameOrKey) (conj eq_refl Hne)).
  fold folder.
  destruct (request releases "GET" "/odata/Releases" _ None folder env w)
    as [[data|message] w1]; [|reflexivity].
  destruct (value data) as [|first rest]; [|reflexivity].
  destruct (request releases "GET" "/odata/Releases" _ None folder env w1)
    as [[data'|message] w2]; reflexivity.
Qed.

(** ** Quoting of filter values *)

(** [escapeODataString] doubles every single quote. *)
Lemma escapeODataString_doubles_quotes (v : string) :
  JS.occurrences "'" (escapeODataString v)
  = (2 * JS.occurrences "'" v)%nat.
Proof.
  unfold escapeODataString.
  induction v as [|c rest IH]; simpl; [reflexivity|].
  destruct (Ascii.eqb c "'") eqn:E; simpl.
  - rewrite IH. lia.
  - rewrite E, IH. lia.
Qed.

Lemma hex_digit_not_quote (n : N) :
  (n < 16)%N -> Ascii.eqb (JS.hex_digit n) "'" = false.
Proof.
  intros H.
  assert (Hc : forall m, (m <? 16)%N = true ->
                 Ascii.eqb (JS.hex_digit m) "'" = false).
  { intros m. do 16 (destruct m as [|m] using N.peano_ind;
                     [reflexivity|]; rewrite <- N.add_1_r).
    intros Hm. apply N.ltb_lt in Hm. lia. }
  apply Hc. now apply N.ltb_lt.
Qed.

(** [encodeURIComponent] leaves single quotes as they are, and adds
    none. *)
Lemma encodeURIComponent_keeps_quotes (v : string) :
  JS.occurrences "'" (JS.encodeURIComponent v) = JS.occurrences "'" v.
Proof.
  induction v as [|c rest IH]; simpl; [reflexivity|].
  destruct (JS.uri_unreserved c) eqn:U; simpl.
  - now rewrite IH.
  - assert (Hc : Ascii.eqb c "'" = false).
    { destruct (Ascii.eqb c "'") eqn:E; [|reflexivity].
      apply Ascii.eqb_eq in E. subst c. discriminate. }
    rewrite Hc, IH.
    assert (Hlt : (N_of_ascii c < 256)%N) by apply N_ascii_bounded.
    rewrite hex_digit_not_quote
      by (apply N.Div0.div_lt_upper_bound; lia).
    rewrite hex_digit_not_quote by (apply N.mod_lt; lia).
    reflexivity.
Qed.

(** C8, at the failing inputs. A value with a single quote reaches the
    filter with the quote as it is, not doubled, in the lookups by queue
    name, by release name ([getJobs]), by process key, by job key and by log
    level, which pass the value through [encodeURIComponent]; the quote is
    doubled in the audit-log filters, in the release lookup by name and in
    the release filter of [getFaultedJobs], which use [escapeODataString]. *)
Theorem filter_values_quoting_by_operation :
  (Demo.filtersSent (getQueueDefinitionByName "O'Brien" None)
     = [Some "Name eq 'O'Brien'"] /\
   Demo.filtersSent (getJobs (Demo.jobsOf "O'Brien"))
     = [Some "ReleaseName eq 'O'Brien'"] /\
   Demo.filtersSent (getReleases (Some "O'Brien") None)
     = [Some "ProcessKey eq 'O'Brien'"] /\
   Demo.filtersSent (getRobotLogs (Demo.logsOf "O'Brien" "O'Brien"))
     = [Some "JobKey eq 'O'Brien' and Level eq 'O'Brien'"]) /\
  (Demo.filtersSent (getAuditLogs (Demo.auditOf "O'Brien"))
     = [Some "UserName eq 'O''Brien'"] /\
   Demo.filtersSent (findReleaseByNameOrKey "O'Brien" None)
     = [Some "ProcessKey eq 'O'Brien'"; Some "Name eq 'O''Brien'"] /\
   Demo.filtersSent (getFaultedJobs (Demo.faultedJobsOf "O'Brien"))
     = [Some "State eq 'Faulted' and ReleaseName eq 'O''Brien'"]).
Proof. vm_compute. repeat split. Qed.

(** ** The route of the robot listing *)

Lemma bind_ret_world {A B} (m : M A) (f : A -> B) env w :
  snd (bind m (fun a => ret (f a)) env w) = snd (m env w).
Proof. unfold bind, ret. destruct (m env w) as [[a|e] w']; reflexivity. Qed.

(** C9, at the failing inputs. With folder 0, given with the call or
    configured as the default, [getRobots] goes to the generic route. *)
Theorem getRobots_folder_zero_generic_route :
  map f_endpoint
    (apiCalls (log (snd (getRobots (Demo.robotsIn (Some 0))
                           (Demo.envOf Demo.quietServer None) Demo.fresh))))
  = ["/odata/Robots"] /\
  map f_endpoint
    (apiCalls (log (snd (getRobots (Demo.robotsIn None)
                           (Demo.envOf Demo.quietServer (Some 0))
                           Demo.fresh))))
  = ["/odata/Robots"].
Proof. vm_compute. auto. Qed.

(** With a folder other than 0, given with the call or configured as the
    default, the robot listing goes to the folder's sub-route; without a
    folder it goes to the generic route. *)
Lemma getRobots_route (env : Env) (w : World) (options : RobotsOptions.t) :
  exists new,
    apiCalls (log (snd (getRobots options env w)))
      = (apiCalls (log w) ++ new)%list /\
    (length new <= 1)%nat /\
    (forall id,
       effectiveFolder env (RobotsOptions.folderId options) = Some id ->
       id <> 0 ->
       Forall (fun f =>
                 f_endpoint f
                 = "/odata/Robots/UiPath.Server.Configuration.OData.GetRobotsFromFolder(folderId="
                   ++ JS.String_of_number id ++ ")") new) /\
    (effectiveFolder env (RobotsOptions.folderId options) = None ->
     Forall (fun f => f_endpoint f = "/odata/Robots") new).
Proof.
  unfold getRobots, bind at 1, getFolderId, asks.
  rewrite bind_ret_world.
  match goal with
  | |- context [request robots "GET" ?e ?p None None env w] =>
      destruct (request_frame robots "GET" e p None None env w)
        as (new & Hlog & Hlen & Hall)
  end.
  exists new. split; [exact Hlog|]. split; [exact Hlen|]. split.
  - intros id Hid Hnz. rewrite Hid in Hall.
    destruct (id =? 0)%Z eqn:E; [apply Z.eqb_eq in E; contradiction|].
    eapply Forall_impl; [|exact Hall]. intros f [Hf _]. exact Hf.
  - intros Hnone. rewrite Hnone in Hall.
    eapply Forall_impl; [|exact Hall]. intros f [Hf _]. exact Hf.
Qed.

(** A lookup that matches nothing: the key query, then the name query,
    then [null]. *)
Lemma findReleaseByNameOrKey_key_then_name_witness :
  fst (findReleaseByNameOrKey "Payslips" None
         (Demo.envOf Demo.releaseServer None) Demo.fresh)
  = Returns None.
Proof.
  rewrite (findReleaseByNameOrKey_key_then_name
             (Demo.envOf Demo.releaseServer None) Demo.fresh "Payslips" None)
    by discriminate.
  vm_compute. reflexivity.
Defined.

(** ** What reaches the network *)

Lemma apiCalls_app (l l' : list NetCall) :
  apiCalls (l ++ l') = (apiCalls l ++ apiCalls l')%list.
Proof.
  induction l as [|[f|f] l IH]; simpl; [reflexivity| |]; now rewrite IH.
Qed.

Lemma sends_ret {A} (a : A) env P : sends (ret a) env P.
Proof. intros w. exists []. simpl. now rewrite app_nil_r. Qed.

Lemma sends_throw {A} message env P : sends (@throw A message) env P.
Proof. intros w. exists []. simpl. now rewrite app_nil_r. Qed.

Lemma sends_asks {A} (f : Env -> A) env P : sends (asks f) env P.
Proof. intros w. exists []. simpl. now rewrite app_nil_r. Qed.

Lemma sends_bind {A B} (m : M A) (k : A -> M B) env P :
  sends m env P -> (forall a, sends (k a) env P) -> sends (bind m k) env P.
Proof.
  intros Hm Hk w. destruct (Hm w) as (new1 & E1 & F1). unfold bind.
  destruct (m env w) as [[a|e] w1]; simpl in E1.
  - destruct (Hk a w1) as (new2 & E2 & F2).
    exists (new1 ++ new2)%list. split.
    + now rewrite E2, E1, app_assoc.
    + apply Forall_app. auto.
  - exists new1. auto.
Qed.

Lemma sends_tryCatch {A} (m : M A) (h : string -> M A) env P :
  sends m env P -> (forall e, sends (h e) env P) ->
  sends (tryCatch m h) env P.
Proof.
  intros Hm Hh w. destruct (Hm w) as (new1 & E1 & F1). unfold tryCatch.
  destruct (m env w) as [[a|e] w1]; simpl in E1.
  - exists new1. auto.
  - destruct (Hh e w1) as (new2 & E2 & F2).
    exists (new1 ++ new2)%list. split.
    + now rewrite E2, E1, app_assoc.
    + apply Forall_app. auto.
Qed.

Lemma sends_weaken {A} (m : M A) env (P Q : Fetch -> Prop) :
  (forall f, P f -> Q f) -> sends m env P -> sends m env Q.
Proof.
  intros HPQ Hm w. destruct (Hm w) as (new & E & F).
  exists new. split; [exact E|]. eapply Forall_impl; eassumption.
Qed.

Lemma sends_request {T} (chan : Server -> Channel T) method endpoint params
    body folderId env :
  sends (request chan method endpoint params body folderId) env
    (fun f => f_endpoint f = endpoint /\ f_query f = params).
Proof.
  intros w.
  destruct (request_frame chan method endpoint params body folderId env w)
    as (new & E & _ & F).
  exists new. auto.
Qed.

Lemma sends_forEach {A B} (f : A -> M B) (l : list A) env P :
  (forall a, In a l -> sends (f a) env P) -> sends (forEach f l) env P.
Proof.
  induction l as [|a rest IH]; intros H; simpl.
  - apply sends_ret.
  - apply sends_bind; [apply H; now left|]. intros b.
    apply sends_bind; [apply IH; intros a' Ha'; apply H; now right|].
    intros bs. apply sends_ret.
Qed.

(** The two requests [getQueueItems] can send. *)
Lemma getQueueItems_sends options env :
  sends (getQueueItems options) env
    (fun f =>
       f_endpoint f = "/odata/QueueItems" /\
       (f_query f
        = Some (getQueueItems_buildParams options true
                  (Some (JS.str_or (QueueItemsOptions.orderBy options)
                           "CreationTime desc"))) \/
        f_query f = Some (getQueueItems_buildParams options false None))).
Proof.
  unfold getQueueItems.
  apply sends_bind; [apply sends_asks|]. intros folder.
  apply sends_bind; [|intros data; apply sends_ret].
  apply sends_tryCatch.
  - eapply sends_weaken; [|apply sends_request].
    intros f [H1 H2]. auto.
  - intros message.
    destruct (JS.includes message "Invalid OData query options").
    + eapply sends_weaken; [|apply sends_request].
      intros f [H1 H2]. auto.
    + apply sends_throw.
Qed.

Lemma getQueueStats_loop_sends queueId folder env statuses :
  forall stats,
    sends (getQueueStats_loop queueId folder statuses stats) env
      (countQueryOf queueId).
Proof.
  induction statuses as [|status rest IH]; intros stats; simpl.
  - apply sends_ret.
  - apply sends_bind; [|intros page; apply IH].
    eapply sends_weaken; [|apply getQueueItems_sends].
    intros f [He Hq]. split; [exact He|].
    exists status.
    destruct Hq as [Hq|Hq]; eexists; (split; [exact Hq|]);
      unfold getQueueItems_buildParams, getQueueStats_query; simpl;
      split; reflexivity.
Qed.

(** Whatever the server answers, [getQueueStats] sends nothing but count
    queries for its own queue: no listing of records, for this queue or
    for any other. *)
Lemma getQueueStats_sends_count_queries queueId queueName folderId env :
  sends (getQueueStats queueId queueName folderId) env
    (countQueryOf queueId).
Proof.
  unfold getQueueStats.
  apply sends_bind; [apply sends_asks|]. intros folder.
  apply sends_bind; [apply getQueueStats_loop_sends|].
  intros stats. apply sends_ret.
Qed.

(** Once the queue listing has returned, the dashboard's loop queries the
    items of the first five listed queues and of no other queue, whether it
    runs to the end or stops at a failure. *)
Lemma getDashboardSummary_loop_sends folder env queues acc :
  sends (getDashboardSummary_loop folder (firstn 5 queues) acc) env
    (fun f => exists queue,
       In queue (firstn 5 queues) /\
       countQueryOf (QueueDefinition.Id queue) f).
Proof.
  generalize (firstn 5 queues) as sample. intros sample. revert acc.
  assert (H : forall l acc,
            incl l sample ->
            sends (getDashboardSummary_loop folder l acc) env
              (fun f => exists queue,
                 In queue sample /\
                 countQueryOf (QueueDefinition.Id queue) f)).
  { induction l as [|queue rest IH]; intros acc Hincl; simpl.
    - apply sends_ret.
    - apply sends_bind.
      + eapply sends_weaken; [|apply getQueueStats_sends_count_queries].
        intros f Hf. exists queue. split; [|exact Hf].
        apply Hincl. now left.
      + intros stats. apply IH. intros q Hq. apply Hincl. now right. }
  intros acc. apply H. apply incl_refl.
Qed.

Lemma getJobs_sends options env :
  sends (getJobs options) env (fun f => f_endpoint f = "/odata/Jobs").
Proof.
  unfold getJobs.
  apply sends_bind; [apply sends_asks|]. intros folder.
  apply sends_bind; [|intros data; apply sends_ret].
  apply sends_tryCatch.
  - eapply sends_weaken; [|apply sends_request]. intros f [H _]. exact H.
  - intros message.
    destruct (JS.includes message "Invalid OData query options").
    + eapply sends_weaken; [|apply sends_request]. intros f [H _]. exact H.
    + apply sends_throw.
Qed.

Lemma getJobStats_sends folderId env :
  sends (getJobStats folderId) env (fun f => f_endpoint f = "/odata/Jobs").
Proof.
  assert (Hloop : forall folder states stats,
            sends (getJobStats_loop folder states stats) env
              (fun f => f_endpoint f = "/odata/Jobs")).
  { intros folder. induction states as [|state rest IH]; intros stats; simpl.
    - apply sends_ret.
    - apply sends_bind.
      + apply sends_tryCatch.
        * apply sends_bind; [apply getJobs_sends|].
          intros page. apply sends_ret.
        * intros e. apply sends_ret.
      + intros [page|]; [|apply sends_ret].
        destruct (count page); [apply IH | apply sends_ret]. }
  unfold getJobStats.
  apply sends_bind; [apply sends_asks|]. intros folder.
  apply sends_bind; [apply Hloop|]. intros [stats useFallback].
  apply sends_bind; [|intros s; apply sends_ret].
  destruct useFallback; [|apply sends_ret].
  unfold getJobStats_fallback.
  apply sends_bind; [apply getJobs_sends|]. intros page. apply sends_ret.
Qed.

(** However many queue definitions the listing returns, and however the
    run ends, every request for queue items that [getDashboardSummary]
    sends after the listing is a count query for one of the first five
    listed queues. *)
Lemma getDashboardSummary_queries_first_five (env : Env) (w : World)
    (folderId : option Z) (queues : list QueueDefinition.t) (w1 : World) :
  getQueueDefinitions (effectiveFolder env folderId) env w
    = (Returns queues, w1) ->
  exists new,
    apiCalls (log (snd (getDashboardSummary folderId env w)))
      = (apiCalls (log w1) ++ new)%list /\
    Forall (fun f =>
              f_endpoint f = "/odata/QueueItems" ->
              exists queue,
                In queue (firstn 5 queues) /\
                countQueryOf (QueueDefinition.Id queue) f) new.
Proof.
  intros Hq.
  unfold getDashboardSummary, bind at 1, getFolderId, asks.
  rewrite (bind_returns _ _ _ _ _ _ Hq).
  match goal with
  | |- context [snd (?m env w1)] =>
      assert (H : sends m env
                (fun f =>
                   f_endpoint f = "/odata/Jobs" \/
                   exists queue,
                     In queue (firstn 5 queues) /\
                     countQueryOf (QueueDefinition.Id queue) f))
  end.
  { apply sends_bind.
    - eapply sends_weaken; [|apply getJobStats_sends]. intros f Hf. now left.
    - intros jobStats. apply sends_bind.
      + eapply sends_weaken; [|apply getDashboardSummary_loop_sends].
        intros f Hf. now right.
      + intros [total byStatus]. apply sends_ret. }
  destruct (H w1) as (new & E & F). exists new. split; [exact E|].
  eapply Forall_impl; [|exact F]. intros f [Hjobs|Hqueue] He.
  - rewrite He in Hjobs. discriminate.
  - exact Hqueue.
Qed.

(** Twelve queues are listed; 25 count queries follow, all for the first
    five. *)
Lemma getDashboardSummary_queries_first_five_witness :
  exists new,
    apiCalls (log (snd (getDashboardSummary None
                          (Demo.envOf Demo.busyServer None) Demo.fresh)))
      = (apiCalls (log (snd (getQueueDefinitions None
                               (Demo.envOf Demo.busyServer None)
                               Demo.fresh))) ++ new)%list /\
    Forall (fun f =>
              f_endpoint f = "/odata/QueueItems" ->
              exists queue,
                In queue (firstn 5 Demo.twelveQueues) /\
                countQueryOf (QueueDefinition.Id queue) f) new.
Proof.
  apply (getDashboardSummary_queries_first_five
           (Demo.envOf Demo.busyServer None) Demo.fresh None
           Demo.twelveQueues).
  vm_compute. reflexivity.
Defined.

(** From any world and whatever the server answers, the API requests that
    [getQueueStats] adds to the log are count queries for its own queue
    ([$top=1], one status each): it never lists records, so there is no
    raw-fetch fallback in it. *)
Theorem getQueueStats_only_count_queries (env : Env) (w : World)
    (queueId : Z) (queueName : string) (folderId : option Z) :
  exists new,
    apiCalls (log (snd (getQueueStats queueId queueName folderId env w)))
      = (apiCalls (log w) ++ new)%list /\
    Forall (countQueryOf queueId) new.
Proof. apply getQueueStats_sends_count_queries. Qed.

(** ** The token across calls *)

Lemma exchangeToken_returns env w token w' :
  exchangeToken env w = (Returns token, w') -> accessToken w' = Some token.
Proof.
  unfold exchangeToken, bind, parseBaseUrl, asks, fetchToken.
  destruct (new_URL env (config_baseUrl env)) as [url|e];
    [|discriminate]. simpl.
  destruct (identity (server env) (log w) _);
    simpl; intros H; inversion H; reflexivity.
Qed.

Lemma exchangeToken_throws env w message w' :
  exchangeToken env w = (Throws message, w') ->
  accessToken w' = accessToken w /\ tokenExpiresAt w' = tokenExpiresAt w.
Proof.
  unfold exchangeToken, bind, parseBaseUrl, asks, fetchToken.
  destruct (new_URL env (config_baseUrl env)) as [url|e];
    [|intros H; inversion H; auto]. simpl.
  destruct (identity (server env) (log w) _);
    simpl; intros H; inversion H; auto.
Qed.

(** Whatever [ensureToken] returns is the token in the cache afterwards. *)
Lemma ensureToken_returns env w token w' :
  ensureToken env w = (Returns token, w') -> accessToken w' = Some token.
Proof.
  unfold ensureToken, bind, gets.
  destruct (cachedToken w) as [[cached expiresAt]|] eqn:Hc.
  - unfold Date_now.
    destruct (_ <? _)%Z.
    + intros H. inversion H; subst. simpl.
      apply cachedToken_some in Hc. tauto.
    + apply exchangeToken_returns.
  - apply exchangeToken_returns.
Qed.

Lemma ensureToken_throws env w message w' :
  ensureToken env w = (Throws message, w') ->
  accessToken w' = accessToken w /\ tokenExpiresAt w' = tokenExpiresAt w.
Proof.
  unfold ensureToken, bind, gets.
  destruct (cachedToken w) as [[cached expiresAt]|].
  - unfold Date_now.
    destruct (_ <? _)%Z; [discriminate|].
    intros H. apply exchangeToken_throws in H. exact H.
  - apply exchangeToken_throws.
Qed.

Lemma ensureToken_apiCalls env w :
  apiCalls (log (snd (ensureToken env w))) = apiCalls (log w).
Proof.
  assert (Htok : forall w0,
            apiCalls (log (snd (exchangeToken env w0))) = apiCalls (log w0)).
  { intros w0. apply exchangeToken_apiCalls. }
  unfold ensureToken, bind, gets.
  destruct (cachedToken w) as [[token expiresAt]|]; [|apply Htok].
  unfold Date_now.
  destruct (_ <? _)%Z; [reflexivity|]. now rewrite Htok.
Qed.

(** The two ways a [request] can go: the token is there and one fetch is
    sent, or the token manager throws and nothing is sent. *)
Lemma request_world {T} (chan : Server -> Channel T) method endpoint params
    body folderId env w :
  (exists token w0,
     ensureToken env w = (Returns token, w0) /\
     snd (request chan method endpoint params body folderId env w)
     = record
         (ApiCall
            {| f_method := method; f_base := baseUrl env;
               f_endpoint := endpoint; f_query := params;
               f_headers := getHeaders token folderId;
               f_body := option_map JsonBody body |}) w0) \/
  (exists e w0,
     ensureToken env w = (Throws e, w0) /\
     request chan method endpoint params body folderId env w
     = (Throws e, w0)).
Proof.
  unfold request, bind, asks, fetchApi.
  destruct (ensureToken env w) as [[token|e] w0].
  - left. exists token, w0. split; [reflexivity|]. simpl.
    match goal with
    | |- context [match ?r with Json _ => _ | _ => _ end] => destruct r
    end; reflexivity.
  - right. exists e, w0. auto.
Qed.

(** Every API request goes out with the bearer token that the cache holds
    once the request is over, with the method and the API root it was
    given, and with the folder header exactly when a folder id is passed,
    be it 0. *)
Theorem request_carries_token_and_folder {T} (chan : Server -> Channel T)
    (method endpoint : string) (params : option Params)
    (body : option string) (folderId : option Z) (env : Env) (w : World) :
  exists new,
    apiCalls (log (snd (request chan method endpoint params body folderId
                          env w)))
      = (apiCalls (log w) ++ new)%list /\
    (length new <= 1)%nat /\
    Forall
      (fun f =>
         f_method f = method /\ f_base f = baseUrl env /\
         (exists token,
            accessToken (snd (request chan method endpoint params body
                                folderId env w)) = Some token /\
            param "Authorization" (f_headers f) = Some ("Bearer " ++ token))
         /\
         param "X-UIPATH-OrganizationUnitId" (f_headers f)
         = option_map JS.String_of_number folderId)
      new.
Proof.
  pose proof (ensureToken_apiCalls env w) as Hcalls.
  destruct (request_world chan method endpoint params body folderId env w)
    as [(token & w0 & Hens & Hw) | (e & w0 & Hens & Hr)].
  - rewrite Hens in Hcalls. simpl in Hcalls.
    apply ensureToken_returns in Hens. rewrite Hw.
    eexists [_]. split; [|split; [simpl; lia|]].
    + simpl. rewrite apiCalls_app, Hcalls. reflexivity.
    + constructor; [|constructor]. simpl.
      split; [reflexivity|]. split; [reflexivity|]. split.
      * exists token. split; [exact Hens | reflexivity].
      * destruct folderId; reflexivity.
  - rewrite Hens in Hcalls. simpl in Hcalls. rewrite Hr. simpl.
    exists []. rewrite app_nil_r. auto.
Qed.

(** When the cache cannot serve and the identity server refuses the
    exchange that the client, its base URL being absolute, sends,
    [request] throws the refusal's text, sends nothing to the API, and
    leaves the cache as it was. *)
Theorem request_stops_at_refused_exchange {T} (chan : Server -> Channel T)
    (method endpoint : string) (params : option Params)
    (body : option string) (folderId : option Z) (env : Env) (w : World)
    (url : URL.t) (status : Z) (text : string) :
  ~ tokenUsable env w ->
  new_URL env (config_baseUrl env) = Returns url ->
  identity (server env) (log w) (tokenRequest env (getIdentityUrl url))
  = HttpError status text ->
  fst (request chan method endpoint params body folderId env w)
    = Throws ("Failed to obtain access token: " ++ text) /\
  log (snd (request chan method endpoint params body folderId env w))
    = (log w ++ [TokenExchange (tokenRequest env (getIdentityUrl url))])%list
  /\
  accessToken (snd (request chan method endpoint params body folderId env w))
    = accessToken w /\
  tokenExpiresAt
    (snd (request chan method endpoint params body folderId env w))
    = tokenExpiresAt w.
Proof.
  intros Hn Hurl Hid.
  destruct (ensureToken_unusable_world env w Hn) as (w0 & Hl & Ha & He & Heq).
  assert (Hens : ensureToken env w
                 = (Throws ("Failed to obtain access token: " ++ text),
                    record
                      (TokenExchange (tokenRequest env (getIdentityUrl url)))
                      w0)).
  { rewrite Heq. unfold exchangeToken, bind, parseBaseUrl, asks, fetchToken.
    rewrite Hurl. simpl. rewrite Hl, Hid. reflexivity. }
  destruct (request_world chan method endpoint params body folderId env w)
    as [(token & w1 & H1 & _) | (e & w1 & H1 & Hr)];
    rewrite Hens in H1; inversion H1; subst.
  rewrite Hr. simpl. rewrite Hl. auto.
Qed.

Lemma request_stops_at_refused_exchange_witness :
  fst (getJobs Demo.anyJobs (Demo.envOf Scenario.lockedOut None) Demo.fresh)
  = Throws "Failed to obtain access token: invalid_client".
Proof.
  unfold getJobs, bind at 1, getFolderId, asks.
  unfold bind at 1.
  destruct (request_stops_at_refused_exchange jobs "GET" "/odata/Jobs"
              (Some (getJobs_buildParams Demo.anyJobs true
                       (Some (JS.str_or (JobsOptions.orderBy Demo.anyJobs)
                                "CreationTime desc"))))
              None
              (effectiveFolder (Demo.envOf Scenario.lockedOut None)
                 (JobsOptions.folderId Demo.anyJobs))
              (Demo.envOf Scenario.lockedOut None) Demo.fresh
              {| URL.protocol := "https:"; URL.host := "cloud.uipath.com";
                 URL.pathname := "/org/tenant" |}
              401 "invalid_client") as (H & _).
  - intros (t & e & Ht & _). discriminate.
  - reflexivity.
  - reflexivity.
  - vm_compute. reflexivity.
Defined.

(** After an exchange that brought a non-empty token (the client's base
    URL being absolute), the next call is served from the cache, without a
    request, as long as the clock it reads is more than five minutes short
    of the expiry. *)
Theorem token_reused_within_lifetime (env : Env) (w : World)
    (url : URL.t) (data : TokenResponse) :
  ~ tokenUsable env w ->
  new_URL env (config_baseUrl env) = Returns url ->
  identity (server env) (log w) (tokenRequest env (getIdentityUrl url))
  = Json data ->
  access_token data <> "" ->
  clock env (ticks (snd (ensureToken env w)))
    < lastReading env (snd (ensureToken env w))
      + expires_in data * 1000 - 5 * 60 * 1000 ->
  fst (ensureToken env (snd (ensureToken env w)))
    = Returns (access_token data) /\
  log (snd (ensureToken env (snd (ensureToken env w))))
    = log (snd (ensureToken env w)).
Proof.
  intros Hn Hurl Hid Hne Hclock.
  destruct (ensureToken_unusable env w Hn) as (w0 & Hl & Heq).
  rewrite Heq in *. rewrite <- Hl in Hid.
  destruct (exchangeToken_success env w0 url data Hurl Hid) as (_ & Ha & He).
  destruct (ensureToken_usable env (snd (exchangeToken env w0)))
    as (token & Ht & Hr & Hlog).
  - exists (access_token data),
      (lastReading env (snd (exchangeToken env w0))
       + expires_in data * 1000).
    repeat split; assumption.
  - rewrite Ha in Ht. inversion Ht; subst. auto.
Qed.

Lemma token_reused_within_lifetime_witness :
  fst (ensureToken (Demo.envOf Demo.quietServer None)
         (snd (ensureToken (Demo.envOf Demo.quietServer None) Demo.fresh)))
  = Returns "token-1".
Proof.
  apply (token_reused_within_lifetime (Demo.envOf Demo.quietServer None)
           Demo.fresh
           {| URL.protocol := "https:"; URL.host := "cloud.uipath.com";
              URL.pathname := "/org/tenant" |}
           {| access_token := "token-1"; expires_in := 3600 |}).
  - intros (t & e & Ht & _). discriminate.
  - reflexivity.
  - reflexivity.
  - discriminate.
  - vm_compute. reflexivity.
Defined.

(** A token that lives five minutes or less is never served from the
    cache: with a clock that does not run backwards, the call after the
    exchange (the client's base URL being absolute) exchanges again. *)
Theorem short_lived_token_never_reused (env : Env) (w : World)
    (url : URL.t) (data : TokenResponse) :
  (forall n m, (n <= m)%nat -> clock env n <= clock env m) ->
  ~ tokenUsable env w ->
  new_URL env (config_baseUrl env) = Returns url ->
  identity (server env) (log w) (tokenRequest env (getIdentityUrl url))
  = Json data ->
  expires_in data <= 300 ->
  ~ tokenUsable env (snd (ensureToken env w)).
Proof.
  intros Hmono Hn Hurl Hid Hshort.
  destruct (ensureToken_unusable env w Hn) as (w0 & Hl & Heq).
  rewrite Heq. rewrite <- Hl in Hid.
  destruct (exchangeToken_success env w0 url data Hurl Hid) as (_ & _ & He).
  intros (token & expiresAt & _ & _ & Hexp & Hlt).
  rewrite He in Hexp. inversion Hexp; subst. unfold lastReading in Hlt.
  pose proof (Hmono (pred (ticks (snd (exchangeToken env w0))))
                (ticks (snd (exchangeToken env w0))) (Nat.le_pred_l _)).
  lia.
Qed.

Lemma short_lived_token_never_reused_witness :
  ~ tokenUsable (Demo.envOf Scenario.shortLived None)
      (snd (ensureToken (Demo.envOf Scenario.shortLived None) Demo.fresh)).
Proof.
  apply (short_lived_token_never_reused (Demo.envOf Scenario.shortLived None)
           Demo.fresh
           {| URL.protocol := "https:"; URL.host := "cloud.uipath.com";
              URL.pathname := "/org/tenant" |}
           {| access_token := "brief"; expires_in := 300 |}).
  - intros n m H. cbn -[Z.add Z.mul Z.of_nat]. lia.
  - intros (t & e & Ht & _). discriminate.
  - reflexivity.
  - reflexivity.
  - cbn. lia.
Defined.

(** ** Refusals at the HTTP level *)

Lemma includes_cons c s needle :
  JS.includes (String c s) needle
  = if String.prefix needle (String c s) then true else JS.includes s needle.
Proof. reflexivity. Qed.

Lemma includes_app_r (a b needle : string) :
  JS.includes b needle = true -> JS.includes (a ++ b) needle = true.
Proof.
  intros H. induction a as [|c a IH]; [exact H|].
  change (String c a ++ b) with (String c (a ++ b)).
  rewrite includes_cons. destruct (String.prefix needle _); auto.
Qed.

Lemma prefix_app (a b : string) : String.prefix a (a ++ b) = true.
Proof.
  induction a as [|c a IH]; simpl.
  - destruct b; reflexivity.
  - destruct (ascii_dec c c); [exact IH | contradiction].
Qed.

(** What a [request] throws when the API answers with a failure status:
    the status and the body, behind a fixed prefix. *)
Lemma request_refused {T} (chan : Server -> Channel T) method endpoint params
    body folderId env w token w0 status text :
  ensureToken env w = (Returns token, w0) ->
  chan (server env) (log w0)
    {| f_method := method; f_base := baseUrl env; f_endpoint := endpoint;
       f_query := params; f_headers := getHeaders token folderId;
       f_body := option_map JsonBody body |}
  = HttpError status text ->
  request chan method endpoint params body folderId env w
  = (Throws ("API request failed (" ++ JS.String_of_number status ++ "): "
             ++ text),
     record
       (ApiCall
          {| f_method := method; f_base := baseUrl env;
             f_endpoint := endpoint; f_query := params;
             f_headers := getHeaders token folderId;
             f_body := option_map JsonBody body |}) w0).
Proof.
  intros Hens Hreply. unfold request.
  rewrite (bind_returns _ _ _ _ _ _ Hens).
  unfold bind, asks, fetchApi. simpl. rewrite Hreply. reflexivity.
Qed.

(** Whatever the status code, a failure reply of the job listing whose
    body contains "Invalid OData query options" makes [getJobs] send the
    query again without [$count] and [$orderby]; the outcome of that second
    request is the outcome of the call. *)
Theorem refused_query_is_retried (env : Env) (w : World)
    (options : JobsOptions.t) (token : string) (w0 : World)
    (status : Z) (text : string) :
  let folder := effectiveFolder env (JobsOptions.folderId options) in
  let full :=
    {| f_method := "GET"; f_base := baseUrl env;
       f_endpoint := "/odata/Jobs";
       f_query :=
         Some (getJobs_buildParams options true
                 (Some (JS.str_or (JobsOptions.orderBy options)
                          "CreationTime desc")));
       f_headers := getHeaders token folder;
       f_body := None |} in
  ensureToken env w = (Returns token, w0) ->
  jobs (server env) (log w0) full = HttpError status text ->
  JS.includes text "Invalid OData query options" = true ->
  getJobs options env w
  = match request jobs "GET" "/odata/Jobs"
            (Some (getJobs_buildParams options false None)) None folder env
            (record (ApiCall full) w0) with
    | (Returns data, w2) =>
        (Returns {| items := value data; count := odata_count data |}, w2)
    | (Throws message, w2) => (Throws message, w2)
    end.
Proof.
  intros folder full Hens Hreply Hinc. subst full.
  pose proof (request_refused jobs "GET" "/odata/Jobs" _ None folder env w
                token w0 status text Hens Hreply) as Hthrow.
  unfold getJobs, bind at 1, getFolderId, asks. fold folder.
  unfold bind at 1.
  rewrite (tryCatch_throws _ _ _ _ _ _ Hthrow).
  rewrite (includes_app_r _ _ _ (includes_app_r _ _ _
             (includes_app_r _ _ _ Hinc))).
  unfold bind.
  destruct (request jobs "GET" "/odata/Jobs" _ None folder env _)
    as [[data|e] w2]; reflexivity.
Qed.

Lemma refused_query_is_retried_witness :
  fst (getJobs Demo.anyJobs
         (Demo.envOf (Demo.jobsRefusing "Invalid OData query options.") None)
         Demo.fresh)
  = Returns {| items := Demo.threeJobs; count := None |}.
Proof.
  rewrite (refused_query_is_retried
             (Demo.envOf (Demo.jobsRefusing "Invalid OData query options.")
                None)
             Demo.fresh Demo.anyJobs "token-1"
             (snd (ensureToken
                     (Demo.envOf
                        (Demo.jobsRefusing "Invalid OData query options.")
                        None) Demo.fresh))
             400 "Invalid OData query options.").
  - vm_compute. reflexivity.
  - vm_compute. reflexivity.
  - vm_compute. reflexivity.
  - vm_compute. reflexivity.
Defined.

(** ** Listings that count locally *)

Lemma param_app (k : string) (a b : Params) :
  param k (a ++ b)%list
  = match param k a with
    | Some v => Some v
    | None => param k b
    end.
Proof.
  induction a as [|[k' v] a IH]; simpl; [reflexivity|].
  destruct (String.eqb k k'); [reflexivity | exact IH].
Qed.

Lemma param_delete_same (k : string) (ps : Params) :
  param k (delete k ps) = None.
Proof.
  induction ps as [|[k' v] ps IH]; simpl; [reflexivity|].
  destruct (String.eqb k k') eqn:E; [exact IH|].
  simpl. now rewrite E.
Qed.

Lemma param_delete_other (k k' : string) (ps : Params) :
  k <> k' -> param k (delete k' ps) = param k ps.
Proof.
  intros Hne. induction ps as [|[k0 v] ps IH]; simpl; [reflexivity|].
  destruct (String.eqb k' k0) eqn:E.
  - apply String.eqb_eq in E. subst k0.
    destruct (String.eqb_spec k k'); [contradiction | exact IH].
  - simpl. destruct (String.eqb k k0); [reflexivity | exact IH].
Qed.

Lemma local_count_shape {T} (chan : Server -> Channel (ODataResponse T))
    endpoint folder counted retry env w :
  CountsLocally
    (tryCatch
       (data <- request chan "GET" endpoint (Some counted) None folder ;;
        ret {| items := value data; count := odata_count data |})
       (fun message =>
          if JS.includes message "Invalid OData"
          then
            data <- request chan "GET" endpoint (Some retry) None folder ;;
            ret {| items := value data;
                   count := Some (Z.of_nat (length (value data))) |}
          else throw message))
    chan endpoint folder counted retry env w.
Proof.
  unfold CountsLocally. split; [|split].
  - intros data w1 H. apply tryCatch_returns.
    now rewrite (bind_returns _ _ _ _ _ _ H).
  - intros message w1 H Hi.
    rewrite (tryCatch_throws _ _ _ _ message w1)
      by now apply bind_throws.
    rewrite Hi. unfold bind.
    destruct (request chan "GET" endpoint (Some retry) None folder env w1)
      as [[data|e] w2]; reflexivity.
  - intros message w1 H Hi.
    rewrite (tryCatch_throws _ _ _ _ message w1)
      by now apply bind_throws.
    now rewrite Hi.
Qed.

Lemma CountsLocally_ext {T} (op op' : M (Paged T)) chan endpoint folder
    counted retry env w :
  op env w = op' env w ->
  CountsLocally op' chan endpoint folder counted retry env w ->
  CountsLocally op chan endpoint folder counted retry env w.
Proof. unfold CountsLocally. intros ->. auto. Qed.

(** [getSessions], [getAssets] and [getProcessSchedules] send a counted
    query, and after a refusal the same query without [$count], nothing
    else changed; [getAuditLogs] drops [$orderby] as well. After such a
    retry the count they report is the number of records on the page that
    came back, never an unknown count. *)
Theorem listings_count_locally_after_refusal (env : Env) (w : World) :
  (forall sessions options,
     exists counted retry,
       param "$count" counted = Some "true" /\
       param "$count" retry = None /\
       (forall k, k <> "$count" -> param k retry = param k counted) /\
       CountsLocally (getSessions sessions options) (fun _ => sessions)
         "/odata/Sessions"
         (effectiveFolder env (SessionsOptions.folderId options))
         counted retry env w)
  /\
  (forall assets options,
     exists counted retry,
       param "$count" counted = Some "true" /\
       param "$count" retry = None /\
       (forall k, k <> "$count" -> param k retry = param k counted) /\
       CountsLocally (getAssets assets options) (fun _ => assets)
         "/odata/Assets"
         (effectiveFolder env (AssetsOptions.folderId options))
         counted retry env w)
  /\
  (forall schedules options,
     exists counted retry,
       param "$count" counted = Some "true" /\
       param "$count" retry = None /\
       (forall k, k <> "$count" -> param k retry = param k counted) /\
       CountsLocally (getProcessSchedules schedules options)
         (fun _ => schedules) "/odata/ProcessSchedules"
         (effectiveFolder env (ProcessSchedulesOptions.folderId options))
         counted retry env w)
  /\
  (forall options,
     exists counted retry,
       param "$count" counted = Some "true" /\
       param "$orderby" counted = Some "ExecutionTime desc" /\
       param "$count" retry = None /\ param "$orderby" retry = None /\
       (forall k, k <> "$count" -> k <> "$orderby" ->
                  param k retry = param k counted) /\
       CountsLocally (getAuditLogs options) auditLogs "/odata/AuditLogs"
         None counted retry env w).
Proof.
  split; [|split; [|split]].
  - intros sessions options. eexists. eexists.
    split; [|split; [|split]].
    4: { eapply CountsLocally_ext; [|apply local_count_shape].
         reflexivity. }
    + rewrite !param_app. simpl.
      now rewrite param_filterParam_other by discriminate.
    + apply param_delete_same.
    + intros k Hk. now apply param_delete_other.
  - intros assets options. eexists. eexists.
    split; [|split; [|split]].
    4: { eapply CountsLocally_ext; [|apply local_count_shape].
         reflexivity. }
    + reflexivity.
    + apply param_delete_same.
    + intros k Hk. now apply param_delete_other.
  - intros schedules options. eexists. eexists.
    split; [|split; [|split]].
    4: { eapply CountsLocally_ext; [|apply local_count_shape].
         reflexivity. }
    + rewrite !param_app. simpl.
      now rewrite param_filterParam_other by discriminate.
    + apply param_delete_same.
    + intros k Hk. now apply param_delete_other.
  - intros options. eexists. eexists.
    split; [|split; [|split; [|split; [|split]]]].
    6: { eapply CountsLocally_ext; [|apply local_count_shape].
         reflexivity. }
    + rewrite !param_app. simpl.
      now rewrite param_filterParam_other by discriminate.
    + rewrite !param_app. reflexivity.
    + rewrite param_delete_other by discriminate. apply param_delete_same.
    + apply param_delete_same.
    + intros k Hk Ho. rewrite param_delete_other by assumption.
      now apply param_delete_other.
Qed.

(** Busy sessions of folder 3, from a server that refuses [$count]: two
    requests, the second without [$count]; the count is the page's size. *)
Lemma listings_count_locally_after_refusal_witness :
  fst (getSessions touchySessions Scenario.busySessions
         (Demo.envOf Demo.quietServer None) Demo.fresh)
  = Returns {| items := Scenario.someSessions; count := Some 2 |}.
Proof.
  destruct (listings_count_locally_after_refusal
              (Demo.envOf Demo.quietServer None) Demo.fresh) as (H & _).
  destruct (H touchySessions Scenario.busySessions)
    as (counted & retry & _ & _ & _ & _ & _ & _).
  vm_compute. reflexivity.
Defined.

(** ** Faulted jobs *)

Lemma prefix_refl (a : string) : String.prefix a a = true.
Proof.
  induction a as [|c a IH]; simpl; [reflexivity|].
  destruct (ascii_dec c c); [exact IH | contradiction].
Qed.

Lemma join_prefix (sep a : string) (rest : list string) :
  String.prefix a (JS.join sep (a :: rest)) = true.
Proof.
  destruct rest as [|b rest].
  - apply prefix_refl.
  - change (JS.join sep (a :: b :: rest))
      with (a ++ sep ++ JS.join sep (b :: rest)).
    apply prefix_app.
Qed.

Lemma getFaultedJobs_sends options env :
  sends (getFaultedJobs options) env faultedOnly.
Proof.
  unfold getFaultedJobs.
  apply sends_bind; [apply sends_asks|]. intros folder.
  apply sends_bind.
  - apply sends_tryCatch.
    + apply sends_bind; [|intros data; apply sends_ret].
      eapply sends_weaken; [|apply sends_request].
      intros f [He Hq]. split; [exact He|].
      eexists. eexists. split; [exact Hq|]. split; [reflexivity|].
      apply join_prefix.
    + intros message. destruct (JS.includes message "Invalid OData").
      * apply sends_bind; [|intros data; apply sends_ret].
        eapply sends_weaken; [|apply sends_request].
        intros f [He Hq]. split; [exact He|].
        eexists. eexists. split; [exact Hq|]. split; [reflexivity|].
        apply join_prefix.
      * apply sends_throw.
  - intros jobs. apply sends_bind; [apply sends_asks|].
    intros parse. apply sends_ret.
Qed.

(** Whatever the options and whatever the server answers, every request
    of [getFaultedJobs], the retry without [$orderby] included, asks the
    job listing for faulted jobs: its filter begins with
    [State eq 'Faulted']. *)
Theorem getFaultedJobs_asks_for_faulted_only (env : Env) (w : World)
    (options : FaultedJobsOptions.t) :
  exists new,
    apiCalls (log (snd (getFaultedJobs options env w)))
      = (apiCalls (log w) ++ new)%list /\
    Forall faultedOnly new.
Proof. apply getFaultedJobs_sends. Qed.

(** ** Totals and counters *)

Lemma getQueueStats_loop_pages queueId folder env statuses :
  forall stats w s w',
    getQueueStats_loop queueId folder statuses stats env w = (Returns s, w') ->
    exists pages,
      length pages = length statuses /\
      forEach (fun status =>
                 getQueueItems (getQueueStats_query queueId folder status))
        statuses env w = (Returns pages, w').
Proof.
  induction statuses as [|status rest IH]; intros stats w s w' H; simpl in H.
  - apply ret_inv in H. destruct H as [_ <-].
    exists []. split; reflexivity.
  - unbind H as page w1 Hpage.
    destruct (IH _ _ _ _ H) as (pages & Hlen & Hrun).
    exists (page :: pages). split; [simpl; now rewrite Hlen|].
    simpl. rewrite (bind_returns _ _ _ _ _ _ Hpage).
    now rewrite (bind_returns _ _ _ _ _ _ Hrun).
Qed.

Lemma getQueueStats_returns_inv (env : Env) (w : World) (queueId : Z)
    (queueName : string) (folderId : option Z) (stats : QueueStats.t)
    (w' : World) :
  getQueueStats queueId queueName folderId env w = (Returns stats, w') ->
  QueueStats.totalItems stats
  = QueueStats.newItems stats + QueueStats.inProgressItems stats
    + QueueStats.successfulItems stats + QueueStats.failedItems stats
    + QueueStats.abandonedItems stats /\
  QueueStats.queueId stats = queueId /\
  QueueStats.queueName stats = queueName.
Proof.
  intros H. unfold getQueueStats in H.
  unbind H as folder w1 Hf. unfold getFolderId, asks in Hf.
  inversion Hf; subst; clear Hf.
  unbind H as s w2 Hloop. unret H as <-.
  destruct (getQueueStats_loop_pages _ _ _ _ _ _ _ _ Hloop)
    as (pages & Hlen & Hrun).
  rewrite (getQueueStats_loop_run _ _ _ _ _ _ _ _ Hrun) in Hloop.
  inversion Hloop as [Hs]. clear Hloop.
  destruct pages as [|p1 [|p2 [|p3 [|p4 [|p5 [|p6 pages]]]]]];
    try discriminate Hlen.
  unfold getQueueStats_rate.
  destruct (_ >? 0)%Z; cbn -[Z.add]; repeat split; lia.
Qed.

(** Whenever [getQueueStats] returns, [totalItems] is the sum of the five
    per-status counters, and the statistics carry the id and the name the
    caller passed. *)
Theorem getQueueStats_total_is_sum (env : Env) (w : World) (queueId : Z)
    (queueName : string) (folderId : option Z) (stats : QueueStats.t)
    (w' : World) :
  getQueueStats queueId queueName folderId env w = (Returns stats, w') ->
  QueueStats.totalItems stats
  = QueueStats.newItems stats + QueueStats.inProgressItems stats
    + QueueStats.successfulItems stats + QueueStats.failedItems stats
    + QueueStats.abandonedItems stats /\
  QueueStats.queueId stats = queueId /\
  QueueStats.queueName stats = queueName.
Proof. apply getQueueStats_returns_inv. Qed.

Lemma getQueueStats_total_is_sum_witness :
  exists stats,
    fst (getQueueStats 7 "Orders" None (Demo.envOf Demo.ordersServer None)
           Demo.fresh) = Returns stats /\
    QueueStats.totalItems stats = 20.
Proof.
  eexists. split; [vm_compute; reflexivity|].
  edestruct (getQueueStats_total_is_sum (Demo.envOf Demo.ordersServer None)
               Demo.fresh 7 "Orders" None) as (H & _).
  - vm_compute. reflexivity.
  - rewrite H. reflexivity.
Defined.

Lemma getJobStats_loop_step folder env state rest stats w s b w' :
  getJobStats_loop folder (state :: rest) stats env w = (Returns (s, b), w') ->
  b = true \/
  exists n w1,
    getJobStats_loop folder rest (getJobStats_add state n stats) env w1
    = (Returns (s, b), w').
Proof.
  intros H. cbn [getJobStats_loop] in H.
  unbind H as page w1 Hpage.
  destruct page as [page|].
  - destruct (count page) as [n|].
    + right. exists n, w1. exact H.
    + left. unret H as E. congruence.
  - left. unret H as E. congruence.
Qed.

Lemma getJobStats_loop_done folder env stats w s w' :
  getJobStats_loop folder getJobStats_states stats env w
  = (Returns (s, false), w') ->
  JobStats.totalJobs s - JobStats.totalJobs stats
  = JobStats.pendingJobs s + JobStats.runningJobs s
    + JobStats.successfulJobs s + JobStats.faultedJobs s
    + (JobStats.stoppedJobs s - JobStats.stoppedJobs stats).
Proof.
  intros H. unfold getJobStats_states in H.
  destruct stats as [total pending running successful faulted stopped rate].
  do 6 (apply getJobStats_loop_step in H;
        destruct H as [H | (? & ? & H)]; [discriminate H|];
        unfold getJobStats_add, JobStats.set_totalJobs,
          JobStats.set_pendingJobs, JobStats.set_runningJobs,
          JobStats.set_successfulJobs, JobStats.set_faultedJobs,
          JobStats.set_stoppedJobs in H;
        cbn [JobStats.totalJobs JobStats.pendingJobs JobStats.runningJobs
             JobStats.successfulJobs JobStats.faultedJobs
             JobStats.stoppedJobs JobStats.successRate] in H).
  cbn [getJobStats_loop] in H. unret H as E.
  injection E as <-.
  cbn [JobStats.totalJobs JobStats.pendingJobs JobStats.runningJobs
       JobStats.successfulJobs JobStats.faultedJobs JobStats.stoppedJobs].
  lia.
Qed.

Lemma length_by_state (jobs : list Job.t) :
  Z.of_nat (length jobs)
  = countState JobState.Pending jobs + countState JobState.Running jobs
    + countState JobState.Successful jobs + countState JobState.Faulted jobs
    + countState JobState.Stopped jobs + countState JobState.Terminated jobs
    + uncounted jobs.
Proof.
  unfold uncounted.
  induction jobs as [|job jobs IH]; [reflexivity|].
  rewrite !countState_cons.
  change (length (job :: jobs)) with (S (length jobs)).
  rewrite Nat2Z.inj_succ.
  destruct (Job.State job); cbn [JobState.eqb]; lia.
Qed.

Lemma uncounted_nonneg (jobs : list Job.t) : 0 <= uncounted jobs.
Proof. unfold uncounted, countState. lia. Qed.

(** Whenever [getJobStats] returns, [totalJobs] accounts for the five
    counters. On the per-state path [totalJobs] is their sum. On the
    fallback path [totalJobs] is the number of fetched records, and it
    exceeds the sum of the counters by the number of records in the states
    that have no counter ([Stopping], [Suspended], [Resumed]). *)
Theorem getJobStats_total_accounts_for_counters (env : Env) (w : World)
    (folderId : option Z) (stats : JobStats.t) (w' : World) :
  getJobStats folderId env w = (Returns stats, w') ->
  let counted :=
    JobStats.pendingJobs stats + JobStats.runningJobs stats
    + JobStats.successfulJobs stats + JobStats.faultedJobs stats
    + JobStats.stoppedJobs stats in
  JobStats.totalJobs stats = counted \/
  exists page w1 w2,
    getJobs (getJobStats_rawQuery (effectiveFolder env folderId)) env w1
    = (Returns page, w2) /\
    JobStats.totalJobs stats = Z.of_nat (length (items page)) /\
    JobStats.totalJobs stats = counted + uncounted (items page).
Proof.
  intros H counted. subst counted. unfold getJobStats in H.
  unbind H as folder w1 Hf. unfold getFolderId, asks in Hf.
  inversion Hf; subst; clear Hf.
  unbind H as r w2 Hloop. destruct r as [s b].
  unbind H as s2 w3 Hs. unret H as <-.
  assert (Hrate : forall x,
             JobStats.totalJobs (getJobStats_rate x) = JobStats.totalJobs x /\
             JobStats.pendingJobs (getJobStats_rate x)
             = JobStats.pendingJobs x /\
             JobStats.runningJobs (getJobStats_rate x)
             = JobStats.runningJobs x /\
             JobStats.successfulJobs (getJobStats_rate x)
             = JobStats.successfulJobs x /\
             JobStats.faultedJobs (getJobStats_rate x)
             = JobStats.faultedJobs x /\
             JobStats.stoppedJobs (getJobStats_rate x)
             = JobStats.stoppedJobs x).
  { intros x. unfold getJobStats_rate.
    destruct (_ >? 0)%Z; repeat split; reflexivity. }
  destruct (Hrate s2) as (-> & -> & -> & -> & -> & ->). clear Hrate.
  destruct b.
  - right. unfold getJobStats_fallback in Hs.
    unbind Hs as page w4 Hpage. unret Hs as <-.
    exists page, w2, w4. split; [exact Hpage|].
    rewrite getJobStats_count_fold. cbn -[Z.add Z.of_nat].
    split; [reflexivity|].
    pose proof (length_by_state (items page)). lia.
  - left. unret Hs as <-.
    apply getJobStats_loop_done in Hloop. cbn -[Z.add Z.sub] in Hloop. lia.
Qed.

(** On the server whose running-job count is unknown the fallback fetches
    three records, one of them stopped. *)
Lemma getJobStats_total_accounts_for_counters_witness :
  exists stats,
    fst (getJobStats None (Demo.envOf Demo.busyServer None) Demo.fresh)
    = Returns stats /\
    0 + 0 + JobStats.successfulJobs stats + JobStats.faultedJobs stats + 1
    <= JobStats.totalJobs stats.
Proof.
  eexists. split; [vm_compute; reflexivity|].
  edestruct (getJobStats_total_accounts_for_counters
               (Demo.envOf Demo.busyServer None) Demo.fresh None)
    as [H | (page & w1 & w2 & _ & _ & H)].
  - vm_compute. reflexivity.
  - rewrite H. vm_compute. discriminate.
  - rewrite H. pose proof (uncounted_nonneg (items page)).
    cbn -[Z.add uncounted]. lia.
Defined.

Lemma getJobStats_loop_run folder env states :
  forall stats w pages ns w',
    forEach (fun state => getJobs (getJobStats_query folder state))
      states env w = (Returns pages, w') ->
    map count pages = map Some ns ->
    getJobStats_loop folder states stats env w
    = (Returns
         (fold_left (fun st sn => getJobStats_add (fst sn) (snd sn) st)
            (combine states ns) stats, false), w').
Proof.
  induction states as [|state rest IH]; intros stats w pages ns w' H Hn;
    simpl in H.
  - apply ret_inv in H. destruct H as [<- <-].
    destruct ns; [reflexivity | discriminate Hn].
  - unbind H as page w1 Hpage.
    unbind H as pages' w2 Hrest.
    apply ret_inv in H. destruct H as [<- <-].
    destruct ns as [|n ns]; [discriminate Hn|].
    injection Hn as Hc Hn.
    cbn [getJobStats_loop].
    rewrite (bind_returns _ _ _ _ _ _ (attempt_returns _ _ _ _ _ Hpage)).
    rewrite Hc. cbn [combine fold_left fst snd].
    exact (IH _ _ _ _ _ Hrest Hn).
Qed.

(** When the six count queries of [getJobStats] all come back with a known
    count, the operation returns after them, without a further request:
    every state's counter is its count, [Stopped] and [Terminated] share
    [stoppedJobs], [totalJobs] is the sum of the six counts and the rate
    is taken over the successful and the faulted jobs. *)
Theorem getJobStats_per_state_counts (env : Env) (w : World)
    (folderId : option Z) (pages : list (Paged Job.t))
    (pending running successful faulted stopped terminated : Z)
    (w' : World) :
  forEach
    (fun state =>
       getJobs (getJobStats_query (effectiveFolder env folderId) state))
    [JobState.Pending; JobState.Running; JobState.Successful;
     JobState.Faulted; JobState.Stopped; JobState.Terminated] env w
  = (Returns pages, w') ->
  map count pages
  = [Some pending; Some running; Some successful; Some faulted;
     Some stopped; Some terminated] ->
  getJobStats folderId env w
  = (Returns
       {| JobStats.totalJobs :=
            pending + running + successful + faulted + stopped + terminated;
          JobStats.pendingJobs := pending;
          JobStats.runningJobs := running;
          JobStats.successfulJobs := successful;
          JobStats.faultedJobs := faulted;
          JobStats.stoppedJobs := stopped + terminated;
          JobStats.successRate :=
            if (successful + faulted >? 0)%Z
            then Some (percentage successful (successful + faulted))
            else None |}, w').
Proof.
  intros H Hn.
  unfold getJobStats, bind at 1, getFolderId, asks.
  unfold bind at 1.
  rewrite (getJobStats_loop_run _ env getJobStats_states _ w pages
             [pending; running; successful; faulted; stopped; terminated]
             w' H Hn).
  unfold bind, ret, getJobStats_rate, getJobStats_states, getJobStats_add.
  cbn -[Z.add Z.gtb percentage].
  replace (0 + pending + running + successful + faulted + stopped
           + terminated)
    with (pending + running + successful + faulted + stopped + terminated)
    by lia.
  replace (0 + stopped + terminated) with (stopped + terminated) by lia.
  destruct (successful + faulted >? 0)%Z; reflexivity.
Qed.

(** All six counts are 2: twelve jobs, four of them stopped or
    terminated, and a rate of 50. *)
Lemma getJobStats_per_state_counts_witness :
  fst (getJobStats None (Demo.envOf Scenario.twoOfEach None) Demo.fresh)
  = Returns
      {| JobStats.totalJobs := 12; JobStats.pendingJobs := 2;
         JobStats.runningJobs := 2; JobStats.successfulJobs := 2;
         JobStats.faultedJobs := 2; JobStats.stoppedJobs := 4;
         JobStats.successRate := Some (percentage 2 4) |}.
Proof.
  erewrite (getJobStats_per_state_counts
              (Demo.envOf Scenario.twoOfEach None) Demo.fresh None _
              2 2 2 2 2 2).
  - reflexivity.
  - vm_compute. reflexivity.
  - reflexivity.
Defined.

(** ** Process performance *)

Lemma buckets_within (jobs : list Job.t) :
  lengthOf (inState JobState.Successful jobs)
  + lengthOf (inState JobState.Faulted jobs)
  + lengthOf
      (filter (fun j => JobState.eqb (Job.State j) JobState.Stopped
                        || JobState.eqb (Job.State j) JobState.Terminated)
         jobs)
  + lengthOf (inState JobState.Running jobs)
  + lengthOf (inState JobState.Pending jobs)
  <= lengthOf jobs.
Proof.
  unfold lengthOf, inState.
  induction jobs as [|job jobs IH]; [reflexivity|].
  cbn [filter]. destruct (Job.State job);
    cbn [JobState.eqb orb length]; lia.
Qed.

Lemma percentage_percent (successful other : Z) :
  0 <= successful -> 0 <= other -> 0 < successful + other ->
  (0 <= percentage successful (successful + other)
   /\ percentage successful (successful + other) <= 100)%Q.
Proof.
  intros Hs Ho Hc. unfold percentage.
  destruct (successful + other) as [|c|c] eqn:E; try lia.
  unfold Qle, Qdiv, Qmult, Qinv, inject_Z.
  cbn -[Z.mul Z.add]. split; nia.
Qed.

(** Whenever [getProcessPerformance] returns, its figures are consistent:
    the five buckets together hold no more jobs than [totalExecutions],
    the rate is the percentage of successful among successful and faulted
    jobs (none when there is none of either) and lies between 0 and 100,
    and at most ten recent jobs are listed. *)
Theorem getProcessPerformance_figures_consistent (env : Env) (w : World)
    (processName : string) (options : ProcessPerformanceOptions.t)
    (p : ProcessPerformance.t) (w' : World) :
  getProcessPerformance processName options env w = (Returns p, w') ->
  ProcessPerformance.successful p + ProcessPerformance.faulted p
  + ProcessPerformance.stopped p + ProcessPerformance.running p
  + ProcessPerformance.pending p
  <= ProcessPerformance.totalExecutions p /\
  rateAgrees (ProcessPerformance.successful p)
    (ProcessPerformance.faulted p) (ProcessPerformance.successRate p) /\
  percent (ProcessPerformance.successRate p) /\
  (length (ProcessPerformance.recentJobs p) <= 10)%nat.
Proof.
  intros H. unfold getProcessPerformance in H.
  unbind H as folder w1 Hf. unbind H as page w2 Hpage.
  unbind H as parse w3 Hparse. unret H as <-.
  cbn [ProcessPerformance.successful ProcessPerformance.faulted
       ProcessPerformance.stopped ProcessPerformance.running
       ProcessPerformance.pending ProcessPerformance.totalExecutions
       ProcessPerformance.successRate ProcessPerformance.recentJobs].
  split; [apply buckets_within|].
  split; [apply rate_cases|].
  split.
  - destruct (_ >? 0)%Z eqn:E; [|exact I].
    apply Z.gtb_lt in E. cbn [percent].
    apply percentage_percent; unfold lengthOf in *; lia.
  - apply firstn_le_length.
Qed.

Lemma getProcessPerformance_figures_consistent_witness :
  exists p,
    fst (getProcessPerformance "Invoices" Scenario.allRuns
           (Demo.envOf Scenario.invoiceRuns None) Demo.fresh) = Returns p /\
    ProcessPerformance.totalExecutions p = 5 /\
    percent (ProcessPerformance.successRate p).
Proof.
  eexists. split; [vm_compute; reflexivity|].
  split; [reflexivity|].
  eapply (getProcessPerformance_figures_consistent
            (Demo.envOf Scenario.invoiceRuns None) Demo.fresh "Invoices"
            Scenario.allRuns).
  vm_compute. reflexivity.
Defined.

Lemma fold_bounds (ds : list Z) :
  forall lo hi sum k,
    0 <= k -> k * lo <= sum -> sum <= k * hi ->
    (k + Z.of_nat (length ds)) * fold_left Z.min ds lo
    <= fold_left Z.add ds sum /\
    fold_left Z.add ds sum
    <= (k + Z.of_nat (length ds)) * fold_left Z.max ds hi.
Proof.
  induction ds as [|d ds IH]; intros lo hi sum k Hk Hlo Hhi.
  - cbn [fold_left length]. lia.
  - cbn [fold_left length]. rewrite Nat2Z.inj_succ.
    replace (k + Z.succ (Z.of_nat (length ds)))
      with ((k + 1) + Z.of_nat (length ds)) by lia.
    assert (Hmin : k * Z.min lo d <= k * lo)
      by (apply Z.mul_le_mono_nonneg_l; lia).
    assert (Hmax : k * hi <= k * Z.max hi d)
      by (apply Z.mul_le_mono_nonneg_l; lia).
    apply IH; lia.
Qed.

Lemma Math_round_ratio (sum n : Z) :
  0 < n ->
  JS.Math_round (inject_Z sum / inject_Z n)%Q = (2 * sum + n) / (2 * n).
Proof.
  intros Hn. destruct n as [|n|n]; try lia.
  unfold JS.Math_round, Qfloor, Qdiv, Qmult, Qinv, Qplus, inject_Z.
  cbn -[Z.mul Z.add Z.div]. f_equal; lia.
Qed.

(** Whenever [getProcessPerformance] returns, the three duration figures
    are absent together or present together, and when they are present
    the average lies between the minimum and the maximum. *)
Theorem getProcessPerformance_durations_ordered (env : Env) (w : World)
    (processName : string) (options : ProcessPerformanceOptions.t)
    (p : ProcessPerformance.t) (w' : World) :
  getProcessPerformance processName options env w = (Returns p, w') ->
  match ProcessPerformance.avgDurationSeconds p,
        ProcessPerformance.minDurationSeconds p,
        ProcessPerformance.maxDurationSeconds p with
  | None, None, None => True
  | Some avg, Some shortest, Some longest =>
      shortest <= avg /\ avg <= longest
  | _, _, _ => False
  end.
Proof.
  intros H. unfold getProcessPerformance in H.
  unbind H as folder w1 Hf. unbind H as page w2 Hpage.
  unbind H as parse w3 Hparse. unret H as <-.
  cbn [ProcessPerformance.avgDurationSeconds
       ProcessPerformance.minDurationSeconds
       ProcessPerformance.maxDurationSeconds].
  destruct (nonNull _) as [|d ds]; [exact I|].
  destruct (fold_bounds ds d d (0 + d) 1) as [Hlo Hhi]; try lia.
  change (fold_left Z.add (d :: ds) 0) with (fold_left Z.add ds (0 + d)).
  unfold lengthOf. cbn [length]. rewrite Nat2Z.inj_succ.
  set (n := Z.succ (Z.of_nat (length ds))).
  replace (1 + Z.of_nat (length ds)) with n in Hlo, Hhi by lia.
  assert (Hn : 0 < n) by lia.
  rewrite (Math_round_ratio _ _ Hn). split.
  - apply Z.div_le_lower_bound; lia.
  - apply Z.lt_succ_r. apply Z.div_lt_upper_bound; lia.
Qed.

(** Three successful runs of 60, 61 and 120 seconds: the average of
    80.33 is reported as 80. *)
Lemma getProcessPerformance_durations_ordered_witness :
  exists p,
    fst (getProcessPerformance "Invoices" Scenario.allRuns
           (Demo.envOf Scenario.invoiceRuns None) Demo.fresh) = Returns p /\
    ProcessPerformance.minDurationSeconds p = Some 60 /\
    ProcessPerformance.avgDurationSeconds p = Some 80 /\
    ProcessPerformance.maxDurationSeconds p = Some 120 /\
    60 <= 80 <= 120.
Proof.
  eexists. split; [vm_compute; reflexivity|].
  split; [reflexivity|]. split; [reflexivity|]. split; [reflexivity|].
  exact (getProcessPerformance_durations_ordered
           (Demo.envOf Scenario.invoiceRuns None) Demo.fresh "Invoices"
           Scenario.allRuns _ _ eq_refl).
Defined.

(** ** The two URLs *)

Lemma includes_refl (s : string) : JS.includes s s = true.
Proof. destruct s; cbn [JS.includes]; now rewrite prefix_refl. Qed.

(** Whatever the configuration, the Orchestrator URL that
    [buildOrchestratorUrl] returns contains "orchestrator_", and building
    from a URL it returned changes nothing. *)
Theorem buildOrchestratorUrl_idempotent (toLowerCase : string -> string)
    (baseUrl tenantName : string) :
  let url := buildOrchestratorUrl toLowerCase baseUrl tenantName in
  JS.includes url "orchestrator_" = true /\
  buildOrchestratorUrl toLowerCase url tenantName = url.
Proof.
  assert (H : JS.includes
                (buildOrchestratorUrl toLowerCase baseUrl tenantName)
                "orchestrator_" = true).
  { unfold buildOrchestratorUrl.
    destruct (JS.includes baseUrl "orchestrator_") eqn:E;
      cbn [negb]; [exact E|].
    destruct (More.endsWith _ _).
    - apply includes_app_r. reflexivity.
    - apply includes_app_r. apply includes_app_r. apply includes_app_r.
      reflexivity. }
  cbv zeta. split; [exact H|].
  unfold buildOrchestratorUrl at 1. now rewrite H.
Qed.

Lemma endsWith_cons c s suffix :
  More.endsWith (String c s) suffix = false ->
  String.eqb (String c s) suffix = false /\ More.endsWith s suffix = false.
Proof.
  cbn [More.endsWith]. destruct (String.eqb (String c s) suffix).
  - discriminate.
  - auto.
Qed.

Lemma stripTrailingSlash_snoc (s : string) :
  More.stripTrailingSlash (s ++ "/") = s.
Proof.
  induction s as [|c s IH]; [reflexivity|].
  cbn [append More.stripTrailingSlash].
  destruct (s ++ "/")%string eqn:E.
  - destruct s; discriminate E.
  - now rewrite IH.
Qed.

Lemma stripTrailingSlash_none (s : string) :
  More.endsWith s "/" = false -> More.stripTrailingSlash s = s.
Proof.
  induction s as [|c s IH]; intros H; [reflexivity|].
  apply endsWith_cons in H. destruct H as [Hc Hs].
  cbn [More.stripTrailingSlash]. destruct s as [|d s].
  - cbn in Hc. destruct (Ascii.eqb c "/"); [discriminate Hc | reflexivity].
  - now rewrite (IH Hs).
Qed.

Lemma prefix_before_slash (needle : string) :
  needle <> "" -> More.endsWith needle "/" = false ->
  forall s, String.prefix needle (s ++ "/") = String.prefix needle s.
Proof.
  induction needle as [|a needle IH]; intros Hne Hend s; [congruence|].
  apply endsWith_cons in Hend. destruct Hend as [Ha Hend].
  destruct s as [|b s].
  - cbn [append String.prefix].
    destruct (ascii_dec a "/") as [->|]; [|reflexivity].
    destruct needle; [discriminate Ha | reflexivity].
  - cbn [append String.prefix].
    destruct (ascii_dec a b); [|reflexivity].
    destruct needle as [|a' needle]; [destruct s; reflexivity|].
    apply IH; [discriminate | exact Hend].
Qed.

Lemma includes_before_slash (needle : string) :
  needle <> "" -> More.endsWith needle "/" = false ->
  forall s, JS.includes (s ++ "/") needle = JS.includes s needle.
Proof.
  intros Hne Hend. induction s as [|c s IH].
  - change ("" ++ "/")%string with (String "/" "").
    rewrite includes_cons.
    change (String "/" "") with ("" ++ "/")%string.
    rewrite (prefix_before_slash _ Hne Hend).
    cbn [JS.includes]. now destruct (String.prefix needle "").
  - change (String c s ++ "/")%string with (String c (s ++ "/")).
    rewrite !includes_cons.
    change (String c (s ++ "/")) with (String c s ++ "/")%string.
    rewrite (prefix_before_slash _ Hne Hend). now rewrite IH.
Qed.

(** A trailing slash on a base URL that does not name "orchestrator_"
    makes no difference to the Orchestrator URL. *)
Theorem buildOrchestratorUrl_ignores_trailing_slash
    (toLowerCase : string -> string) (baseUrl tenantName : string) :
  JS.includes baseUrl "orchestrator_" = false ->
  More.endsWith baseUrl "/" = false ->
  buildOrchestratorUrl toLowerCase (baseUrl ++ "/") tenantName
  = buildOrchestratorUrl toLowerCase baseUrl tenantName.
Proof.
  intros Hinc Hend. unfold buildOrchestratorUrl.
  rewrite includes_before_slash; [|discriminate | reflexivity].
  rewrite Hinc. cbn [negb].
  rewrite stripTrailingSlash_snoc.
  now rewrite (stripTrailingSlash_none _ Hend).
Qed.

Lemma buildOrchestratorUrl_ignores_trailing_slash_witness :
  buildOrchestratorUrl Scenario.toLowerCase
    "https://cloud.uipath.com/acme/Prod/" "prod"
  = "https://cloud.uipath.com/acme/Prod/orchestrator_".
Proof.
  change "https://cloud.uipath.com/acme/Prod/"
    with ("https://cloud.uipath.com/acme/Prod" ++ "/")%string.
  rewrite (buildOrchestratorUrl_ignores_trailing_slash Scenario.toLowerCase
             "https://cloud.uipath.com/acme/Prod" "prod");
    reflexivity.
Defined.

Lemma includes_slash_cons c s :
  JS.includes (String c s) "/" = false ->
  Ascii.eqb c "/" = false /\ JS.includes s "/" = false.
Proof.
  rewrite includes_cons. cbn [String.prefix].
  destruct (ascii_dec "/" c) as [<-|Hc]; [destruct s; discriminate|].
  intros H. split; [|exact H].
  apply Ascii.eqb_neq. congruence.
Qed.

Lemma split_segment (segment rest : string) :
  JS.includes segment "/" = false ->
  More.split (segment ++ "/" ++ rest) = segment :: More.split rest.
Proof.
  induction segment as [|c segment IH]; intros H; [reflexivity|].
  apply includes_slash_cons in H. destruct H as [Hc Hs].
  cbn [append More.split]. rewrite Hc.
  change (segment ++ String "/" rest)%string
    with (segment ++ "/" ++ rest)%string.
  now rewrite (IH Hs).
Qed.

Lemma split_single (segment : string) :
  JS.includes segment "/" = false -> More.split segment = [segment].
Proof.
  induction segment as [|c segment IH]; intros H; [reflexivity|].
  apply includes_slash_cons in H. destruct H as [Hc Hs].
  cbn [More.split]. rewrite Hc. now rewrite (IH Hs).
Qed.

(** The identity URL is built from the first non-empty segment of the base
    URL's path and from nothing after it: whether the path is that segment
    alone or goes on after it, the token endpoint is
    [protocol//host/segment/identity_/connect/token]. *)
Theorem getIdentityUrl_uses_first_segment
    (protocol host organization rest : string) :
  organization <> "" ->
  JS.includes organization "/" = false ->
  let expected :=
    (protocol ++ "//" ++ host ++ "/" ++ organization
     ++ "/identity_/connect/token")%string in
  getIdentityUrl
    {| URL.protocol := protocol; URL.host := host;
       URL.pathname := "/" ++ organization |} = expected /\
  getIdentityUrl
    {| URL.protocol := protocol; URL.host := host;
       URL.pathname := "/" ++ organization ++ "/" ++ rest |} = expected.
Proof.
  intros Hne Hslash expected. subst expected. unfold getIdentityUrl.
  cbn [URL.protocol URL.host URL.pathname].
  change ("/" ++ organization)%string with (String "/" organization).
  change ("/" ++ organization ++ "/" ++ rest)%string
    with (String "/" (organization ++ "/" ++ rest)).
  cbn [More.split Ascii.eqb Bool.eqb].
  rewrite (split_single _ Hslash), (split_segment _ _ Hslash).
  cbn [filter JS.truthy].
  destruct organization as [|c organization]; [congruence|].
  split; reflexivity.
Qed.

Lemma getIdentityUrl_uses_first_segment_witness :
  getIdentityUrl
    {| URL.protocol := "https:"; URL.host := "cloud.uipath.com";
       URL.pathname := "/acme/Prod/orchestrator_" |}
  = "https://cloud.uipath.com/acme/identity_/connect/token".
Proof.
  destruct (getIdentityUrl_uses_first_segment "https:" "cloud.uipath.com"
              "acme" "Prod/orchestrator_") as [_ H].
  - discriminate.
  - reflexivity.
  - exact H.
Defined.

(** ** Escaped values as OData literals *)

Lemma readLiteralBody_escaped (v rest : string) :
  String.prefix "'" rest = false ->
  readLiteralBody (JS.replace_quotes v ++ "'" ++ rest) = Some (v, rest).
Proof.
  intros Hrest. induction v as [|c v IH].
  - cbn [JS.replace_quotes append readLiteralBody Ascii.eqb Bool.eqb].
    destruct rest as [|d rest]; [reflexivity|].
    cbn [String.prefix] in Hrest.
    destruct (Ascii.eqb d "'") eqn:E; [|reflexivity].
    apply Ascii.eqb_eq in E. subst d.
    destruct (ascii_dec "'" "'"); [|contradiction].
    destruct rest; discriminate Hrest.
  - cbn [JS.replace_quotes]. destruct (Ascii.eqb c "'") eqn:E.
    + apply Ascii.eqb_eq in E. subst c.
      cbn [append readLiteralBody Ascii.eqb Bool.eqb].
      cbn [append] in IH. now rewrite IH.
    + cbn [append readLiteralBody]. rewrite E.
      cbn [append] in IH. now rewrite IH.
Qed.

(** A value escaped by [escapeODataString] and put between single quotes
    reads back, as an OData string literal, as exactly that value, and the
    text after the closing quote is left untouched: no value can end the
    literal early. *)
Theorem escaped_literal_reads_back (v rest : string) :
  String.prefix "'" rest = false ->
  readLiteral ("'" ++ escapeODataString v ++ "'" ++ rest) = Some (v, rest).
Proof.
  intros Hrest. unfold escapeODataString.
  change ("'" ++ JS.replace_quotes v ++ "'" ++ rest)%string
    with (String "'" (JS.replace_quotes v ++ "'" ++ rest)).
  cbn [readLiteral Ascii.eqb Bool.eqb].
  now apply readLiteralBody_escaped.
Qed.

Lemma escaped_literal_reads_back_witness :
  readLiteral "'x'' or Name ne ''' and Status eq 'New'"
  = Some ("x' or Name ne '", " and Status eq 'New'").
Proof.
  apply (escaped_literal_reads_back "x' or Name ne '"
           " and Status eq 'New'").
  reflexivity.
Defined.

(** ** The tool handlers *)

Lemma request_call {T} (chan : Server -> Channel T) method endpoint params
    body folderId env w :
  exists new,
    apiCalls (log (snd (request chan method endpoint params body folderId
                          env w)))
      = (apiCalls (log w) ++ new)%list /\
    (length new <= 1)%nat /\
    Forall
      (fun f =>
         exists token,
           f = {| f_method := method; f_base := baseUrl env;
                  f_endpoint := endpoint; f_query := params;
                  f_headers := getHeaders token folderId;
                  f_body := option_map JsonBody body |})
      new.
Proof.
  pose proof (ensureToken_apiCalls env w) as Hcalls.
  destruct (request_world chan method endpoint params body folderId env w)
    as [(token & w0 & Hens & Hw) | (e & w0 & Hens & Hr)].
  - rewrite Hens in Hcalls. simpl in Hcalls. rewrite Hw.
    eexists [_]. split; [|split; [simpl; lia|]].
    + simpl. rewrite apiCalls_app, Hcalls. reflexivity.
    + constructor; [|constructor]. exists token. reflexivity.
  - rewrite Hens in Hcalls. simpl in Hcalls. rewrite Hr. simpl.
    exists []. rewrite app_nil_r. auto.
Qed.

Lemma folder_header token folderId :
  param "X-UIPATH-OrganizationUnitId" (getHeaders token folderId)
  = option_map JS.String_of_number folderId.
Proof. destruct folderId; reflexivity. Qed.

(** The handler of [uipath_get_queue_stats]. When the queue is not found
    the handler throws [Queue not found: <name>] straight after the lookup.
    When it is found, every further request is a count query for the id of
    the queue that was found, and the statistics carry that queue's id and
    its name as the server spells it. *)
Theorem executeTool_get_queue_stats_lookup (env : Env) (w : World)
    (queueName : string) (folderId : option Z) :
  (forall w1,
     getQueueDefinitionByName queueName folderId env w = (Returns None, w1) ->
     executeTool_get_queue_stats queueName folderId env w
     = (Throws ("Queue not found: " ++ queueName), w1)) /\
  (forall queue w1,
     getQueueDefinitionByName queueName folderId env w
     = (Returns (Some queue), w1) ->
     (exists new,
        apiCalls (log (snd (executeTool_get_queue_stats queueName folderId
                              env w)))
          = (apiCalls (log w1) ++ new)%list /\
        Forall (countQueryOf (QueueDefinition.Id queue)) new) /\
     (forall stats w',
        executeTool_get_queue_stats queueName folderId env w
        = (Returns stats, w') ->
        QueueStats.queueId stats = QueueDefinition.Id queue /\
        QueueStats.queueName stats = QueueDefinition.Name queue)).
Proof.
  split.
  - intros w1 H. unfold executeTool_get_queue_stats.
    now rewrite (bind_returns _ _ _ _ _ _ H).
  - intros queue w1 H. unfold executeTool_get_queue_stats.
    rewrite (bind_returns _ _ _ _ _ _ H). split.
    + apply getQueueStats_sends_count_queries.
    + intros stats w' Hr.
      apply getQueueStats_returns_inv in Hr. tauto.
Qed.

(** The queue "Orders" is found by name and has id 7; the queue "Bills"
    is not found. *)
Lemma executeTool_get_queue_stats_lookup_witness :
  (exists stats,
     fst (executeTool_get_queue_stats "Orders" None
            (Demo.envOf Scenario.ordersByName None) Demo.fresh)
     = Returns stats /\
     QueueStats.queueId stats = 7) /\
  fst (executeTool_get_queue_stats "Bills" None
         (Demo.envOf Scenario.ordersByName None) Demo.fresh)
  = Throws "Queue not found: Bills".
Proof.
  split.
  - eexists. split; [vm_compute; reflexivity|].
    destruct (executeTool_get_queue_stats_lookup
                (Demo.envOf Scenario.ordersByName None) Demo.fresh
                "Orders" None) as [_ H].
    edestruct H as [_ Hs]; [vm_compute; reflexivity|].
    edestruct Hs as [Hid _]; [vm_compute; reflexivity|].
    exact Hid.
  - destruct (executeTool_get_queue_stats_lookup
                (Demo.envOf Scenario.ordersByName None) Demo.fresh
                "Bills" None) as [H _].
    erewrite H; [reflexivity|]. vm_compute. reflexivity.
Defined.

Lemma bind_ret_page {T} (m : M (Paged T)) env w :
  bind m (fun page => ret {| items := items page; count := count page |})
    env w
  = m env w.
Proof.
  unfold bind, ret. destruct (m env w) as [[[i c]|e] w1]; reflexivity.
Qed.

(** The handler of [uipath_get_queue_items]. A queue id other than 0 is
    used as it is and no lookup is made, whether a name is given or not.
    Without a name the id goes to the listing as it is. With a name and no
    id, or the id 0, the queue is looked up by name: if it is not found the
    handler throws [Queue not found: <name>] without listing anything, and
    if it is found the items of the found queue are listed. *)
Theorem executeTool_get_queue_items_lookup (env : Env) (w : World)
    (parsed : QueueItemsArgs.t) :
  let listing queueId :=
    getQueueItems
      {| QueueItemsOptions.queueId := queueId;
         QueueItemsOptions.status := QueueItemsArgs.status parsed;
         QueueItemsOptions.folderId := QueueItemsArgs.folderId parsed;
         QueueItemsOptions.top := Some (QueueItemsArgs.limit parsed);
         QueueItemsOptions.skip := None;
         QueueItemsOptions.orderBy := None |} in
  let lookup name :=
    getQueueDefinitionByName name (QueueItemsArgs.folderId parsed) in
  (forall id,
     QueueItemsArgs.queueId parsed = Some id -> id <> 0 ->
     executeTool_get_queue_items parsed env w = listing (Some id) env w) /\
  (JS.given (QueueItemsArgs.queueName parsed) = None ->
   executeTool_get_queue_items parsed env w
   = listing (QueueItemsArgs.queueId parsed) env w) /\
  (forall name,
     QueueItemsArgs.queueName parsed = Some name -> name <> "" ->
     QueueItemsArgs.queueId parsed = None \/
     QueueItemsArgs.queueId parsed = Some 0 ->
     (forall w1,
        lookup name env w = (Returns None, w1) ->
        executeTool_get_queue_items parsed env w
        = (Throws ("Queue not found: " ++ name), w1)) /\
     (forall queue w1,
        lookup name env w = (Returns (Some queue), w1) ->
        executeTool_get_queue_items parsed env w
        = listing (Some (QueueDefinition.Id queue)) env w1)).
Proof.
  intros listing lookup. subst listing lookup. cbv beta.
  split; [|split].
  - intros id Hid Hne. unfold executeTool_get_queue_items. rewrite Hid.
    apply Z.eqb_neq in Hne. rewrite Hne.
    destruct (JS.given _);
      (rewrite (bind_returns _ _ env w (Some id) w eq_refl);
       apply bind_ret_page).
  - intros Hname. unfold executeTool_get_queue_items. rewrite Hname.
    rewrite (bind_returns _ _ env w (QueueItemsArgs.queueId parsed) w
               eq_refl).
    apply bind_ret_page.
  - intros name Hname Hne Hid.
    assert (Hgiven : JS.given (QueueItemsArgs.queueName parsed) = Some name)
      by (apply given_some; auto).
    assert (Hlookup :
              match QueueItemsArgs.queueId parsed with
              | None => Some name
              | Some id => if (id =? 0)%Z then Some name else None
              end = Some name)
      by (destruct Hid as [-> | ->]; reflexivity).
    unfold executeTool_get_queue_items. rewrite Hgiven, Hlookup.
    split.
    + intros w1 H.
      erewrite bind_throws; [reflexivity|].
      now rewrite (bind_returns _ _ _ _ _ _ H).
    + intros queue w1 H.
      erewrite bind_returns;
        [|now rewrite (bind_returns _ _ _ _ _ _ H)].
      apply bind_ret_page.
Qed.

(** The handler of [uipath_start_job]. When no release is found it throws
    [No release found for process: <name>] straight after the lookup, and
    a failed lookup fails the handler in the same way: nothing is started.
    When a release is found, at most one further request is sent: a [POST]
    to [StartJobs] in the caller's folder, whose body names the key of the
    found release, the strategy [ModernJobsCount], the job count (1 in
    place of 0) and the input arguments when there are any. *)
Theorem executeTool_start_job_starts_found_release {Arguments_ : Type}
    (stringifyArguments : Arguments_ -> string)
    (stringifyRequest : StartInfo.t -> string) (env : Env) (w : World)
    (processName : string) (folderId : option Z)
    (inputArguments : option Arguments_) (jobsCount : Z) :
  let tool :=
    executeTool_start_job Arguments_ stringifyArguments stringifyRequest
      processName folderId inputArguments jobsCount in
  (forall w1,
     findReleaseByNameOrKey processName folderId env w = (Returns None, w1) ->
     tool env w
     = (Throws ("No release found for process: " ++ processName), w1)) /\
  (forall e w1,
     findReleaseByNameOrKey processName folderId env w = (Throws e, w1) ->
     tool env w = (Throws e, w1)) /\
  (forall release w1,
     findReleaseByNameOrKey processName folderId env w
     = (Returns (Some release), w1) ->
     exists new,
       apiCalls (log (snd (tool env w))) = (apiCalls (log w1) ++ new)%list /\
       (length new <= 1)%nat /\
       Forall
         (fun f =>
            f_method f = "POST" /\
            f_endpoint f
            = "/odata/Jobs/UiPath.Server.Configuration.OData.StartJobs" /\
            f_query f = None /\
            f_body f
            = Some (JsonBody
                      (stringifyRequest
                         {| StartInfo.ReleaseKey := Release.Key release;
                            StartInfo.Strategy := Strategy.ModernJobsCount;
                            StartInfo.JobsCount :=
                              if (jobsCount =? 0)%Z then 1 else jobsCount;
                            StartInfo.InputArguments :=
                              option_map stringifyArguments
                                inputArguments |})) /\
            param "X-UIPATH-OrganizationUnitId" (f_headers f)
            = option_map JS.String_of_number (effectiveFolder env folderId))
         new).
Proof.
  intros tool. subst tool. unfold executeTool_start_job.
  split; [|split].
  - intros w1 H. now rewrite (bind_returns _ _ _ _ _ _ H).
  - intros e w1 H. now rewrite (bind_throws _ _ _ _ _ _ H).
  - intros release w1 H. rewrite (bind_returns _ _ _ _ _ _ H).
    unfold startJob, bind at 1, getFolderId, asks.
    cbn [StartJobOptions.folderId StartJobOptions.strategy
         StartJobOptions.jobsCount StartJobOptions.inputArguments].
    match goal with
    | |- context [request ?c ?m ?e ?p ?b ?f] =>
        destruct (request_call c m e p b f env w1) as (new & E & Hlen & F);
        pose proof E as E'; unfold bind;
        destruct (request c m e p b f env w1) as [[data|err] w2]
    end; cbn [snd] in *; exists new; (split; [exact E|]);
      (split; [exact Hlen|]);
      (eapply Forall_impl; [|exact F]);
      intros f (token & ->); cbn [f_method f_endpoint f_query f_body
                                  f_headers option_map JS.num_or];
      rewrite folder_header; repeat split; reflexivity.
Qed.

(** "Invoices" is found by key; one job is started for the release key
    "Invoices", although a count of 0 was asked for. "Payroll" is not
    found. *)
Lemma executeTool_start_job_starts_found_release_witness :
  map f_body
    (apiCalls
       (log (snd (executeTool_start_job string Scenario.noArguments
                    Scenario.keyOnly "Invoices" None None 0
                    (Demo.envOf Scenario.invoicing None) Demo.fresh))))
  = [None; Some (JsonBody "Invoices")] /\
  fst (executeTool_start_job string Scenario.noArguments Scenario.keyOnly
         "Payroll" None None 1 (Demo.envOf Scenario.invoicing None)
         Demo.fresh)
  = Throws "No release found for process: Payroll".
Proof.
  split.
  - reflexivity.
  - destruct (executeTool_start_job_starts_found_release
                Scenario.noArguments Scenario.keyOnly
                (Demo.envOf Scenario.invoicing None) Demo.fresh
                "Payroll" None None 1) as [H _].
    erewrite H; [reflexivity|]. vm_compute. reflexivity.
Defined.

(** ** The folder overview *)

Lemma getFolderOverview_count_fold (jobs : list Job.t) :
  forall c,
    fold_left getFolderOverview_count jobs c
    = {| JobsByState.Pending :=
           JobsByState.Pending c + countState JobState.Pending jobs;
         JobsByState.Running :=
           JobsByState.Running c + countState JobState.Running jobs;
         JobsByState.Successful :=
           JobsByState.Successful c + countState JobState.Successful jobs;
         JobsByState.Faulted :=
           JobsByState.Faulted c + countState JobState.Faulted jobs;
         JobsByState.Stopped :=
           JobsByState.Stopped c + countState JobState.Stopped jobs
           + countState JobState.Terminated jobs |}.
Proof.
  induction jobs as [|job jobs IH]; intros [p r s f t].
  - cbn -[Z.add]. f_equal; lia.
  - cbn [fold_left]. rewrite IH. rewrite !countState_cons.
    unfold getFolderOverview_count.
    destruct (Job.State job);
      cbn [JobState.eqb JobsByState.Pending JobsByState.Running
           JobsByState.Successful JobsByState.Faulted JobsByState.Stopped];
      f_equal; lia.
Qed.

(** The folder overview counts the fetched jobs as the fallback of
    [getJobStats] does: its five counters and its total are those of the
    raw tally of the same records ([Terminated] counted as stopped), so
    [totalJobs] exceeds the sum of the counters by the jobs in [Stopping],
    [Suspended] and [Resumed]. The folder is never left without a name. *)
Theorem getFolderOverview_counts_like_raw_tally (folderId : Z)
    (folders : list Folder.t) (jobs : list Job.t)
    (queues : list QueueDefinition.t) (releases : list Release.t)
    (robots : list Robot.t) :
  let overview :=
    getFolderOverview_assemble folderId folders jobs queues releases robots in
  let counts := FolderOverview.jobCounts overview in
  let tally := rawTally jobs in
  JobsByState.Pending counts = JobStats.pendingJobs tally /\
  JobsByState.Running counts = JobStats.runningJobs tally /\
  JobsByState.Successful counts = JobStats.successfulJobs tally /\
  JobsByState.Faulted counts = JobStats.faultedJobs tally /\
  JobsByState.Stopped counts = JobStats.stoppedJobs tally /\
  FolderOverview.totalJobs overview = JobStats.totalJobs tally /\
  FolderOverview.totalJobs overview
  = JobsByState.Pending counts + JobsByState.Running counts
    + JobsByState.Successful counts + JobsByState.Faulted counts
    + JobsByState.Stopped counts + uncounted jobs /\
  FolderOverview.folderName overview <> "".
Proof.
  intros overview counts tally. subst overview counts tally.
  unfold getFolderOverview_assemble, rawTally.
  cbn [FolderOverview.jobCounts FolderOverview.totalJobs
       FolderOverview.folderName JobStats.pendingJobs JobStats.runningJobs
       JobStats.successfulJobs JobStats.faultedJobs JobStats.stoppedJobs
       JobStats.totalJobs].
  rewrite getFolderOverview_count_fold.
  cbn [JobsByState.Pending JobsByState.Running JobsByState.Successful
       JobsByState.Faulted JobsByState.Stopped].
  pose proof (length_by_state jobs) as Hlen.
  repeat (split; [lia|]).
  unfold JS.str_or. destruct (option_map _ _) as [[|c s]|]; cbn; discriminate.
Qed.

(** ** The dashboard's totals *)

Lemma getDashboardSummary_loop_sampled folder env queues :
  forall acc w r w',
    getDashboardSummary_loop folder queues acc env w = (Returns r, w') ->
    exists sampled,
      forEach (fun queue =>
                 getQueueStats (QueueDefinition.Id queue)
                   (QueueDefinition.Name queue) folder)
        queues env w = (Returns sampled, w') /\
      Forall
        (fun s =>
           QueueStats.totalItems s
           = QueueStats.newItems s + QueueStats.inProgressItems s
             + QueueStats.successfulItems s + QueueStats.failedItems s
             + QueueStats.abandonedItems s)
        sampled.
Proof.
  induction queues as [|queue rest IH]; intros acc w r w' H;
    cbn [getDashboardSummary_loop] in H.
  - apply ret_inv in H. destruct H as [_ <-].
    exists []. split; [reflexivity | constructor].
  - unbind H as stats w1 Hstats.
    destruct (IH _ _ _ _ H) as (sampled & Hrun & Hall).
    exists (stats :: sampled). split.
    + cbn [forEach]. rewrite (bind_returns _ _ _ _ _ _ Hstats).
      now rewrite (bind_returns _ _ _ _ _ _ Hrun).
    + constructor; [|exact Hall].
      apply getQueueStats_returns_inv in Hstats. tauto.
Qed.

Lemma sumOf_totalItems (sampled : list QueueStats.t) :
  Forall
    (fun s =>
       QueueStats.totalItems s
       = QueueStats.newItems s + QueueStats.inProgressItems s
         + QueueStats.successfulItems s + QueueStats.failedItems s
         + QueueStats.abandonedItems s)
    sampled ->
  sumOf QueueStats.totalItems sampled
  = sumOf QueueStats.newItems sampled
    + sumOf QueueStats.inProgressItems sampled
    + sumOf QueueStats.successfulItems sampled
    + sumOf QueueStats.failedItems sampled
    + sumOf QueueStats.abandonedItems sampled.
Proof.
  induction 1 as [|s sampled Hs _ IH]; [reflexivity|].
  unfold sumOf in *. cbn [fold_right]. lia.
Qed.

(** Whenever [getDashboardSummary] returns, it has listed the queues,
    taken the job statistics and the statistics of the first five queues,
    in that order, and its figures are related as follows.
    [queueItemsByStatus] has no entry for abandoned items, which
    [totalQueueItems] does count: the total exceeds the four entries by
    the abandoned items of the sampled queues. [activeJobs] is the pending
    plus the running jobs, and the queue rate is the percentage of
    successful among successful and failed items (none without any). *)
Theorem getDashboardSummary_total_counts_abandoned (env : Env) (w : World)
    (folderId : option Z) (summary : DashboardSummary.t) (w' : World) :
  getDashboardSummary folderId env w = (Returns summary, w') ->
  let byStatus := DashboardSummary.queueItemsByStatus summary in
  let byState := DashboardSummary.jobsByState summary in
  exists queues w1 jobStats w2 sampled,
    getQueueDefinitions (effectiveFolder env folderId) env w
    = (Returns queues, w1) /\
    getJobStats (effectiveFolder env folderId) env w1
    = (Returns jobStats, w2) /\
    forEach (fun queue =>
               getQueueStats (QueueDefinition.Id queue)
                 (QueueDefinition.Name queue) (effectiveFolder env folderId))
      (firstn 5 queues) env w2 = (Returns sampled, w') /\
    DashboardSummary.totalQueueItems summary
    = QueueItemsByStatus.New byStatus + QueueItemsByStatus.InProgress byStatus
      + QueueItemsByStatus.Successful byStatus
      + QueueItemsByStatus.Failed byStatus
      + sumOf QueueStats.abandonedItems sampled /\
    DashboardSummary.activeJobs summary
    = JobsByState.Pending byState + JobsByState.Running byState /\
    rateAgrees (QueueItemsByStatus.Successful byStatus)
      (QueueItemsByStatus.Failed byStatus)
      (DashboardSummary.successRateQueues summary).
Proof.
  intros H byStatus byState. subst byStatus byState.
  unfold getDashboardSummary in H.
  unbind H as folder w0 Hf. unfold getFolderId, asks in Hf.
  inversion Hf; subst; clear Hf.
  unbind H as queues w1 Hq. unbind H as jobStats w2 Hj.
  unbind H as r w3 Hloop.
  destruct (getDashboardSummary_loop_sampled _ _ _ _ _ _ _ Hloop)
    as (sampled & Hrun & Hall).
  rewrite (getDashboardSummary_loop_run _ _ _ _ _ _ _ Hrun) in Hloop.
  rewrite getDashboardSummary_add_fold in Hloop.
  inversion Hloop as [Hr]. clear Hloop. subst r.
  apply ret_inv in H. destruct H as [<- <-].
  exists queues, w1, jobStats, w2, sampled.
  split; [exact Hq|]. split; [exact Hj|]. split; [exact Hrun|].
  cbn [DashboardSummary.totalQueueItems DashboardSummary.queueItemsByStatus
       DashboardSummary.jobsByState DashboardSummary.activeJobs
       DashboardSummary.successRateQueues
       QueueItemsByStatus.New QueueItemsByStatus.InProgress
       QueueItemsByStatus.Successful QueueItemsByStatus.Failed
       JobsByState.Pending JobsByState.Running].
  split; [rewrite (sumOf_totalItems _ Hall); lia|].
  split; [reflexivity|]. apply rate_cases.
Qed.

(** Five of twelve queues are sampled, each with two items in every
    status: 50 items in all, of which the four entries show 40. *)
Lemma getDashboardSummary_total_counts_abandoned_witness :
  exists summary,
    fst (getDashboardSummary None (Demo.envOf Demo.busyServer None)
           Demo.fresh) = Returns summary /\
    DashboardSummary.totalQueueItems summary = 50 /\
    QueueItemsByStatus.New (DashboardSummary.queueItemsByStatus summary)
    + QueueItemsByStatus.InProgress
        (DashboardSummary.queueItemsByStatus summary)
    + QueueItemsByStatus.Successful
        (DashboardSummary.queueItemsByStatus summary)
    + QueueItemsByStatus.Failed
        (DashboardSummary.queueItemsByStatus summary) = 40.
Proof.
  eexists. split; [vm_compute; reflexivity|].
  edestruct (getDashboardSummary_total_counts_abandoned
               (Demo.envOf Demo.busyServer None) Demo.fresh None)
    as (queues & w1 & jobStats & w2 & sampled & _).
  - vm_compute. reflexivity.
  - split; reflexivity.
Defined.

(** ** Configuration *)

(** [loadConfig] fails exactly when one of the three required variables is
    unset or empty, and its message names the first such variable in the
    order URL, client id, client secret. When it succeeds the three values
    are present and non-empty, the tenant name is not empty ("Default"
    stands in for a missing or empty one), and a default folder is set
    only from a non-empty [UIPATH_FOLDER_ID] that reads as a finite
    number. *)
Theorem loadConfig_reports_first_missing {Num : Type}
    (Number : string -> Num) (Number_isFinite : Num -> bool)
    (env : string -> option string) :
  match loadConfig Num Number Number_isFinite env with
  | inl message =>
      exists before envVar after,
        requiredEnvVars = (before ++ envVar :: after)%list /\
        JS.given (env envVar) = None /\
        Forall (fun v => JS.given (env v) <> None) before /\
        message = ("Missing required environment variable: " ++ envVar)%string
  | inr config =>
      Forall (fun v => JS.given (env v) <> None) requiredEnvVars /\
      JS.given (Config.baseUrl config) = env "UIPATH_URL" /\
      JS.given (Config.clientId config) = env "UIPATH_CLIENT_ID" /\
      JS.given (Config.clientSecret config) = env "UIPATH_CLIENT_SECRET" /\
      Config.tenantName config <> "" /\
      (forall n,
         Config.defaultFolderId config = Some n ->
         Number_isFinite n = true /\
         exists text,
           env "UIPATH_FOLDER_ID" = Some text /\ text <> "" /\
           n = Number text)
  end.
Proof.
  unfold loadConfig, requiredEnvVars. cbn [loadConfig_missing].
  destruct (JS.given (env "UIPATH_URL")) as [url|] eqn:Eurl.
  2: { exists [], "UIPATH_URL", ["UIPATH_CLIENT_ID"; "UIPATH_CLIENT_SECRET"].
       repeat split; [exact Eurl | constructor]. }
  destruct (JS.given (env "UIPATH_CLIENT_ID")) as [id|] eqn:Eid.
  2: { exists ["UIPATH_URL"], "UIPATH_CLIENT_ID", ["UIPATH_CLIENT_SECRET"].
       repeat split; [exact Eid|].
       constructor; [congruence | constructor]. }
  destruct (JS.given (env "UIPATH_CLIENT_SECRET")) as [secret|] eqn:Esecret.
  2: { exists ["UIPATH_URL"; "UIPATH_CLIENT_ID"], "UIPATH_CLIENT_SECRET", [].
       repeat split; [exact Esecret|].
       constructor; [congruence|]. constructor; [congruence | constructor]. }
  cbn [Config.baseUrl Config.clientId Config.clientSecret Config.tenantName
       Config.defaultFolderId].
  split.
  { constructor; [congruence|]. constructor; [congruence|].
    constructor; [congruence | constructor]. }
  apply given_some in Eurl, Eid, Esecret.
  destruct Eurl as [Eurl Nurl], Eid as [Eid Nid],
    Esecret as [Esecret Nsecret].
  rewrite Eurl, Eid, Esecret.
  split; [destruct url; [congruence | reflexivity]|].
  split; [destruct id; [congruence | reflexivity]|].
  split; [destruct secret; [congruence | reflexivity]|].
  split.
  - unfold JS.str_or.
    destruct (env "UIPATH_TENANT_NAME") as [[|c t]|]; cbn; discriminate.
  - intros n Hn.
    destruct (JS.given (env "UIPATH_FOLDER_ID")) as [text|] eqn:Efolder;
      [|discriminate Hn].
    cbn [option_map] in Hn.
    destruct (Number_isFinite (Number text)) eqn:Efinite;
      [|discriminate Hn].
    injection Hn as <-. split; [exact Efinite|].
    apply given_some in Efolder. destruct Efolder as [Efolder Nfolder].
    exists text. auto.
Qed.

(** An empty client secret is reported as missing; a folder id that is
    not a number leaves the default folder unset. *)
Lemma loadConfig_reports_first_missing_witness :
  loadConfig (option Z) Scenario.wholeNumber Scenario.isSome
    Scenario.noSecret
  = inl "Missing required environment variable: UIPATH_CLIENT_SECRET" /\
  (exists config,
     loadConfig (option Z) Scenario.wholeNumber Scenario.isSome
       Scenario.oddFolder = inr config /\
     Config.defaultFolderId config = None /\
     Config.tenantName config = "Default").
Proof.
  split.
  - pose proof (loadConfig_reports_first_missing Scenario.wholeNumber
                  Scenario.isSome Scenario.noSecret) as H.
    destruct (loadConfig _ _ _ Scenario.noSecret) as [message|config] eqn:E.
    + destruct H as (before & envVar & after & _ & _ & _ & ->).
      vm_compute in E. exact (eq_sym E).
    + vm_compute in E. discriminate E.
  - eexists. split; [vm_compute; reflexivity|]. split; reflexivity.
Defined.
